(** * Timeline aggregation and enrichment engine: a shallow embedding

    The development follows the TypeScript sources of the storytime
    repository:

    - [src/processors/timeline-processor.ts]  (module [TimelineProcessor])
    - its earlier, sequential revision        (module [TimelineProcessorSeq])
    - [src/processors/nlp-processor.ts]       (module [NlpPipeline])
    - the enhanced NLP module                 (modules [NLPProcessor],
                                               [NLPHeuristics])
    - the geospatial analysis module          (modules [GeoAnalyzer],
                                               [GeoQueries])
    - the network analysis module             (modules [NetworkAnalyzer],
                                               [NetworkBuilder])
    - the statistics and grouping of [timeline-processor.ts]
                                              (module [TimelineQueries])

    Part I holds the embedding, the notions used to state properties and
    the sample data; Part II holds the properties of the pipeline's
    contract; Part III holds further properties of the embedded code.

    Conventions of the embedding.

    - A JavaScript string is a [string] of code units below 256 (the
      Latin-1 part of UTF-16); [toLowerCase], [trim], [\s] and [\w] are
      written out on that range.
    - A JavaScript number that the code only counts with or only compares
      is an exact number: [Z] for counters, weights and 32-bit hashes (the
      wrap-around is written out), [Q] for confidences, scores and
      coordinates.
    - A value of type [any] is a [JsVal].
    - A luxon [DateTime] is an instant (epoch milliseconds) together with a
      zone; a zone is given by its name, its offset from UTC in whole
      minutes and whether it is a fixed-offset zone.
    - Code that logs to the console and may throw runs in the monad [M]
      (a console transcript next to a result or an exception). *)

From Stdlib Require Import ZArith QArith Qminmax Ascii String List Lia Permutation Sorted.
From stdpp Require Import base decidable countable list gmap strings.

Set Warnings "-register-all,-clear-no-such-hyp".

Open Scope Z_scope.

(* ===================================================================== *)
(** * JavaScript values and strings *)
(* ===================================================================== *)

Module Js.

(** Values of TypeScript type [any]. *)
Inductive JsVal : Type :=
| JUndefined
| JNull
| JBool (b : bool)
| JNum (q : Q)
| JStr (s : string)
| JArr (items : list JsVal)
| JObj (fields : list (string * JsVal)).

(** An object ([Record<string, any>]) keeps its keys in insertion order. *)
Definition Obj := list (string * JsVal).

(** [o[k]]: the value of an own property, [undefined] when absent. *)
Fixpoint obj_get (o : Obj) (k : string) : JsVal :=
  match o with
  | [] => JUndefined
  | (k', v) :: o' => if String.eqb k' k then v else obj_get o' k
  end.

(** [o[k] = v]: overwrite in place, or append a new key. *)
Fixpoint obj_set (o : Obj) (k : string) (v : JsVal) : Obj :=
  match o with
  | [] => [(k, v)]
  | (k', v') :: o' =>
      if String.eqb k' k then (k', v) :: o' else (k', v') :: obj_set o' k v
  end.

(** [v.k] on an arbitrary value that is neither [null] nor [undefined]. *)
Definition get_prop (v : JsVal) (k : string) : JsVal :=
  match v with
  | JObj o => obj_get o k
  | _ => JUndefined
  end.

(** JavaScript truthiness. *)
Definition truthy (v : JsVal) : bool :=
  match v with
  | JUndefined | JNull => false
  | JBool b => b
  | JNum q => negb (Qeq_bool q 0)
  | JStr s => negb (String.eqb s "")
  | JArr _ | JObj _ => true
  end.

(** [a || b]. *)
Definition js_or (a b : JsVal) : JsVal := if truthy a then a else b.

(** [v.length] for the values that have one. *)
Definition js_length (v : JsVal) : option Z :=
  match v with
  | JArr l => Some (Z.of_nat (length l))
  | JStr s => Some (Z.of_nat (String.length s))
  | _ => None
  end.

(** [v[i]] on an array or a string. *)
Definition js_index (v : JsVal) (i : nat) : JsVal :=
  match v with
  | JArr l => nth i l JUndefined
  | JStr s => match String.get i s with
              | Some c => JStr (String c "")
              | None => JUndefined
              end
  | _ => JUndefined
  end.

(** ** Characters *)

Definition code (c : ascii) : Z := Z.of_nat (nat_of_ascii c).

Definition between (lo hi : Z) (c : ascii) : bool :=
  (lo <=? code c) && (code c <=? hi).

Definition is_upper (c : ascii) : bool := between 65 90 c.
Definition is_lower (c : ascii) : bool := between 97 122 c.
Definition is_digit (c : ascii) : bool := between 48 57 c.

(** [\w] is [[A-Za-z0-9_]]. *)
Definition is_word (c : ascii) : bool :=
  is_upper c || is_lower c || is_digit c || (code c =? 95).

(** [\s] and the characters removed by [trim], below 256:
    TAB, LF, VT, FF, CR, SPACE and NBSP. *)
Definition is_space (c : ascii) : bool :=
  between 9 13 c || (code c =? 32) || (code c =? 160).

(** [toLowerCase] on one code unit: [A-Z], and the Latin-1 capitals
    U+00C0..U+00DE except the multiplication sign U+00D7. *)
Definition lower_char (c : ascii) : ascii :=
  if is_upper c || (between 192 222 c && negb (code c =? 215))
  then ascii_of_nat (nat_of_ascii c + 32)
  else c.

(** ** Strings *)

Fixpoint toLowerCase (s : string) : string :=
  match s with
  | EmptyString => EmptyString
  | String c s' => String (lower_char c) (toLowerCase s')
  end.

Fixpoint trimStart (s : string) : string :=
  match s with
  | EmptyString => EmptyString
  | String c s' => if is_space c then trimStart s' else s
  end.

Fixpoint all_space (s : string) : bool :=
  match s with
  | EmptyString => true
  | String c s' => is_space c && all_space s'
  end.

Fixpoint trimEnd (s : string) : string :=
  match s with
  | EmptyString => EmptyString
  | String c s' => if all_space s then EmptyString else String c (trimEnd s')
  end.

Definition trim (s : string) : string := trimEnd (trimStart s).

(** [s.startsWith(p)]. *)
Definition startsWith (p s : string) : bool := String.prefix p s.

(** [s.substring(n)]. *)
Fixpoint substring_from (n : nat) (s : string) : string :=
  match n, s with
  | O, _ => s
  | S n', String _ s' => substring_from n' s'
  | S _, EmptyString => EmptyString
  end.

(** [xs.includes(w)] on an array of strings. *)
Definition includes (xs : list string) (w : string) : bool :=
  existsb (String.eqb w) xs.

(** [s.match(/\b(\w+)\b/g) || []]: the maximal runs of word characters,
    from left to right. [cur] is the run being read. *)
Fixpoint match_words_from (cur : string) (s : string) : list string :=
  match s with
  | EmptyString => if String.eqb cur "" then [] else [cur]
  | String c s' =>
      if is_word c then match_words_from (cur +:+ String c "") s'
      else (if String.eqb cur "" then [] else [cur]) ++ match_words_from "" s'
  end.

Definition match_words (s : string) : list string := match_words_from "" s.

(** [s.split(/\s+/)]: the pieces between maximal runs of white space; a
    string that starts (ends) with white space yields an empty first
    (last) piece. [in_sep] tells that the previous character was white
    space. *)
Fixpoint split_ws_from (cur : string) (in_sep : bool) (s : string) : list string :=
  match s with
  | EmptyString => [cur]
  | String c s' =>
      if is_space c
      then (if in_sep then split_ws_from cur true s'
            else cur :: split_ws_from "" true s')
      else split_ws_from (cur +:+ String c "") false s'
  end.

Definition split_ws (s : string) : list string := split_ws_from "" false s.

(** [s.replace(/[^\w\s]/g, '')]. *)
Fixpoint strip_punctuation (s : string) : string :=
  match s with
  | EmptyString => EmptyString
  | String c s' =>
      if is_word c || is_space c then String c (strip_punctuation s')
      else strip_punctuation s'
  end.

Fixpoint all_lower (s : string) : bool :=
  match s with
  | EmptyString => true
  | String c s' => is_lower c && all_lower s'
  end.

(** [/^[A-Z][a-z]+$/.test(s)]. *)
Definition is_capitalized (s : string) : bool :=
  match s with
  | String c (String d rest) => is_upper c && is_lower d && all_lower rest
  | _ => false
  end.

(** ** 32-bit integers *)

(** [ToInt32]: reduce modulo 2^32 into [-2^31, 2^31). *)
Definition to_int32 (z : Z) : Z := (z + 2^31) mod 2^32 - 2^31.

(** [a << n] on 32-bit integers. *)
Definition shl32 (a : Z) (n : Z) : Z := to_int32 (Z.shiftl (to_int32 a) n).

(** [a & b] on 32-bit integers. *)
Definition and32 (a b : Z) : Z := to_int32 (Z.land (to_int32 a) (to_int32 b)).

(** [[a, b].sort()] on two strings: code-unit order, stable. *)
Definition sort_pair (a b : string) : string * string :=
  if String.ltb b a then (b, a) else (a, b).

(** [xs.sort(cmp)]: the sort is stable, [cmp a b <= 0] keeps [a] before
    [b]. Written as the insertion of each element, from the right, in
    front of the first element it does not come after. *)
Section Sort.
Context {A : Type} (cmp : A -> A -> Z).

Fixpoint sort_insert (x : A) (l : list A) : list A :=
  match l with
  | [] => [x]
  | y :: l' => if cmp x y <=? 0 then x :: y :: l' else y :: sort_insert x l'
  end.

Fixpoint sort (l : list A) : list A :=
  match l with
  | [] => []
  | x :: l' => sort_insert x (sort l')
  end.
End Sort.

End Js.

Export Js.

(* ===================================================================== *)
(** * JavaScript's [Map] and [Set] with string keys *)
(* ===================================================================== *)

(** Entries are kept in insertion order; [set] on a present key replaces
    the value where it stands. *)
Module JsMap.
Section JsMap.
Context {V : Type}.

Fixpoint get (m : list (string * V)) (k : string) : option V :=
  match m with
  | [] => None
  | (k', v) :: m' => if String.eqb k' k then Some v else get m' k
  end.

Definition has (m : list (string * V)) (k : string) : bool :=
  match get m k with Some _ => true | None => false end.

Fixpoint set (m : list (string * V)) (k : string) (v : V) : list (string * V) :=
  match m with
  | [] => [(k, v)]
  | (k', v') :: m' =>
      if String.eqb k' k then (k', v) :: m' else (k', v') :: set m' k v
  end.

End JsMap.

(** [s.add(x)] on a [Set<string>]. *)
Definition add (s : list string) (x : string) : list string :=
  if includes s x then s else s ++ [x].

End JsMap.

(* ===================================================================== *)
(** * luxon's DateTime *)
(* ===================================================================== *)

Module Luxon.

(** A zone: its name, its offset from UTC in whole minutes, and luxon's
    [zone.isUniversal], which holds of the fixed-offset zones ("UTC",
    "UTC+2") and of no IANA zone. *)
Record Zone : Type :=
  { zoneName : string; offsetMinutes : Z; isUniversal : bool }.

Record DateTime : Type := { ts : Z; zone : Zone }.

Definition toMillis (d : DateTime) : Z := ts d.

(** [d.setZone(z)]: the same instant, read in another zone. *)
Definition setZone (z : Zone) (d : DateTime) : DateTime :=
  {| ts := ts d; zone := z |}.

(** The wall-clock reading of [d] in its zone, in milliseconds. *)
Definition localMillis (d : DateTime) : Z :=
  ts d + 60000 * offsetMinutes (zone d).

(** [d.startOf('minute')]: seconds and milliseconds of the wall-clock
    reading set to zero. *)
Definition startOf_minute (d : DateTime) : DateTime :=
  {| ts := ts d - localMillis d mod 60000; zone := zone d |}.

(** [d.toISO()] prints the wall-clock reading followed by the offset
    ("2024-03-01T10:15:00.000+02:00"), and the letter Z in place of an
    offset of zero when the zone is a fixed-offset one; an IANA zone at
    offset zero prints "+00:00". The string is represented by the two
    numbers it prints and by whether it ends in Z. *)
Definition IsoString : Type := (Z * Z * bool)%type.

Definition toISO (d : DateTime) : IsoString :=
  (localMillis d, offsetMinutes (zone d),
   isUniversal (zone d) && (offsetMinutes (zone d) =? 0)).

End Luxon.

Export Luxon.

(* ===================================================================== *)
(** * The data model ([types.ts]) *)
(* ===================================================================== *)

Inductive Platform : Type := twitter | reddit | github | rss | pastebin.

Definition platform_name (p : Platform) : string :=
  match p with
  | twitter => "twitter"
  | reddit => "reddit"
  | github => "github"
  | rss => "rss"
  | pastebin => "pastebin"
  end.

#[global] Instance Platform_eq_dec : EqDecision Platform.
Proof. solve_decision. Defined.

Definition Platform_to_nat (p : Platform) : nat :=
  match p with
  | twitter => 0 | reddit => 1 | github => 2 | rss => 3 | pastebin => 4
  end%nat.

Definition Platform_of_nat (n : nat) : option Platform :=
  match n with
  | 0 => Some twitter | 1 => Some reddit | 2 => Some github
  | 3 => Some rss | 4 => Some pastebin | _ => None
  end%nat.

#[global] Instance Platform_countable : Countable Platform.
Proof.
  apply (inj_countable Platform_to_nat Platform_of_nat).
  intros []; reflexivity.
Defined.

Inductive EventCategory : Type :=
| post | comment | share | reaction
| code_commit | code_create | code_push | code_pr
| blog_post | article
| paste | snippet
| other.

Inductive SentimentLabel : Type := Positive | Negative | Neutral.

Module SentimentScore.
Record t : Type := { score : Q; magnitude : Q; label : SentimentLabel }.
End SentimentScore.

Module Entity.
Record t : Type :=
  { text : string; type : string; confidence : Q; metadata : option Obj }.
End Entity.

Module GeoLocation.
Record t : Type :=
  { lat : JsVal; lng : JsVal; name : option JsVal;
    address : option string; countryCode : option string }.
End GeoLocation.

Module Relation.
Record t : Type := { type : string; targetId : string; context : option string }.
End Relation.

Module TimelineEvent.
Record t : Type :=
  { id : string;
    platform : Platform;
    category : EventCategory;
    timestamp : DateTime;
    originalTimestamp : string;
    title : string;
    content : string;
    url : string;
    username : string;
    location : option GeoLocation.t;
    media : option (list JsVal);
    entities : option (list Entity.t);
    sentiment : option SentimentScore.t;
    metrics : option Obj;
    relations : option (list Relation.t);
    topics : option (list string);
    language : option string;
    metadata : Obj }.

(** [{ ...event, timestamp: d }] and the other one-field updates. *)
Definition with_timestamp (d : DateTime) (e : t) : t :=
  {| id := id e; platform := platform e; category := category e;
     timestamp := d; originalTimestamp := originalTimestamp e;
     title := title e; content := content e; url := url e;
     username := username e; location := location e; media := media e;
     entities := entities e; sentiment := sentiment e; metrics := metrics e;
     relations := relations e; topics := topics e; language := language e;
     metadata := metadata e |}.

Definition with_metadata (m : Obj) (e : t) : t :=
  {| id := id e; platform := platform e; category := category e;
     timestamp := timestamp e; originalTimestamp := originalTimestamp e;
     title := title e; content := content e; url := url e;
     username := username e; location := location e; media := media e;
     entities := entities e; sentiment := sentiment e; metrics := metrics e;
     relations := relations e; topics := topics e; language := language e;
     metadata := m |}.

Definition with_location (l : GeoLocation.t) (e : t) : t :=
  {| id := id e; platform := platform e; category := category e;
     timestamp := timestamp e; originalTimestamp := originalTimestamp e;
     title := title e; content := content e; url := url e;
     username := username e; location := Some l; media := media e;
     entities := entities e; sentiment := sentiment e; metrics := metrics e;
     relations := relations e; topics := topics e; language := language e;
     metadata := metadata e |}.

Definition with_language (l : string) (e : t) : t :=
  {| id := id e; platform := platform e; category := category e;
     timestamp := timestamp e; originalTimestamp := originalTimestamp e;
     title := title e; content := content e; url := url e;
     username := username e; location := location e; media := media e;
     entities := entities e; sentiment := sentiment e; metrics := metrics e;
     relations := relations e; topics := topics e; language := Some l;
     metadata := metadata e |}.

Definition with_entities (l : list Entity.t) (e : t) : t :=
  {| id := id e; platform := platform e; category := category e;
     timestamp := timestamp e; originalTimestamp := originalTimestamp e;
     title := title e; content := content e; url := url e;
     username := username e; location := location e; media := media e;
     entities := Some l; sentiment := sentiment e; metrics := metrics e;
     relations := relations e; topics := topics e; language := language e;
     metadata := metadata e |}.

Definition with_sentiment (s : SentimentScore.t) (e : t) : t :=
  {| id := id e; platform := platform e; category := category e;
     timestamp := timestamp e; originalTimestamp := originalTimestamp e;
     title := title e; content := content e; url := url e;
     username := username e; location := location e; media := media e;
     entities := entities e; sentiment := Some s; metrics := metrics e;
     relations := relations e; topics := topics e; language := language e;
     metadata := metadata e |}.

Definition with_topics (l : list string) (e : t) : t :=
  {| id := id e; platform := platform e; category := category e;
     timestamp := timestamp e; originalTimestamp := originalTimestamp e;
     title := title e; content := content e; url := url e;
     username := username e; location := location e; media := media e;
     entities := entities e; sentiment := sentiment e; metrics := metrics e;
     relations := relations e; topics := Some l; language := language e;
     metadata := metadata e |}.
End TimelineEvent.

Abbreviation TimelineEvent := TimelineEvent.t.

(** The instant of an event, [event.timestamp.toMillis()]. *)
Definition millis (e : TimelineEvent) : Z := toMillis (TimelineEvent.timestamp e).

Module AnalysisConfig.
Record t : Type :=
  { sentiment : option bool; entities : option bool; topics : option bool;
    geotagging : option bool; network : option bool }.
End AnalysisConfig.

Module TimelineConfig.
Record t : Type :=
  { target : string;
    timezone : Zone;
    dateRange : option (DateTime * DateTime);
    platforms : list Platform;
    analysis : option AnalysisConfig.t }.
End TimelineConfig.

Record TwitterConfig : Type := { bearerToken : option string }.
Record RedditConfig : Type :=
  { clientId : option string; clientSecret : option string }.
Record GitHubConfig : Type := { token : option string }.
Record RSSConfig : Type := { feeds : list string }.
Record PastebinConfig : Type := { apiKey : option string }.

Module PlatformConfigs.
Record t : Type :=
  { twitter : option TwitterConfig;
    reddit : option RedditConfig;
    github : option GitHubConfig;
    rss : option RSSConfig;
    pastebin : option PastebinConfig }.
End PlatformConfigs.

(* ===================================================================== *)
(** * Console output and exceptions *)
(* ===================================================================== *)

Module Effects.

(** The transcript keeps the lines written with [console.error] and
    [console.warn]. *)
Inductive LogLine : Type :=
| ConsoleError (msg : string)
| ConsoleWarn (msg : string).

Inductive result (A : Type) : Type :=
| Ok (value : A)
| Throw (error : string).
Arguments Ok {A} value.
Arguments Throw {A} error.

(** A computation: what it printed, and how it ended. *)
Definition M (A : Type) : Type := (list LogLine * result A)%type.

Definition ret {A} (a : A) : M A := ([], Ok a).

Definition bind {A B} (m : M A) (f : A -> M B) : M B :=
  match m with
  | (l, Ok a) => let '(l', r) := f a in (l ++ l', r)
  | (l, Throw e) => (l, Throw e)
  end.

Definition throw {A} (e : string) : M A := ([], Throw e).

Definition tell (line : LogLine) : M unit := ([line], Ok tt).

(** [try { m } catch (error) { h error }]. *)
Definition try_catch {A} (m : M A) (h : string -> M A) : M A :=
  match m with
  | (l, Throw e) => let '(l', r) := h e in (l ++ l', r)
  | (l, Ok a) => (l, Ok a)
  end.

Definition console (A : Type) (m : M A) : list LogLine := fst m.
Definition outcome {A} (m : M A) : result A := snd m.
Arguments console {A} m.

Notation "'do' x <- m ; k" := (bind m (fun x => k))
  (at level 10, x name, m at level 100, k at level 200).
Notation "'run' m ; k" := (bind m (fun _ => k))
  (at level 10, m at level 100, k at level 200).

(** [Array.prototype.map] with a callback that may throw. *)
Fixpoint mapM {A B} (f : A -> M B) (l : list A) : M (list B) :=
  match l with
  | [] => ret []
  | x :: l' => do y <- f x; do ys <- mapM f l'; ret (y :: ys)
  end.

(** The settled state of a promise. *)
Inductive PromiseSettledResult (A : Type) : Type :=
| fulfilled (value : A)
| rejected (reason : string).
Arguments fulfilled {A} value.
Arguments rejected {A} reason.

Definition settle {A} (r : result A) : PromiseSettledResult A :=
  match r with
  | Ok v => fulfilled v
  | Throw e => rejected e
  end.

(** [await Promise.allSettled(ps)]: every promise runs to its end, the
    results come in the order of [ps], and nothing is thrown. The
    transcript lists the console lines promise by promise, in the order
    of [ps]: each promise's own lines are in the order it printed them,
    and all of them come before what is printed after the [await]. How
    the lines of different promises interleave when they run
    concurrently is not represented. *)
Fixpoint allSettled {A} (ps : list (M A)) : M (list (PromiseSettledResult A)) :=
  match ps with
  | [] => ret []
  | p :: ps' =>
      do s <- (console p, Ok (settle (outcome p)));
      do rest <- allSettled ps';
      ret (s :: rest)
  end.

End Effects.

Export Effects.

(* ===================================================================== *)
(** * The adapter contract *)
(* ===================================================================== *)

(** An ingester talks to a remote service; here it is what its two calls
    print and return (or throw). *)
Record Ingester : Type :=
  { testConnection : M unit;
    ingest : string -> option (DateTime * DateTime) -> M (list TimelineEvent) }.

(** The five ingester classes, [new XIngester(config)]. *)
Record Ingesters : Type :=
  { TwitterIngester : TwitterConfig -> Ingester;
    RedditIngester : RedditConfig -> Ingester;
    GitHubIngester : GitHubConfig -> Ingester;
    RSSIngester : RSSConfig -> Ingester;
    PastebinIngester : PastebinConfig -> Ingester }.

(** Truthiness of an optional string ([undefined] and [''] are falsy). *)
Definition string_truthy (o : option string) : bool :=
  match o with
  | Some s => negb (String.eqb s "")
  | None => false
  end.

(** Truthiness of an optional flag. *)
Definition flag (o : option bool) : bool := default false o.

(* ===================================================================== *)
(** * [nlp-processor.ts]: the NLP pipeline called by [buildTimeline] *)
(* ===================================================================== *)

Module NlpPipeline.
Section Process.

(** The [natural] and [compromise] libraries are external:
    [addDocument] is [tfidf.addDocument(event.content)], and [analyse]
    gives the [nlp] object ([{entities, sentiment, topics}]) computed for
    an event of a batch. Either may throw. *)
Variable addDocument : TimelineEvent -> result unit.
Variable analyse : list TimelineEvent -> TimelineEvent -> result JsVal.

Definition process (events : list TimelineEvent) : M (list TimelineEvent) :=
  try_catch
    (run mapM (fun event => ([], addDocument event)) events;
     mapM (fun event =>
             do nlp <- ([], analyse events event);
             ret (TimelineEvent.with_metadata
                    (obj_set (TimelineEvent.metadata event) "nlp" nlp) event))
          events)
    (fun error =>
       run tell (ConsoleError ("Error in NLP processing: " +:+ error));
       ret events).

End Process.
End NlpPipeline.

(* ===================================================================== *)
(** * [timeline-processor.ts] *)
(* ===================================================================== *)

Module TimelineProcessor.

(** [simpleHash]: [hash = ((hash << 5) - hash) + char; hash = hash & hash]
    for every code unit. The decimal string returned by [toString] is
    represented by the number it prints. *)
Fixpoint simpleHash_from (hash : Z) (str : string) : Z :=
  match str with
  | EmptyString => hash
  | String c str' =>
      let char := code c in
      let hash := (shl32 hash 5 - hash) + char in
      let hash := and32 hash hash in
      simpleHash_from hash str'
  end.

Definition simpleHash (str : string) : Z := simpleHash_from 0 str.

(** The key [`${event.platform}-${timeKey}-${contentHash}`], represented by
    the three values it interpolates. *)
Definition DedupKey : Type := (Platform * IsoString * Z)%type.

Definition dedupeKey (event : TimelineEvent) : DedupKey :=
  let timeKey := toISO (startOf_minute (TimelineEvent.timestamp event)) in
  let contentHash := simpleHash (trim (toLowerCase (TimelineEvent.content event))) in
  (TimelineEvent.platform event, timeKey, contentHash).

(** The loop of [deduplicateEvents]; [seen] is the [Set] of keys. *)
Fixpoint deduplicate_from (seen : gset DedupKey) (events : list TimelineEvent)
  : list TimelineEvent :=
  match events with
  | [] => []
  | event :: rest =>
      if decide (dedupeKey event ∈ seen)
      then deduplicate_from seen rest
      else event :: deduplicate_from ({[dedupeKey event]} ∪ seen) rest
  end.

Definition deduplicateEvents (events : list TimelineEvent) : list TimelineEvent :=
  deduplicate_from ∅ events.

Definition normalizeTimestamps (timezone : Zone) (events : list TimelineEvent)
  : list TimelineEvent :=
  map (fun event =>
         TimelineEvent.with_timestamp
           (setZone timezone (TimelineEvent.timestamp event)) event)
      events.

(** [events.sort((a, b) => a.timestamp.toMillis() - b.timestamp.toMillis())]. *)
Definition sortEventsByTimestamp (events : list TimelineEvent) : list TimelineEvent :=
  Js.sort (fun a b => toMillis (TimelineEvent.timestamp a)
                      - toMillis (TimelineEvent.timestamp b)) events.

Section Processor.

Variable config : TimelineConfig.t.
Variable platformConfigs : PlatformConfigs.t.
Variable ingesters : Ingesters.
Variable nlp_addDocument : TimelineEvent -> result unit.
Variable nlp_analyse : list TimelineEvent -> TimelineEvent -> result JsVal.

(** The [switch] of [processEvents]: the ingester of a platform, or the
    exception for a missing credential. The [default] branch
    ("Unsupported platform") has no value of type [Platform] to run on. *)
Definition select_ingester (platform : Platform) : M Ingester :=
  match platform with
  | twitter =>
      match PlatformConfigs.twitter platformConfigs with
      | Some c =>
          if string_truthy (bearerToken c)
          then ret (TwitterIngester ingesters c)
          else throw "Error: Twitter bearer token is required"
      | None => throw "Error: Twitter bearer token is required"
      end
  | reddit =>
      match PlatformConfigs.reddit platformConfigs with
      | Some c =>
          if string_truthy (clientId c) && string_truthy (clientSecret c)
          then ret (RedditIngester ingesters c)
          else throw "Error: Reddit client ID and secret are required"
      | None => throw "Error: Reddit client ID and secret are required"
      end
  | github =>
      ret (GitHubIngester ingesters
             (default {| token := None |} (PlatformConfigs.github platformConfigs)))
  | rss =>
      ret (RSSIngester ingesters
             (default {| feeds := [] |} (PlatformConfigs.rss platformConfigs)))
  | pastebin =>
      match PlatformConfigs.pastebin platformConfigs with
      | Some c =>
          if string_truthy (apiKey c)
          then ret (PastebinIngester ingesters c)
          else throw "Error: Pastebin API key is required"
      | None => throw "Error: Pastebin API key is required"
      end
  end.

Definition processEvents (platform : Platform) : M (list TimelineEvent) :=
  try_catch
    (do ingester <- select_ingester platform;
     run try_catch (testConnection ingester)
           (fun error =>
              tell (ConsoleWarn ("Warning: Connection test failed for "
                                 +:+ platform_name platform +:+ ": " +:+ error)));
     do events <- ingest ingester (TimelineConfig.target config)
                         (TimelineConfig.dateRange config);
     ret (map (fun event =>
                 TimelineEvent.with_timestamp
                   (setZone (TimelineConfig.timezone config)
                            (TimelineEvent.timestamp event)) event)
              events))
    (fun error =>
       run tell (ConsoleError ("Failed to process " +:+ platform_name platform
                               +:+ ": " +:+ error));
       throw error).

(** The [forEach] over the settled results: fulfilled values are
    concatenated, a rejection is printed. *)
Fixpoint collect (allEvents : list TimelineEvent)
    (results : list (PromiseSettledResult (list TimelineEvent) * Platform))
  : M (list TimelineEvent) :=
  match results with
  | [] => ret allEvents
  | (fulfilled value, _) :: rest => collect (allEvents ++ value) rest
  | (rejected reason, platform) :: rest =>
      run tell (ConsoleError ("Failed to process " +:+ platform_name platform
                              +:+ ": " +:+ reason));
      collect allEvents rest
  end.

Definition nlp_enabled : bool :=
  match TimelineConfig.analysis config with
  | Some a =>
      flag (AnalysisConfig.entities a) || flag (AnalysisConfig.sentiment a)
      || flag (AnalysisConfig.topics a)
  | None => false
  end.

Definition buildTimeline : M (list TimelineEvent) :=
  try_catch
    (let platformPromises := map processEvents (TimelineConfig.platforms config) in
     do results <- allSettled platformPromises;
     do allEvents <- collect [] (zip results (TimelineConfig.platforms config));
     let allEvents :=
       Js.sort (fun a b => toMillis (TimelineEvent.timestamp b)
                           - toMillis (TimelineEvent.timestamp a)) allEvents in
     if nlp_enabled
     then NlpPipeline.process nlp_addDocument nlp_analyse allEvents
     else ret allEvents)
    (fun error =>
       run tell (ConsoleError ("Timeline processing failed: " +:+ error));
       throw error).

End Processor.
End TimelineProcessor.

(* ===================================================================== *)
(** * The earlier, sequential revision of [TimelineProcessor] *)
(* ===================================================================== *)

(** The repository also keeps the first revision of the class (it imports
    [./ingesters/twitter.js]). Its [simpleHash], [deduplicateEvents],
    [normalizeTimestamps] and [sortEventsByTimestamp] are, word for word,
    the methods embedded above; its [buildTimeline] calls them. Progress
    lines written with [console.log] are not part of the transcript. *)
Module TimelineProcessorSeq.
Section Processor.

Variable config : TimelineConfig.t.
Variable platformConfigs : PlatformConfigs.t.
Variable ingesters : Ingesters.

Definition ingestFromPlatform (platform : Platform) : M (list TimelineEvent) :=
  let target := TimelineConfig.target config in
  let dateRange := TimelineConfig.dateRange config in
  match platform with
  | twitter =>
      match PlatformConfigs.twitter platformConfigs with
      | Some c => ingest (TwitterIngester ingesters c) target dateRange
      | None => ret []
      end
  | reddit =>
      match PlatformConfigs.reddit platformConfigs with
      | Some c => ingest (RedditIngester ingesters c) target dateRange
      | None => ret []
      end
  | github =>
      match PlatformConfigs.github platformConfigs with
      | Some c => ingest (GitHubIngester ingesters c) target dateRange
      | None => ret []
      end
  | rss =>
      ingest (RSSIngester ingesters
                (default {| feeds := [] |} (PlatformConfigs.rss platformConfigs)))
             target dateRange
  | pastebin =>
      match PlatformConfigs.pastebin platformConfigs with
      | Some c => ingest (PastebinIngester ingesters c) target dateRange
      | None => ret []
      end
  end.

(** The [for] loop with its [try]/[catch] around each platform. *)
Fixpoint ingest_all (allEvents : list TimelineEvent) (platforms : list Platform)
  : M (list TimelineEvent) :=
  match platforms with
  | [] => ret allEvents
  | platform :: rest =>
      do allEvents <-
        try_catch (do events <- ingestFromPlatform platform;
                   ret (allEvents ++ events))
                  (fun _ => ret allEvents);
      ingest_all allEvents rest
  end.

Definition buildTimeline : M (list TimelineEvent) :=
  do allEvents <- ingest_all [] (TimelineConfig.platforms config);
  let normalizedEvents :=
    TimelineProcessor.normalizeTimestamps (TimelineConfig.timezone config) allEvents in
  let deduplicatedEvents := TimelineProcessor.deduplicateEvents normalizedEvents in
  let sortedEvents := TimelineProcessor.sortEventsByTimestamp deduplicatedEvents in
  ret sortedEvents.

End Processor.
End TimelineProcessorSeq.

(* ===================================================================== *)
(** * The enhanced NLP module ([NLPProcessor.processEvents]) *)
(* ===================================================================== *)

Module NLPProcessor.

(** The configuration the constructor builds: every stage has its
    [enabled] flag ([true] unless the caller overrides it). *)
Record NLPConfig : Type :=
  { languageDetection_enabled : bool;
    entityExtraction_enabled : bool;
    entityExtraction_minConfidence : Q;
    sentimentAnalysis_enabled : bool;
    topicModeling_enabled : bool;
    topicModeling_numTopics : Z }.

Definition positiveWords : list string :=
  ["good"; "great"; "excellent"; "amazing"; "awesome"; "fantastic"; "wonderful";
   "like"; "love"; "happy"; "glad"; "positive"; "nice"; "beautiful"; "perfect";
   "best"; "better"; "improved"; "impressive"; "thank"; "thanks"; "appreciated";
   "exciting"; "excited"; "win"; "winning"; "success"; "successful"].

Definition negativeWords : list string :=
  ["bad"; "terrible"; "awful"; "horrible"; "worst"; "poor"; "negative";
   "hate"; "dislike"; "sad"; "unhappy"; "angry"; "annoyed"; "disappointed";
   "fail"; "failed"; "failure"; "problem"; "issue"; "bug"; "error"; "wrong";
   "broken"; "useless"; "difficult"; "hard"; "confusing"; "frustrated"].

(** One turn of the counting loop; the state is
    [(positiveCount, negativeCount)]. *)
Definition count_word (counts : Z * Z) (word : string) : Z * Z :=
  if includes positiveWords word then (fst counts + 1, snd counts)
  else if includes negativeWords word then (fst counts, snd counts + 1)
  else counts.

(** [x > y] on numbers. *)
Definition Qgtb (x y : Q) : bool := negb (Qle_bool x y).

Definition analyzeSentiment (text : string) : SentimentScore.t :=
  let words := match_words (toLowerCase text) in
  let counts := fold_left count_word words (0, 0) in
  let positiveCount := fst counts in
  let negativeCount := snd counts in
  let totalWords := Z.of_nat (length words) in
  let score : Q :=
    if 0 <? totalWords
    then (inject_Z (positiveCount - negativeCount)
          / inject_Z (Z.min totalWords (positiveCount + negativeCount + 5)))%Q
    else 0%Q in
  let magnitude : Q :=
    (inject_Z (positiveCount + negativeCount)
     / inject_Z (Z.max 1 totalWords) * 5)%Q in
  let label :=
    if Qgtb score (1 # 10) then Positive
    else if Qgtb (- (1 # 10)) score then Negative
    else Neutral in
  {| SentimentScore.score := Qmax (- 1) (Qmin 1 score);
     SentimentScore.magnitude := magnitude;
     SentimentScore.label := label |}.

Section ProcessEvents.

Variable config : NLPConfig.

(** The other stage helpers ([detectLanguage], [extractEntities],
    [modelTopics]) are regular-expression and frequency heuristics over
    the content; they are taken as given. *)
Variable detectLanguage : string → string.
Variable extractEntities : string → list Entity.t.
Variable modelTopics : string → list string.

(** The body of the loop for one event. *)
Definition enrich (event : TimelineEvent) : TimelineEvent :=
  let enrichedEvent := event in
  if String.eqb (TimelineEvent.content event) ""
     || (String.length (trim (TimelineEvent.content event)) =? 0)%nat
  then enrichedEvent
  else
    let enrichedEvent :=
      if languageDetection_enabled config
      then TimelineEvent.with_language
             (detectLanguage (TimelineEvent.content event)) enrichedEvent
      else enrichedEvent in
    let enrichedEvent :=
      if entityExtraction_enabled config
      then TimelineEvent.with_entities
             (extractEntities (TimelineEvent.content event)) enrichedEvent
      else enrichedEvent in
    let enrichedEvent :=
      if sentimentAnalysis_enabled config
      then TimelineEvent.with_sentiment
             (analyzeSentiment (TimelineEvent.content event)) enrichedEvent
      else enrichedEvent in
    let enrichedEvent :=
      if topicModeling_enabled config
      then TimelineEvent.with_topics
             (modelTopics (TimelineEvent.content event)) enrichedEvent
      else enrichedEvent in
    enrichedEvent.

Definition processEvents (events : list TimelineEvent) : list TimelineEvent :=
  map enrich events.

End ProcessEvents.

(** ** The sentiment formula as the specification words it *)

(** The number of tokens found in a word list. *)
Definition matches (lexicon : list string) (words : list string) : Z :=
  Z.of_nat (length (filter (λ w, includes lexicon w = true) words)).

Definition clamp (x : Q) : Q := Qmax (- 1) (Qmin 1 x).

(** "score = (pos - neg) / min(totalTokens, pos + neg + 5), clamped to
    [-1, 1]", zero for a text without tokens. *)
Definition spec_score (text : string) : Q :=
  let words := match_words (toLowerCase text) in
  let pos := matches positiveWords words in
  let neg := matches negativeWords words in
  let total := Z.of_nat (length words) in
  if total =? 0 then 0%Q
  else clamp (inject_Z (pos - neg) / inject_Z (Z.min total (pos + neg + 5)))%Q.

End NLPProcessor.

(* ===================================================================== *)
(** * The geospatial analysis module *)
(* ===================================================================== *)

Module GeoAnalyzer.

(** The configuration after the constructor's defaults. *)
Record GeoAnalysisConfig : Type :=
  { enabled : bool;
    minConfidence : option Q;
    countryFilter : option (list string);
    geocodingProvider : option string;
    geocodingApiKey : option string }.

(** An entry of the two literal tables of [initializeLocationDatabase]. *)
Record Place : Type :=
  { place_name : string; place_lat : Q; place_lng : Q; place_code : string }.

Definition cities : list Place :=
  [ {| place_name := "new york"; place_lat := 407128 # 10000; place_lng := - (740060 # 10000); place_code := "US" |};
    {| place_name := "los angeles"; place_lat := 340522 # 10000; place_lng := - (1182437 # 10000); place_code := "US" |};
    {| place_name := "chicago"; place_lat := 418781 # 10000; place_lng := - (876298 # 10000); place_code := "US" |};
    {| place_name := "houston"; place_lat := 297604 # 10000; place_lng := - (953698 # 10000); place_code := "US" |};
    {| place_name := "phoenix"; place_lat := 334484 # 10000; place_lng := - (1120740 # 10000); place_code := "US" |};
    {| place_name := "philadelphia"; place_lat := 399526 # 10000; place_lng := - (751652 # 10000); place_code := "US" |};
    {| place_name := "san antonio"; place_lat := 294241 # 10000; place_lng := - (984936 # 10000); place_code := "US" |};
    {| place_name := "san diego"; place_lat := 327157 # 10000; place_lng := - (1171611 # 10000); place_code := "US" |};
    {| place_name := "dallas"; place_lat := 327767 # 10000; place_lng := - (967970 # 10000); place_code := "US" |};
    {| place_name := "san francisco"; place_lat := 377749 # 10000; place_lng := - (1224194 # 10000); place_code := "US" |};
    {| place_name := "seattle"; place_lat := 476062 # 10000; place_lng := - (1223321 # 10000); place_code := "US" |};
    {| place_name := "boston"; place_lat := 423601 # 10000; place_lng := - (710589 # 10000); place_code := "US" |};
    {| place_name := "atlanta"; place_lat := 337490 # 10000; place_lng := - (843880 # 10000); place_code := "US" |};
    {| place_name := "miami"; place_lat := 257617 # 10000; place_lng := - (801918 # 10000); place_code := "US" |};
    {| place_name := "london"; place_lat := 515074 # 10000; place_lng := - (1278 # 10000); place_code := "GB" |};
    {| place_name := "paris"; place_lat := 488566 # 10000; place_lng := 23522 # 10000; place_code := "FR" |};
    {| place_name := "tokyo"; place_lat := 356762 # 10000; place_lng := 1396503 # 10000; place_code := "JP" |};
    {| place_name := "beijing"; place_lat := 399042 # 10000; place_lng := 1164074 # 10000; place_code := "CN" |};
    {| place_name := "sydney"; place_lat := - (338688 # 10000); place_lng := 1512093 # 10000; place_code := "AU" |};
    {| place_name := "rio de janeiro"; place_lat := - (229068 # 10000); place_lng := - (431729 # 10000); place_code := "BR" |};
    {| place_name := "mexico city"; place_lat := 194326 # 10000; place_lng := - (991332 # 10000); place_code := "MX" |};
    {| place_name := "cairo"; place_lat := 300444 # 10000; place_lng := 312357 # 10000; place_code := "EG" |};
    {| place_name := "moscow"; place_lat := 557558 # 10000; place_lng := 376173 # 10000; place_code := "RU" |};
    {| place_name := "berlin"; place_lat := 525200 # 10000; place_lng := 134050 # 10000; place_code := "DE" |};
    {| place_name := "madrid"; place_lat := 404168 # 10000; place_lng := - (37038 # 10000); place_code := "ES" |};
    {| place_name := "rome"; place_lat := 419028 # 10000; place_lng := 124964 # 10000; place_code := "IT" |};
    {| place_name := "toronto"; place_lat := 436532 # 10000; place_lng := - (793832 # 10000); place_code := "CA" |};
    {| place_name := "mumbai"; place_lat := 190760 # 10000; place_lng := 728777 # 10000; place_code := "IN" |};
    {| place_name := "singapore"; place_lat := 13521 # 10000; place_lng := 1038198 # 10000; place_code := "SG" |};
    {| place_name := "dubai"; place_lat := 252048 # 10000; place_lng := 552708 # 10000; place_code := "AE" |} ].

Definition countries : list Place :=
  [ {| place_name := "united states"; place_lat := 370902 # 10000; place_lng := - (957129 # 10000); place_code := "US" |};
    {| place_name := "usa"; place_lat := 370902 # 10000; place_lng := - (957129 # 10000); place_code := "US" |};
    {| place_name := "uk"; place_lat := 553781 # 10000; place_lng := - (34360 # 10000); place_code := "GB" |};
    {| place_name := "united kingdom"; place_lat := 553781 # 10000; place_lng := - (34360 # 10000); place_code := "GB" |};
    {| place_name := "canada"; place_lat := 561304 # 10000; place_lng := - (1063468 # 10000); place_code := "CA" |};
    {| place_name := "australia"; place_lat := - (252744 # 10000); place_lng := 1337751 # 10000; place_code := "AU" |};
    {| place_name := "germany"; place_lat := 511657 # 10000; place_lng := 104515 # 10000; place_code := "DE" |};
    {| place_name := "france"; place_lat := 462276 # 10000; place_lng := 22137 # 10000; place_code := "FR" |};
    {| place_name := "italy"; place_lat := 418719 # 10000; place_lng := 125674 # 10000; place_code := "IT" |};
    {| place_name := "spain"; place_lat := 404637 # 10000; place_lng := - (37492 # 10000); place_code := "ES" |};
    {| place_name := "japan"; place_lat := 362048 # 10000; place_lng := 1382529 # 10000; place_code := "JP" |};
    {| place_name := "china"; place_lat := 358617 # 10000; place_lng := 1041954 # 10000; place_code := "CN" |};
    {| place_name := "india"; place_lat := 205937 # 10000; place_lng := 789629 # 10000; place_code := "IN" |};
    {| place_name := "brazil"; place_lat := - (142350 # 10000); place_lng := - (519253 # 10000); place_code := "BR" |};
    {| place_name := "russia"; place_lat := 615240 # 10000; place_lng := 1053188 # 10000; place_code := "RU" |};
    {| place_name := "mexico"; place_lat := 236345 # 10000; place_lng := - (1025528 # 10000); place_code := "MX" |} ].

(** [toUpperCase] on one code unit of a place name ([a-z]). *)
Definition upper_char (c : ascii) : ascii :=
  if is_lower c then ascii_of_nat (nat_of_ascii c - 32) else c.

(** [name.split(' ').map(w => w.charAt(0).toUpperCase() + w.slice(1)).join(' ')];
    [start] tells that a word begins here. *)
Fixpoint capitalize_from (start : bool) (s : string) : string :=
  match s with
  | EmptyString => EmptyString
  | String c s' =>
      if (code c =? 32) then String c (capitalize_from true s')
      else String (if start then upper_char c else c) (capitalize_from false s')
  end.

Definition capitalize_words (s : string) : string := capitalize_from true s.

Definition place_location (p : Place) : GeoLocation.t :=
  {| GeoLocation.lat := JNum (place_lat p);
     GeoLocation.lng := JNum (place_lng p);
     GeoLocation.name := Some (JStr (capitalize_words (place_name p)));
     GeoLocation.address := None;
     GeoLocation.countryCode := Some (place_code p) |}.

(** The two [for] loops of [initializeLocationDatabase], each a [db.set]. *)
Definition initializeLocationDatabase : gmap string GeoLocation.t :=
  let db := ∅ in
  let db := fold_left (λ db city, <[place_name city := place_location city]> db)
                      cities db in
  let db := fold_left (λ db country, <[place_name country := place_location country]> db)
                      countries db in
  db.

Definition locationDatabase : gmap string GeoLocation.t :=
  initializeLocationDatabase.

Definition lookupLocationByName (name : string) : option GeoLocation.t :=
  let normalizedName := trim (toLowerCase name) in
  locationDatabase !! normalizedName.

(** [lookupLocationByName(v)] for a value of type [any]: [v.toLowerCase]
    exists on strings only. *)
Definition lookupLocationByValue (v : JsVal) : M (option GeoLocation.t) :=
  match v with
  | JStr name => ret (lookupLocationByName name)
  | _ => throw "TypeError: name.toLowerCase is not a function"
  end.

(** The conditions tested on the metadata bag. *)
Definition has_explicit_coordinates (event : TimelineEvent) : bool :=
  truthy (obj_get (TimelineEvent.metadata event) "lat")
  && truthy (obj_get (TimelineEvent.metadata event) "lng").

Definition is_twitter (p : Platform) : bool :=
  match p with twitter => true | _ => false end.

Definition is_reddit (p : Platform) : bool :=
  match p with reddit => true | _ => false end.

Definition has_twitter_geo (event : TimelineEvent) : bool :=
  is_twitter (TimelineEvent.platform event)
  && truthy (obj_get (TimelineEvent.metadata event) "geo").

Definition has_reddit_subreddit (event : TimelineEvent) : bool :=
  is_reddit (TimelineEvent.platform event)
  && truthy (obj_get (TimelineEvent.metadata event) "subreddit").

(** [coordinates.length >= 2]; a [length] that is not a number does not
    pass. *)
Definition length_at_least_2 (coordinates : JsVal) : bool :=
  match js_length coordinates with
  | Some n => 2 <=? n
  | None =>
      match get_prop coordinates "length" with
      | JNum q => Qle_bool 2 q
      | _ => false
      end
  end.

Section Analyzer.

Variable config : GeoAnalysisConfig.

(** [parseFloat] is the built-in; what number it reads is not modelled. *)
Variable parseFloat : JsVal → JsVal.

(** [this.config.minConfidence || 0.7]. *)
Definition effective_minConfidence : Q :=
  match minConfidence config with
  | Some q => if Qeq_bool q 0 then 7 # 10 else q
  | None => 7 # 10
  end.

Definition twitter_location (event : TimelineEvent) : M (option GeoLocation.t) :=
  let geo := obj_get (TimelineEvent.metadata event) "geo" in
  let coordinates := get_prop geo "coordinates" in
  if truthy coordinates && length_at_least_2 coordinates
  then ret (Some {| GeoLocation.lat := js_index coordinates 0;
                    GeoLocation.lng := js_index coordinates 1;
                    GeoLocation.name :=
                      Some (js_or (get_prop geo "place_name") (JStr "Twitter Location"));
                    GeoLocation.address := None;
                    GeoLocation.countryCode := None |})
  else
    let place := get_prop geo "place" in
    if truthy place && truthy (get_prop place "full_name")
    then lookupLocationByValue (get_prop place "full_name")
    else ret None.

Definition reddit_location (event : TimelineEvent) : M (option GeoLocation.t) :=
  match obj_get (TimelineEvent.metadata event) "subreddit" with
  | JStr s =>
      let subreddit := toLowerCase s in
      if negb (startsWith "r/" subreddit) then ret None
      else
        let locationName := substring_from 2 subreddit in
        ret (lookupLocationByName locationName)
  | _ => throw "TypeError: event.metadata.subreddit.toLowerCase is not a function"
  end.

Definition extractLocationFromMetadata (event : TimelineEvent)
  : M (option GeoLocation.t) :=
  let metadata := TimelineEvent.metadata event in
  if has_explicit_coordinates event
  then ret (Some {| GeoLocation.lat := parseFloat (obj_get metadata "lat");
                    GeoLocation.lng := parseFloat (obj_get metadata "lng");
                    GeoLocation.name :=
                      Some (js_or (obj_get metadata "locationName")
                                  (JStr "Unknown Location"));
                    GeoLocation.address := None;
                    GeoLocation.countryCode := None |})
  else
    do fromTwitter <-
      (if has_twitter_geo event then twitter_location event else ret None);
    match fromTwitter with
    | Some location => ret (Some location)
    | None =>
        if has_reddit_subreddit event then reddit_location event else ret None
    end.

(** [entity.metadata && entity.metadata.lat && entity.metadata.lng]. *)
Definition entity_has_coordinates (entity : Entity.t) : bool :=
  match Entity.metadata entity with
  | Some metadata => truthy (obj_get metadata "lat") && truthy (obj_get metadata "lng")
  | None => false
  end.

Definition is_location_entity (entity : Entity.t) : bool :=
  String.eqb (Entity.type entity) "location"
  && Qle_bool effective_minConfidence (Entity.confidence entity).

(** The callback of [reduce]. *)
Definition more_confident (prev current : Entity.t) : Entity.t :=
  if negb (Qle_bool (Entity.confidence current) (Entity.confidence prev))
  then current else prev.

Definition extractLocationFromEntities (event : TimelineEvent)
  : option GeoLocation.t :=
  match TimelineEvent.entities event with
  | None => None
  | Some entities =>
      let locationEntities := List.filter is_location_entity entities in
      match locationEntities with
      | [] => None
      | first :: rest =>
          let bestLocation := fold_left more_confident rest first in
          if entity_has_coordinates bestLocation
          then
            let metadata := default [] (Entity.metadata bestLocation) in
            Some {| GeoLocation.lat := obj_get metadata "lat";
                    GeoLocation.lng := obj_get metadata "lng";
                    GeoLocation.name := Some (JStr (Entity.text bestLocation));
                    GeoLocation.address := None;
                    GeoLocation.countryCode := None |}
          else lookupLocationByName (Entity.text bestLocation)
      end
  end.

(** The [for] loop over [words] that fills [potentialLocations]. *)
Fixpoint potential_from (words : list string) : list string :=
  match words with
  | [] => []
  | w :: rest =>
      let word := strip_punctuation w in
      if (String.length word <? 3)%nat then potential_from rest
      else
        (if is_capitalized word then [word] else [])
        ++ match rest with
           | next :: _ =>
               if is_capitalized word && is_capitalized next
               then [word +:+ " " +:+ next] else []
           | [] => []
           end
        ++ potential_from rest
  end.

Definition potentialLocations (content : string) : list string :=
  potential_from (split_ws content).

(** The first candidate found in the database. *)
Fixpoint first_known (candidates : list string) : option GeoLocation.t :=
  match candidates with
  | [] => None
  | loc :: rest =>
      match lookupLocationByName loc with
      | Some location => Some location
      | None => first_known rest
      end
  end.

Definition extractLocationFromContent (event : TimelineEvent)
  : option GeoLocation.t :=
  if String.eqb (TimelineEvent.content event) "" then None
  else first_known (potentialLocations (TimelineEvent.content event)).

(** The body of the loop of [enhanceEventsWithGeoData]. *)
Definition enhance (event : TimelineEvent) : M TimelineEvent :=
  let geoEnhancedEvent := event in
  match TimelineEvent.location geoEnhancedEvent with
  | Some _ => ret geoEnhancedEvent
  | None =>
      do metadataLocation <- extractLocationFromMetadata geoEnhancedEvent;
      match metadataLocation with
      | Some location => ret (TimelineEvent.with_location location geoEnhancedEvent)
      | None =>
          match extractLocationFromEntities geoEnhancedEvent with
          | Some location =>
              ret (TimelineEvent.with_location location geoEnhancedEvent)
          | None =>
              match extractLocationFromContent geoEnhancedEvent with
              | Some location =>
                  ret (TimelineEvent.with_location location geoEnhancedEvent)
              | None => ret geoEnhancedEvent
              end
          end
      end
  end.

Definition enhanceEventsWithGeoData (events : list TimelineEvent)
  : M (list TimelineEvent) :=
  if negb (enabled config) then ret events
  else mapM enhance events.

End Analyzer.
End GeoAnalyzer.

(* ===================================================================== *)
(** * The network analysis module *)
(* ===================================================================== *)

Module NetworkEdge.
Record t : Type :=
  { source : string; target : string; type : string;
    weight : Z; properties : Obj }.
End NetworkEdge.

Module NetworkAnalyzer.

(** The edge collection, [Map<string, NetworkEdge>]. *)
Definition Edges : Type := list (string * NetworkEdge.t).

(** [`${sortedSource}|${type}|${sortedTarget}`] after
    [[source, target].sort()]. *)
Definition edgeId (source target type : string) : string :=
  let '(sortedSource, sortedTarget) := sort_pair source target in
  sortedSource +:+ "|" +:+ type +:+ "|" +:+ sortedTarget.

(** The callback run on every entry of [properties] when an edge exists. *)
Definition merge_property (edge_properties : Obj) (entry : string * JsVal) : Obj :=
  let '(key, value) := entry in
  match obj_get edge_properties key with
  | JArr items => obj_set edge_properties key (JArr (items ++ [value]))
  | JUndefined => obj_set edge_properties key value
  | existing => obj_set edge_properties key (JArr [existing; value])
  end.

Definition addOrUpdateEdge (edges : Edges) (source target type : string)
    (weight : Z) (properties : Obj) : Edges :=
  let edgeId := edgeId source target type in
  match JsMap.get edges edgeId with
  | Some edge =>
      JsMap.set edges edgeId
        {| NetworkEdge.source := NetworkEdge.source edge;
           NetworkEdge.target := NetworkEdge.target edge;
           NetworkEdge.type := NetworkEdge.type edge;
           NetworkEdge.weight := NetworkEdge.weight edge + weight;
           NetworkEdge.properties :=
             fold_left merge_property properties (NetworkEdge.properties edge) |}
  | None =>
      JsMap.set edges edgeId
        {| NetworkEdge.source := source;
           NetworkEdge.target := target;
           NetworkEdge.type := type;
           NetworkEdge.weight := weight;
           NetworkEdge.properties := properties |}
  end.

(** [`entity:${entity.type}:${entity.text}`]. *)
Definition entity_id (entity : Entity.t) : string :=
  "entity:" +:+ Entity.type entity +:+ ":" +:+ Entity.text entity.

(** The first loop of [processEntityCooccurrences]: the set of entity ids
    of every event that has more than one. *)
Definition entity_set (entities : list Entity.t) : list string :=
  fold_left (λ entitySet entity,
               if Qle_bool (6 # 10) (Entity.confidence entity)
               then JsMap.add entitySet (entity_id entity)
               else entitySet)
            entities [].

Definition collect_entity_sets (events : list TimelineEvent)
  : list (string * list string) :=
  fold_left (λ eventEntityMap event,
               match TimelineEvent.entities event with
               | None | Some [] => eventEntityMap
               | Some entities =>
                   let entitySet := entity_set entities in
                   if (1 <? length entitySet)%nat
                   then JsMap.set eventEntityMap (TimelineEvent.id event) entitySet
                   else eventEntityMap
               end)
            events [].

(** The index pairs [i < j] of the two nested loops, in their order. *)
Fixpoint pairs (entityIds : list string) : list (string * string) :=
  match entityIds with
  | [] => []
  | x :: rest => map (λ y, (x, y)) rest ++ pairs rest
  end.

Definition processEntityCooccurrences (events : list TimelineEvent) (edges : Edges)
  : Edges :=
  let eventEntityMap := collect_entity_sets events in
  fold_left
    (λ edges entry,
       let '(eventId, entitySet) := entry in
       fold_left (λ edges pair,
                    addOrUpdateEdge edges (fst pair) (snd pair) "cooccurs_with" 1
                      [("eventId", JStr eventId)])
                 (pairs entitySet) edges)
    eventEntityMap edges.

(** ** Sequences of discoveries *)

(** One call of [addOrUpdateEdge]. Every edge of the graph comes from such
    a call on a collection that starts empty. *)
Record Discovery : Type :=
  { d_source : string; d_target : string; d_type : string;
    d_weight : Z; d_properties : Obj }.

Definition discover (edges : Edges) (d : Discovery) : Edges :=
  addOrUpdateEdge edges (d_source d) (d_target d) (d_type d)
    (d_weight d) (d_properties d).

Definition discover_all (ds : list Discovery) : Edges := fold_left discover ds [].

Definition discovery_key (d : Discovery) : string :=
  edgeId (d_source d) (d_target d) (d_type d).

(** The weights discovered under a key, added up. *)
Definition discovered_weight (ds : list Discovery) (k : string) : Z :=
  foldr Z.add 0 (map d_weight (filter (λ d, discovery_key d = k) ds)).

(** A value that is neither [undefined] nor an array. *)
Definition is_scalar (v : JsVal) : bool :=
  match v with
  | JUndefined | JArr _ => false
  | _ => true
  end.

End NetworkAnalyzer.

(* ===================================================================== *)
(** * [timeline-processor.ts]: statistics and grouping *)
(* ===================================================================== *)

#[global] Instance EventCategory_eq_dec : EqDecision EventCategory.
Proof. solve_decision. Defined.

Definition category_name (c : EventCategory) : string :=
  match c with
  | post => "post" | comment => "comment" | share => "share"
  | reaction => "reaction"
  | code_commit => "code_commit" | code_create => "code_create"
  | code_push => "code_push" | code_pr => "code_pr"
  | blog_post => "blog_post" | article => "article"
  | paste => "paste" | snippet => "snippet"
  | other => "other"
  end.

Module TimelineQueries.

(** [counts[k] = (counts[k] || 0) + 1] on a [Record<string, number>]. *)
Definition count_up (counts : list (string * Z)) (k : string) : list (string * Z) :=
  JsMap.set counts k (default 0 (JsMap.get counts k) + 1).

(** [events.reduce((counts, event) => ..., {})]. *)
Definition count_by (key : TimelineEvent -> string) (events : list TimelineEvent)
  : list (string * Z) :=
  fold_left (fun counts event => count_up counts (key event)) events [].

(** The sum of the counts of a histogram. *)
Definition total (counts : list (string * Z)) : Z := foldr Z.add 0 (map snd counts).

Module Stats.
Record t : Type :=
  { totalEvents : nat;
    platformCounts : list (string * Z);
    dateRange_start : option DateTime;
    dateRange_end : option DateTime;
    categoryCounts : list (string * Z) }.
End Stats.

Definition getStats (events : list TimelineEvent) : Stats.t :=
  {| Stats.totalEvents := length events;
     Stats.platformCounts :=
       count_by (fun event => platform_name (TimelineEvent.platform event)) events;
     Stats.dateRange_start := TimelineEvent.timestamp <$> last events;
     Stats.dateRange_end := TimelineEvent.timestamp <$> head events;
     Stats.categoryCounts :=
       count_by (fun event => category_name (TimelineEvent.category event)) events |}.

(** [d.toISODate()] prints the calendar day of the wall-clock reading
    ("2024-03-01"); the string is represented by the number of that day,
    counted from 1970-01-01. *)
Definition toISODate (d : DateTime) : Z := localMillis d / 86400000.

(** [d.startOf('day')]. *)
Definition startOf_day (d : DateTime) : DateTime :=
  {| ts := ts d - localMillis d mod 86400000; zone := zone d |}.

Module DateGroup.
Record t : Type := { date : DateTime; events : list TimelineEvent }.
End DateGroup.

(** [GroupedTimelineEvents]: an object whose keys are the date strings, in
    the order they were first written. *)
Definition GroupedTimelineEvents : Type := list (Z * DateGroup.t).

Fixpoint group_get (grouped : GroupedTimelineEvents) (dateKey : Z)
  : option DateGroup.t :=
  match grouped with
  | [] => None
  | (k, g) :: rest => if k =? dateKey then Some g else group_get rest dateKey
  end.

(** [grouped[dateKey].events.push(event)] on the group that exists. *)
Fixpoint group_push (grouped : GroupedTimelineEvents) (dateKey : Z)
    (event : TimelineEvent) : GroupedTimelineEvents :=
  match grouped with
  | [] => []
  | (k, g) :: rest =>
      if k =? dateKey
      then (k, {| DateGroup.date := DateGroup.date g;
                  DateGroup.events := DateGroup.events g ++ [event] |}) :: rest
      else (k, g) :: group_push rest dateKey event
  end.

(** One turn of the loop of [groupEventsByDate]. *)
Definition group_event (grouped : GroupedTimelineEvents) (event : TimelineEvent)
  : GroupedTimelineEvents :=
  let dateKey := toISODate (TimelineEvent.timestamp event) in
  let grouped :=
    match group_get grouped dateKey with
    | None =>
        grouped ++ [(dateKey,
                     {| DateGroup.date := startOf_day (TimelineEvent.timestamp event);
                        DateGroup.events := [] |})]
    | Some _ => grouped
    end in
  group_push grouped dateKey event.

Definition groupEventsByDate (events : list TimelineEvent) : GroupedTimelineEvents :=
  fold_left group_event events [].

(** The events of [events] that fall on the day [k], as a group: the
    notion used to state what [groupEventsByDate] holds under a key. *)
Definition group_of (k : Z) (events : list TimelineEvent) : option DateGroup.t :=
  match filter (fun e => toISODate (TimelineEvent.timestamp e) = k) events with
  | [] => None
  | first :: rest =>
      Some {| DateGroup.date := startOf_day (TimelineEvent.timestamp first);
              DateGroup.events := first :: rest |}
  end.

(** The value [simpleHash] would have on unbounded integers:
    [hash * 31 + char] for every code unit. *)
Fixpoint poly31_from (hash : Z) (str : string) : Z :=
  match str with
  | EmptyString => hash
  | String c str' => poly31_from (hash * 31 + code c) str'
  end.

End TimelineQueries.

(* ===================================================================== *)
(** * The enhanced NLP module: topics and language *)
(* ===================================================================== *)

Module NLPHeuristics.
Import NLPProcessor.

(** [re.test(s)] for a regular expression that is one character class. *)
Fixpoint test_class (cls : ascii -> bool) (s : string) : bool :=
  match s with
  | EmptyString => false
  | String c s' => cls c || test_class cls s'
  end.

(** A character class given by the code units it lists. *)
Definition one_of (codes : list Z) (c : ascii) : bool :=
  existsb (Z.eqb (code c)) codes.

(** The classes of [detectLanguage]: the accented letters are listed by
    their code units. *)
Definition kana (c : ascii) : bool := between 12352 12447 c || between 12448 12543 c.
Definition cyrillic (c : ascii) : bool := between 1024 1279 c.
Definition han (c : ascii) : bool := between 19968 40959 c.
Definition arabic (c : ascii) : bool := between 1536 1791 c.
Definition spanish_marks : list Z := [225; 233; 237; 243; 250; 252; 241].
Definition french_marks : list Z := [224; 232; 233; 234; 235; 239; 238; 244; 249; 231].
Definition german_marks : list Z := [228; 246; 252; 223].

Definition detectLanguage (text : string) : string :=
  let characters := toLowerCase text in
  if test_class kana characters then "ja"
  else if test_class cyrillic characters then "ru"
  else if test_class han characters then "zh"
  else if test_class arabic characters then "ar"
  else if test_class (one_of spanish_marks) characters then "es"
  else if test_class (one_of french_marks) characters then "fr"
  else if test_class (one_of german_marks) characters then "de"
  else "en".

Definition stopWords : list string :=
  ["the"; "and"; "that"; "have"; "for"; "not"; "with"; "you"; "this"; "but";
   "his"; "from"; "they"; "she"; "will"; "would"; "there"; "their"; "what";
   "about"; "which"; "when"; "make"; "like"; "time"; "just"; "know"; "take";
   "into"; "year"; "your"; "some"; "could"; "them"; "see"; "other"; "than";
   "then"; "now"; "look"; "only"; "come"; "over"; "think"; "also"; "back";
   "after"; "use"; "two"; "how"; "our"; "work"; "first"; "well"; "way"].

Definition isStopWord (word : string) : bool := includes stopWords word.

(** [xs.slice(0, n)] for an integer [n]: a negative [n] counts from the
    end. *)
Definition slice_to {A} (n : Z) (xs : list A) : list A :=
  take (Z.to_nat (if n <? 0 then Z.max (Z.of_nat (length xs) + n) 0 else n)) xs.

(** The tokens [modelTopics] counts. *)
Definition topic_tokens (text : string) : list string :=
  List.filter (fun word => negb (isStopWord word))
    (List.filter (fun word => (3 <? String.length word)%nat)
       (split_ws (strip_punctuation (toLowerCase text)))).

(** The [Map] of word counts, in the order the words first occur. *)
Definition wordCounts (tokens : list string) : list (string * Z) :=
  fold_left TimelineQueries.count_up tokens [].

Definition modelTopics (config : NLPConfig) (text : string) : list string :=
  let tokens := topic_tokens text in
  let sortedWords :=
    map fst
      (slice_to (if topicModeling_numTopics config =? 0 then 5
                 else topicModeling_numTopics config)
         (Js.sort (fun a b => snd b - snd a) (wordCounts tokens))) in
  sortedWords.

(** The fields [processEvents] never writes. *)
Definition source_fields (event : TimelineEvent)
  : string * Platform * EventCategory * DateTime * string * string * string
    * string * string * option GeoLocation.t * option (list JsVal)
    * option Obj * option (list Relation.t) * Obj :=
  (TimelineEvent.id event, TimelineEvent.platform event,
   TimelineEvent.category event, TimelineEvent.timestamp event,
   TimelineEvent.originalTimestamp event, TimelineEvent.title event,
   TimelineEvent.content event, TimelineEvent.url event,
   TimelineEvent.username event, TimelineEvent.location event,
   TimelineEvent.media event, TimelineEvent.metrics event,
   TimelineEvent.relations event, TimelineEvent.metadata event).

(** The whole module with its own helpers; [extractEntities] stays a
    parameter. *)
Definition processEvents (config : NLPConfig)
    (extractEntities : string -> list Entity.t) (events : list TimelineEvent)
  : list TimelineEvent :=
  NLPProcessor.processEvents config detectLanguage extractEntities
    (modelTopics config) events.

End NLPHeuristics.


(* ===================================================================== *)
(** * The geospatial analysis module: bounding box *)
(* ===================================================================== *)

Module GeoQueries.

(** A number or [NaN] ([None]). *)
Definition Num : Type := option Q.

(** [Math.max] and [Math.min] on two numbers: [NaN] when either is. *)
Definition lift2 (op : Q -> Q -> Q) (a b : Num) : Num :=
  match a, b with
  | Some x, Some y => Some (op x y)
  | _, _ => None
  end.

Definition Math_max : Num -> Num -> Num := lift2 Qmax.
Definition Math_min : Num -> Num -> Num := lift2 Qmin.

Record GeoBoundingBox : Type :=
  { north : Num; south : Num; east : Num; west : Num }.

Section BoundingBox.

(** [ToNumber], which [Math.max] and [Math.min] apply to their arguments;
    what number it reads from a value is not modelled. *)
Variable toNumber : JsVal -> Num.

(** [events.filter(event => event.location)], read through [.location!]. *)
Definition located (events : list TimelineEvent) : list GeoLocation.t :=
  omap TimelineEvent.location events.

(** One turn of the loop. *)
Definition expand (box : GeoBoundingBox) (loc : GeoLocation.t) : GeoBoundingBox :=
  {| north := Math_max (north box) (toNumber (GeoLocation.lat loc));
     south := Math_min (south box) (toNumber (GeoLocation.lat loc));
     east := Math_max (east box) (toNumber (GeoLocation.lng loc));
     west := Math_min (west box) (toNumber (GeoLocation.lng loc)) |}.

(** The four sides start at the first location; the loop then visits
    every location, the first one included, so each side is read
    through [ToNumber] from the first turn on. *)
Definition getBoundingBox (events : list TimelineEvent) : option GeoBoundingBox :=
  match located events with
  | [] => None
  | firstLoc :: _ =>
      Some (fold_left expand (located events)
              {| north := toNumber (GeoLocation.lat firstLoc);
                 south := toNumber (GeoLocation.lat firstLoc);
                 east := toNumber (GeoLocation.lng firstLoc);
                 west := toNumber (GeoLocation.lng firstLoc) |})
  end.

End BoundingBox.
End GeoQueries.


(* ===================================================================== *)
(** * The network analysis module: the graph *)
(* ===================================================================== *)

Module NetworkNode.
Record t : Type :=
  { id : string; type : string; label : string;
    properties : Obj; weight : Z }.
End NetworkNode.

Module NetworkGraph.

(** [communities.entities] is a plain object keyed by entity type; the
    order of its keys is not represented. *)
Record Communities : Type :=
  { users : list string;
    events : list string;
    entities : gmap string (list string) }.

Record Stats : Type :=
  { nodeCount : Z; edgeCount : Z; density : Q; communities : Communities }.

Record t : Type :=
  { nodes : list NetworkNode.t; edges : list NetworkEdge.t; stats : Stats }.

End NetworkGraph.

Module NetworkBuilder.
Import NetworkAnalyzer.

(** The configuration the constructor leaves in [this.config]. *)
Record NetworkConfig : Type :=
  { enabled : bool;
    relationTypes : option (list string);
    minEdgeWeight : option Q;
    communityDetection : option string }.

(** The constructor's defaults. *)
Definition default_config : NetworkConfig :=
  {| enabled := true;
     relationTypes := Some ["mention"; "reply"; "quote"; "cooccurrence"];
     minEdgeWeight := Some 1%Q;
     communityDetection := Some "louvain" |}.

(** The node collection, [Map<string, NetworkNode>]. *)
Definition Nodes : Type := list (string * NetworkNode.t).

(** [nodes.get(id)!.weight += 1]. *)
Definition bump (nodes : Nodes) (id : string) : Nodes :=
  match JsMap.get nodes id with
  | Some node =>
      JsMap.set nodes id
        {| NetworkNode.id := NetworkNode.id node;
           NetworkNode.type := NetworkNode.type node;
           NetworkNode.label := NetworkNode.label node;
           NetworkNode.properties := NetworkNode.properties node;
           NetworkNode.weight := NetworkNode.weight node + 1 |}
  | None => nodes
  end.

(** [if (!nodes.has(id)) nodes.set(id, node); else nodes.get(id)!.weight += 1]. *)
Definition add_or_bump (nodes : Nodes) (node : NetworkNode.t) : Nodes :=
  if negb (JsMap.has nodes (NetworkNode.id node))
  then JsMap.set nodes (NetworkNode.id node) node
  else bump nodes (NetworkNode.id node).

(** [if (!nodes.has(id)) nodes.set(id, node)]. *)
Definition add_if_absent (nodes : Nodes) (node : NetworkNode.t) : Nodes :=
  if negb (JsMap.has nodes (NetworkNode.id node))
  then JsMap.set nodes (NetworkNode.id node) node
  else nodes.

Definition user_node (name : string) (platform : Platform) : NetworkNode.t :=
  {| NetworkNode.id := "user:" +:+ name;
     NetworkNode.type := "user";
     NetworkNode.label := name;
     NetworkNode.properties := [("platform", JStr (platform_name platform))];
     NetworkNode.weight := 1 |}.

(** [content.matchAll(/\B(@[a-zA-Z0-9_]+)\b/g)], and the same with [#]:
    a tag is the sigil, not preceded by a word character, followed by
    the longest run of word characters, which must not be empty. [cur] is
    the candidate being read, sigil included; [prev_word] tells that the
    previous character was a word character. *)
Fixpoint scan_tags (sigil : ascii) (cur : option string) (prev_word : bool)
    (s : string) : list string :=
  let emit (t : string) := if (1 <? String.length t)%nat then [t] else [] in
  match s with
  | EmptyString =>
      match cur with
      | Some t => emit t
      | None => []
      end
  | String c s' =>
      match cur with
      | Some t =>
          if is_word c then scan_tags sigil (Some (t +:+ String c "")) true s'
          else
            emit t
            ++ (if Ascii.eqb c sigil && negb (1 <? String.length t)%nat
                then scan_tags sigil (Some (String c "")) false s'
                else scan_tags sigil None false s')
      | None =>
          if Ascii.eqb c sigil && negb prev_word
          then scan_tags sigil (Some (String c "")) false s'
          else scan_tags sigil None (is_word c) s'
      end
  end.

Definition mentions (content : string) : list string :=
  scan_tags "@"%char None false content.

Definition hashtags (content : string) : list string :=
  scan_tags "#"%char None false content.

Definition mapRelationType (relationType : string) : string :=
  if String.eqb relationType "reply_to" then "reply"
  else if String.eqb relationType "quote" then "quote"
  else if String.eqb relationType "reference" then "mention"
  else if String.eqb relationType "thread" then "reply"
  else "other".

Definition calculateNetworkDensity (nodeCount edgeCount : Z) : Q :=
  if nodeCount <=? 1 then 0%Q
  else (inject_Z (2 * edgeCount) / inject_Z (nodeCount * (nodeCount - 1)))%Q.

(** The names every plain object inherits from [Object.prototype]. *)
Definition inherited_names : list string :=
  ["constructor"; "__proto__"; "hasOwnProperty"; "isPrototypeOf";
   "propertyIsEnumerable"; "toLocaleString"; "toString"; "valueOf";
   "__defineGetter__"; "__defineSetter__"; "__lookupGetter__";
   "__lookupSetter__"].

(** The callback of [unsafe.replace]: the five characters of the class
    (less-than, greater-than, ampersand, apostrophe, double quote) are
    replaced by their entities. *)
Definition escape_char (c : ascii) : string :=
  if Ascii.eqb c "<" then "&lt;"
  else if Ascii.eqb c ">" then "&gt;"
  else if Ascii.eqb c "&" then "&amp;"
  else if Ascii.eqb c "'" then "&apos;"
  else if Ascii.eqb c (ascii_of_nat 34) then "&quot;"
  else String c "".

Fixpoint escapeXml (unsafe : string) : string :=
  match unsafe with
  | EmptyString => EmptyString
  | String c rest => escape_char c +:+ escapeXml rest
  end.

Section Builder.

Variable config : NetworkConfig.

(** [d.toISO()] as the text luxon prints. *)
Variable isoText : DateTime -> string.

(** [ToPropertyKey] on a value that is not a string; not modelled. *)
Variable propertyKey : JsVal -> string.

Definition State : Type := (Nodes * Edges)%type.

Definition eventId (event : TimelineEvent) : string :=
  "event:" +:+ TimelineEvent.id event.

Definition userId (event : TimelineEvent) : string :=
  "user:" +:+ TimelineEvent.username event.

Definition timestamp_property (event : TimelineEvent) : string * JsVal :=
  ("timestamp", JStr (isoText (TimelineEvent.timestamp event))).

(** The body of the loop of [processEntities]. *)
Definition process_entity (event : TimelineEvent) (st : State) (entity : Entity.t)
  : State :=
  let '(nodes, edges) := st in
  if negb (Qle_bool (6 # 10) (Entity.confidence entity)) then st
  else
    let entityId := entity_id entity in
    let nodes :=
      add_or_bump nodes
        {| NetworkNode.id := entityId;
           NetworkNode.type := "entity";
           NetworkNode.label := Entity.text entity;
           NetworkNode.properties :=
             [("type", JStr (Entity.type entity));
              ("metadata", JObj (default [] (Entity.metadata entity)))];
           NetworkNode.weight := 1 |} in
    let edges :=
      addOrUpdateEdge edges (eventId event) entityId "contains" 1
        [("confidence", JNum (Entity.confidence entity))] in
    let edges :=
      addOrUpdateEdge edges (userId event) entityId "mentioned" 1
        [timestamp_property event] in
    if String.eqb (Entity.type entity) "mention"
    then
      let mentionedUser :=
        if startsWith "@" (Entity.text entity)
        then substring_from 1 (Entity.text entity)
        else Entity.text entity in
      let mentionedUserId := "user:" +:+ mentionedUser in
      let nodes :=
        add_if_absent nodes (user_node mentionedUser (TimelineEvent.platform event)) in
      let edges :=
        addOrUpdateEdge edges (userId event) mentionedUserId "mentioned" 1
          [timestamp_property event; ("eventId", JStr (TimelineEvent.id event))] in
      (nodes, edges)
    else (nodes, edges).

Definition processEntities (event : TimelineEvent) (st : State) : State :=
  match TimelineEvent.entities event with
  | None => st
  | Some entities => fold_left (process_entity event) entities st
  end.

(** [this.config.relationTypes?.includes(t)], [undefined] being falsy. *)
Definition relation_enabled (t : string) : bool :=
  match relationTypes config with
  | Some types => includes types t
  | None => false
  end.

Definition process_relation (event : TimelineEvent) (st : State)
    (relation : Relation.t) : State :=
  let '(nodes, edges) := st in
  let relationType := mapRelationType (Relation.type relation) in
  if negb (relation_enabled relationType) then st
  else
    let targetEventId := "event:" +:+ Relation.targetId relation in
    (nodes,
     addOrUpdateEdge edges (eventId event) targetEventId (Relation.type relation) 1
       [("context", JStr (default "" (Relation.context relation)))]).

Definition processRelations (event : TimelineEvent) (st : State) : State :=
  match TimelineEvent.relations event with
  | None => st
  | Some relations => fold_left (process_relation event) relations st
  end.

Definition process_mention (event : TimelineEvent) (st : State) (tag : string)
  : State :=
  let '(nodes, edges) := st in
  let mentionedUser := substring_from 1 tag in
  let mentionedUserId := "user:" +:+ mentionedUser in
  let nodes :=
    add_if_absent nodes (user_node mentionedUser (TimelineEvent.platform event)) in
  let edges :=
    addOrUpdateEdge edges (eventId event) mentionedUserId "mentions" 1
      [timestamp_property event] in
  let edges :=
    addOrUpdateEdge edges (userId event) mentionedUserId "mentioned" 1
      [timestamp_property event; ("eventId", JStr (TimelineEvent.id event))] in
  (nodes, edges).

Definition process_hashtag (event : TimelineEvent) (st : State) (hashtag : string)
  : State :=
  let '(nodes, edges) := st in
  let hashtagId := "entity:hashtag:" +:+ hashtag in
  let nodes :=
    add_or_bump nodes
      {| NetworkNode.id := hashtagId;
         NetworkNode.type := "entity";
         NetworkNode.label := hashtag;
         NetworkNode.properties := [("type", JStr "hashtag")];
         NetworkNode.weight := 1 |} in
  let edges :=
    addOrUpdateEdge edges (eventId event) hashtagId "contains" 1
      [timestamp_property event] in
  let edges :=
    addOrUpdateEdge edges (userId event) hashtagId "used" 1
      [timestamp_property event] in
  (nodes, edges).

Definition processMentionsInContent (event : TimelineEvent) (st : State) : State :=
  let st := fold_left (process_mention event)
                      (mentions (TimelineEvent.content event)) st in
  fold_left (process_hashtag event) (hashtags (TimelineEvent.content event)) st.

(** [event.entities && event.entities.length > 0]. *)
Definition has_entities (event : TimelineEvent) : bool :=
  match TimelineEvent.entities event with
  | Some (_ :: _) => true
  | _ => false
  end.

Definition has_relations (event : TimelineEvent) : bool :=
  match TimelineEvent.relations event with
  | Some (_ :: _) => true
  | _ => false
  end.

(** The body of the loop of [processEventsForNetwork]. *)
Definition process_event (st : State) (event : TimelineEvent) : State :=
  let '(nodes, edges) := st in
  let nodes :=
    add_or_bump nodes
      (user_node (TimelineEvent.username event) (TimelineEvent.platform event)) in
  let nodes :=
    JsMap.set nodes (eventId event)
      {| NetworkNode.id := eventId event;
         NetworkNode.type := "event";
         NetworkNode.label := TimelineEvent.title event;
         NetworkNode.properties :=
           [("platform", JStr (platform_name (TimelineEvent.platform event)));
            ("category", JStr (category_name (TimelineEvent.category event)));
            timestamp_property event;
            ("url", JStr (TimelineEvent.url event))];
         NetworkNode.weight := 1 |} in
  let edges :=
    addOrUpdateEdge edges (userId event) (eventId event) "created" 1
      [timestamp_property event] in
  let st := (nodes, edges) in
  let st := if has_entities event then processEntities event st else st in
  let st := if has_relations event then processRelations event st else st in
  let st :=
    if negb (has_entities event)
       && negb (String.eqb (TimelineEvent.content event) "")
    then processMentionsInContent event st else st in
  st.

Definition processEventsForNetwork (events : list TimelineEvent) (st : State)
  : State :=
  let '(nodes, edges) := fold_left process_event events st in
  if relation_enabled "cooccurrence"
  then (nodes, processEntityCooccurrences events edges)
  else (nodes, edges).

(** [node.properties.type || 'other'], used as a property name. *)
Definition entityType (node : NetworkNode.t) : string :=
  match js_or (obj_get (NetworkNode.properties node) "type") (JStr "other") with
  | JStr s => s
  | v => propertyKey v
  end.

(** One turn of the loop of [detectCommunities]. Under a name inherited
    from [Object.prototype] the object holds something that is no array
    and has no [push]. *)
Definition classify (communities : NetworkGraph.Communities)
    (entry : string * NetworkNode.t) : result NetworkGraph.Communities :=
  let '(id, node) := entry in
  let users := NetworkGraph.users communities in
  let events := NetworkGraph.events communities in
  let entities := NetworkGraph.entities communities in
  if String.eqb (NetworkNode.type node) "user"
  then Ok {| NetworkGraph.users := users ++ [id];
             NetworkGraph.events := events;
             NetworkGraph.entities := entities |}
  else if String.eqb (NetworkNode.type node) "event"
  then Ok {| NetworkGraph.users := users;
             NetworkGraph.events := events ++ [id];
             NetworkGraph.entities := entities |}
  else if String.eqb (NetworkNode.type node) "entity"
  then
    let entityType := entityType node in
    if includes inherited_names entityType
    then Throw "TypeError: communities.entities[entityType].push is not a function"
    else Ok {| NetworkGraph.users := users;
               NetworkGraph.events := events;
               NetworkGraph.entities :=
                 <[entityType := default [] (entities !! entityType) ++ [id]]> entities |}
  else Ok communities.

Fixpoint classify_all (communities : NetworkGraph.Communities) (nodes : Nodes)
  : result NetworkGraph.Communities :=
  match nodes with
  | [] => Ok communities
  | entry :: rest =>
      match classify communities entry with
      | Ok communities => classify_all communities rest
      | Throw error => Throw error
      end
  end.

Definition detectCommunities (nodes : Nodes) (edges : list NetworkEdge.t)
  : result NetworkGraph.Communities :=
  classify_all {| NetworkGraph.users := [];
                  NetworkGraph.events := [];
                  NetworkGraph.entities := ∅ |} nodes.

(** [this.config.minEdgeWeight || 1]. *)
Definition effective_minEdgeWeight : Q :=
  match minEdgeWeight config with
  | Some q => if Qeq_bool q 0 then 1%Q else q
  | None => 1%Q
  end.

Definition buildNetworkGraph (events : list TimelineEvent) : result NetworkGraph.t :=
  if negb (enabled config)
  then Ok {| NetworkGraph.nodes := [];
             NetworkGraph.edges := [];
             NetworkGraph.stats :=
               {| NetworkGraph.nodeCount := 0;
                  NetworkGraph.edgeCount := 0;
                  NetworkGraph.density := 0;
                  NetworkGraph.communities :=
                    {| NetworkGraph.users := [];
                       NetworkGraph.events := [];
                       NetworkGraph.entities := ∅ |} |} |}
  else
    let '(nodes, edges) := processEventsForNetwork events ([], []) in
    let filteredEdges :=
      List.filter (fun edge => Qle_bool effective_minEdgeWeight
                                 (inject_Z (NetworkEdge.weight edge)))
                  (map snd edges) in
    match detectCommunities nodes filteredEdges with
    | Throw error => Throw error
    | Ok communities =>
        Ok {| NetworkGraph.nodes := map snd nodes;
              NetworkGraph.edges := filteredEdges;
              NetworkGraph.stats :=
                {| NetworkGraph.nodeCount := Z.of_nat (length nodes);
                   NetworkGraph.edgeCount := Z.of_nat (length filteredEdges);
                   NetworkGraph.density :=
                     calculateNetworkDensity (Z.of_nat (length nodes))
                       (Z.of_nat (length filteredEdges));
                   NetworkGraph.communities := communities |} |}
    end.

End Builder.
End NetworkBuilder.


(* ===================================================================== *)
(** * The merge order worded by the specification *)
(* ===================================================================== *)

Module Spec.

(** "Ascending by timestamp; ties broken by (platform, id) lexicographic
    order": [a] may stand before [b]. *)
Definition merge_order_leb (a b : TimelineEvent) : bool :=
  let ta := toMillis (TimelineEvent.timestamp a) in
  let tb := toMillis (TimelineEvent.timestamp b) in
  let pa := platform_name (TimelineEvent.platform a) in
  let pb := platform_name (TimelineEvent.platform b) in
  (ta <? tb)
  || ((ta =? tb)
      && (String.ltb pa pb
          || (String.eqb pa pb
              && String.leb (TimelineEvent.id a) (TimelineEvent.id b)))).

End Spec.

(* ===================================================================== *)
(** * Notions used to state the properties of a run *)
(* ===================================================================== *)

Module Run.
Section Run.

Variable config : TimelineConfig.t.
Variable platformConfigs : PlatformConfigs.t.
Variable ingesters : Ingesters.

(** An event re-expressed in the target zone. *)
Definition rezone (event : TimelineEvent) : TimelineEvent :=
  TimelineEvent.with_timestamp
    (setZone (TimelineConfig.timezone config) (TimelineEvent.timestamp event))
    event.

(** What the adapter of a platform delivered: the events [ingest]
    returned, nothing when the credential check or [ingest] threw. *)
Definition delivered (platform : Platform) : list TimelineEvent :=
  match outcome (TimelineProcessor.select_ingester platformConfigs ingesters platform) with
  | Ok ingester =>
      match outcome (ingest ingester (TimelineConfig.target config)
                            (TimelineConfig.dateRange config)) with
      | Ok events => events
      | Throw _ => []
      end
  | Throw _ => []
  end.

(** The (platform, error) pairs of the adapters that failed. *)
Definition failures : list (Platform * string) :=
  flat_map
    (λ platform,
       match outcome (TimelineProcessor.processEvents config platformConfigs
                        ingesters platform) with
       | Ok _ => []
       | Throw error => [(platform, error)]
       end)
    (TimelineConfig.platforms config).

(** The line printed for a failed adapter. *)
Definition failure_line (failure : Platform * string) : LogLine :=
  ConsoleError ("Failed to process " +:+ platform_name (fst failure)
                +:+ ": " +:+ snd failure).

End Run.
End Run.

(* ===================================================================== *)
(** * Sample data *)
(* ===================================================================== *)

Module Samples.

Definition utc : Zone :=
  {| zoneName := "UTC"; offsetMinutes := 0; isUniversal := true |}.
Definition cet : Zone :=
  {| zoneName := "Europe/Paris"; offsetMinutes := 60; isUniversal := false |}.

(** An event as an adapter returns it: enrichment fields left empty. *)
Definition raw_event (id : string) (platform : Platform) (category : EventCategory)
    (millis : Z) (zone : Zone) (content : string) : TimelineEvent :=
  {| TimelineEvent.id := id;
     TimelineEvent.platform := platform;
     TimelineEvent.category := category;
     TimelineEvent.timestamp := {| ts := millis; zone := zone |};
     TimelineEvent.originalTimestamp := "";
     TimelineEvent.title := "";
     TimelineEvent.content := content;
     TimelineEvent.url := "";
     TimelineEvent.username := "octocat";
     TimelineEvent.location := None;
     TimelineEvent.media := None;
     TimelineEvent.entities := None;
     TimelineEvent.sentiment := None;
     TimelineEvent.metrics := None;
     TimelineEvent.relations := None;
     TimelineEvent.topics := None;
     TimelineEvent.language := None;
     TimelineEvent.metadata := [] |}.

(** 2024-01-01T10:00:10Z and four seconds later; one hour later; and one
    minute after the first. *)
Definition push1 : TimelineEvent :=
  raw_event "gh-1" github code_push 1704103210000 utc "Pushed 3 commits".
Definition push2 : TimelineEvent :=
  raw_event "gh-2" github code_push 1704103214000 utc "Pushed 3 commits".
Definition tweet : TimelineEvent :=
  raw_event "tw-1" twitter post 1704106800000 utc "Hello world".
Definition push3 : TimelineEvent :=
  raw_event "gh-3" github code_push 1704103270000 utc "  PUSHED 3 commits ".

(** Two events of the same instant. *)
Definition tie_a : TimelineEvent :=
  raw_event "a" github code_push 1704103210000 utc "first".
Definition tie_b : TimelineEvent :=
  raw_event "b" twitter post 1704103210000 utc "second".

End Samples.

(* ===================================================================== *)
(** * Sample runs *)
(* ===================================================================== *)

Module SampleRuns.
Import Samples.

Definition ingester_returning (events : list TimelineEvent) : Ingester :=
  {| testConnection := ret tt; ingest := λ _ _, ret events |}.

Definition failing_ingester (error : string) : Ingester :=
  {| testConnection := throw error; ingest := λ _ _, throw error |}.

(** GitHub answers with the two pushes, Twitter with the tweet; the other
    services answer with an error. *)
Definition ingesters : Ingesters :=
  {| TwitterIngester := λ _, ingester_returning [tweet];
     RedditIngester := λ _, failing_ingester "Error: 401 Unauthorized";
     GitHubIngester := λ _, ingester_returning [push1; push2];
     RSSIngester := λ _, failing_ingester "Error: ENOTFOUND";
     PastebinIngester := λ _, failing_ingester "Error: 403 Forbidden" |}.

Definition config (platforms : list Platform) : TimelineConfig.t :=
  {| TimelineConfig.target := "octocat";
     TimelineConfig.timezone := utc;
     TimelineConfig.dateRange := None;
     TimelineConfig.platforms := platforms;
     TimelineConfig.analysis := None |}.

Definition platformConfigs : PlatformConfigs.t :=
  {| PlatformConfigs.twitter := Some {| bearerToken := Some "token" |};
     PlatformConfigs.reddit :=
       Some {| clientId := Some "id"; clientSecret := Some "secret" |};
     PlatformConfigs.github := None;
     PlatformConfigs.rss := None;
     PlatformConfigs.pastebin := None |}.

Definition addDocument : TimelineEvent → result unit := λ _, Ok tt.
Definition analyse : list TimelineEvent → TimelineEvent → result JsVal :=
  λ _ _, Ok (JObj []).

(** The run of the scenario: platforms [github] and [twitter]. *)
Definition scenario : M (list TimelineEvent) :=
  TimelineProcessor.buildTimeline (config [github; twitter]) platformConfigs
    ingesters addDocument analyse.

(** The same run by the sequential revision. *)
Definition scenario_seq : M (list TimelineEvent) :=
  TimelineProcessorSeq.buildTimeline (config [github; twitter])
    {| PlatformConfigs.twitter := Some {| bearerToken := Some "token" |};
       PlatformConfigs.reddit := None;
       PlatformConfigs.github := Some {| token := None |};
       PlatformConfigs.rss := None;
       PlatformConfigs.pastebin := None |}
    ingesters.

End SampleRuns.

(* ===================================================================== *)
(** * The scenario of the specification *)
(* ===================================================================== *)

Module Scenario.

(** "Three raw events: two with platform github, identical content
    'Pushed 3 commits', timestamps 4 seconds apart in the same minute, and
    one with platform twitter and different content." *)
Definition input (g1 g2 tw : TimelineEvent) : Prop :=
  TimelineEvent.platform g1 = github
  ∧ TimelineEvent.platform g2 = github
  ∧ TimelineEvent.content g1 = "Pushed 3 commits"
  ∧ TimelineEvent.content g2 = "Pushed 3 commits"
  ∧ zone (TimelineEvent.timestamp g1) = zone (TimelineEvent.timestamp g2)
  ∧ millis g2 = millis g1 + 4000
  ∧ millis g1 / 60000 = millis g2 / 60000
  ∧ TimelineEvent.platform tw = twitter
  ∧ TimelineEvent.content tw ≠ "Pushed 3 commits".

(** GitHub delivers the pair, Twitter the third event. *)
Definition ingesters (g1 g2 tw : TimelineEvent) : Ingesters :=
  {| TwitterIngester := λ _, SampleRuns.ingester_returning [tw];
     RedditIngester := λ _, SampleRuns.failing_ingester "Error: 401 Unauthorized";
     GitHubIngester := λ _, SampleRuns.ingester_returning [g1; g2];
     RSSIngester := λ _, SampleRuns.failing_ingester "Error: ENOTFOUND";
     PastebinIngester := λ _, SampleRuns.failing_ingester "Error: 403 Forbidden" |}.

Definition config : TimelineConfig.t := SampleRuns.config [github; twitter].

Definition timeline (g1 g2 tw : TimelineEvent) : M (list TimelineEvent) :=
  TimelineProcessor.buildTimeline config SampleRuns.platformConfigs
    (ingesters g1 g2 tw) SampleRuns.addDocument SampleRuns.analyse.

(** Two runs in which GitHub delivers and one other adapter fails. *)
Definition reddit_down : M (list TimelineEvent) :=
  TimelineProcessor.buildTimeline (SampleRuns.config [github; reddit])
    SampleRuns.platformConfigs SampleRuns.ingesters
    SampleRuns.addDocument SampleRuns.analyse.

Definition rss_down : M (list TimelineEvent) :=
  TimelineProcessor.buildTimeline (SampleRuns.config [github; rss])
    SampleRuns.platformConfigs SampleRuns.ingesters
    SampleRuns.addDocument SampleRuns.analyse.

End Scenario.

(* ===================================================================== *)
(** * Sample configuration of the NLP module *)
(* ===================================================================== *)

Module NlpSamples.

(** Every stage switched on, as the constructor does by default. *)
Definition all_enabled : NLPProcessor.NLPConfig :=
  {| NLPProcessor.languageDetection_enabled := true;
     NLPProcessor.entityExtraction_enabled := true;
     NLPProcessor.entityExtraction_minConfidence := 6 # 10;
     NLPProcessor.sentimentAnalysis_enabled := true;
     NLPProcessor.topicModeling_enabled := true;
     NLPProcessor.topicModeling_numTopics := 5 |}.

Definition detectLanguage : string → string := λ _, "en".
Definition extractEntities : string → list Entity.t := λ _, [].
Definition modelTopics : string → list string := λ _, [].

(** An event whose content is two spaces and a tab. *)
Definition blank : TimelineEvent :=
  Samples.raw_event "rss-1" rss article 1704103210000 Samples.utc
    (String " " (String " " (String (ascii_of_nat 9) ""))).

End NlpSamples.

(* ===================================================================== *)
(** * Sample events for the geo tagger *)
(* ===================================================================== *)

Module GeoSamples.

(** The constructor's defaults. *)
Definition config : GeoAnalyzer.GeoAnalysisConfig :=
  {| GeoAnalyzer.enabled := true;
     GeoAnalyzer.minConfidence := Some (7 # 10);
     GeoAnalyzer.countryFilter := None;
     GeoAnalyzer.geocodingProvider := Some "default";
     GeoAnalyzer.geocodingApiKey := None |}.

Definition parseFloat : JsVal → JsVal := λ v, v.

(** A location entity that brings its own coordinates and whose name is
    not in the database. *)
Definition atlantis_entity : Entity.t :=
  {| Entity.text := "Atlantis";
     Entity.type := "location";
     Entity.confidence := 9 # 10;
     Entity.metadata := Some [("lat", JNum 1); ("lng", JNum 2)] |}.

Definition atlantis : TimelineEvent :=
  TimelineEvent.with_entities [atlantis_entity]
    (Samples.raw_event "rss-2" rss article 1704103210000 Samples.utc "").

Definition atlantis_location : GeoLocation.t :=
  {| GeoLocation.lat := JNum 1;
     GeoLocation.lng := JNum 2;
     GeoLocation.name := Some (JStr "Atlantis");
     GeoLocation.address := None;
     GeoLocation.countryCode := None |}.

(** Content that names a city of the database, and content that does not. *)
Definition from_paris : TimelineEvent :=
  Samples.raw_event "tw-2" twitter post 1704103210000 Samples.utc
    "Landed in Paris, finally!".

Definition paris : GeoLocation.t :=
  {| GeoLocation.lat := JNum (488566 # 10000);
     GeoLocation.lng := JNum (23522 # 10000);
     GeoLocation.name := Some (JStr "Paris");
     GeoLocation.address := None;
     GeoLocation.countryCode := Some "FR" |}.

Definition from_nowhere : TimelineEvent :=
  Samples.raw_event "tw-3" twitter post 1704103210000 Samples.utc
    "Hello World from Gotham City".

(** A Reddit post as the adapter builds it: the display name of its
    subreddit is in the metadata. *)
Definition reddit_plain : TimelineEvent :=
  TimelineEvent.with_metadata
    [("score", JNum 12); ("subreddit", JStr "programming")]
    (Samples.raw_event "rd-7" reddit post 1704103210000 Samples.utc
       "Thoughts on Rust traits").

End GeoSamples.

(* ===================================================================== *)
(** * Sample events for the network graph *)
(* ===================================================================== *)

Module NetSamples.

Definition acme : Entity.t :=
  {| Entity.text := "Acme"; Entity.type := "organization";
     Entity.confidence := 65 # 100; Entity.metadata := None |}.

Definition ada : Entity.t :=
  {| Entity.text := "Ada Lovelace"; Entity.type := "person";
     Entity.confidence := 7 # 10; Entity.metadata := None |}.

Definition first_event : TimelineEvent :=
  TimelineEvent.with_entities [acme; ada]
    (Samples.raw_event "e1" twitter post 1704103210000 Samples.utc
       "Acme hires Ada Lovelace").

Definition second_event : TimelineEvent :=
  TimelineEvent.with_entities [ada; acme]
    (Samples.raw_event "e2" rss article 1704106800000 Samples.utc
       "Ada Lovelace joins Acme").

End NetSamples.

(* ===================================================================== *)
(** * Part II: verified properties *)
(* ===================================================================== *)

(** ** The deduplicator *)

Section Dedup.
Import TimelineProcessor.

Implicit Types (seen : gset DedupKey) (events : list TimelineEvent).

(** A survivor's key was not in the set when the loop started. *)
Lemma deduplicate_from_fresh seen events e :
  e ∈ deduplicate_from seen events → dedupeKey e ∉ seen.
Proof.
  revert seen. induction events as [|x xs IH]; intros seen; simpl.
  - intros H. inversion H.
  - case_decide as Hx.
    + apply IH.
    + intros [->|Hin]%elem_of_cons; [done|].
      apply IH in Hin. set_solver.
Qed.

(** The keys that survive are the keys of the input not yet seen. *)
Lemma deduplicate_from_keys seen events k :
  k ∈ map dedupeKey (deduplicate_from seen events)
  ↔ k ∈ map dedupeKey events ∧ k ∉ seen.
Proof.
  revert seen. induction events as [|x xs IH]; intros seen; simpl.
  - split; [intros H; inversion H | intros [H _]; inversion H].
  - case_decide as Hx; simpl.
    + rewrite IH, elem_of_cons. split; [tauto|].
      intros [[->|?] ?]; [done|tauto].
    + rewrite !elem_of_cons, IH. split.
      * intros [->|[? ?]]; [tauto|]. split; [tauto|set_solver].
      * intros [[->|?] ?]; [tauto|].
        destruct (decide (k = dedupeKey x)); [tauto|]. right. set_solver.
Qed.

(** No key survives twice. *)
Lemma deduplicate_from_NoDup seen events :
  NoDup (map dedupeKey (deduplicate_from seen events)).
Proof.
  revert seen. induction events as [|x xs IH]; intros seen; simpl.
  - constructor.
  - case_decide as Hx; [apply IH|]. simpl. constructor; [|apply IH].
    rewrite deduplicate_from_keys. set_solver.
Qed.

(** A list whose keys are distinct and unseen goes through unchanged. *)
Lemma deduplicate_from_id seen events :
  NoDup (map dedupeKey events) →
  (∀ k, k ∈ map dedupeKey events → k ∉ seen) →
  deduplicate_from seen events = events.
Proof.
  revert seen. induction events as [|x xs IH]; intros seen Hnd Hfresh; simpl.
  - reflexivity.
  - simpl in Hnd. apply NoDup_cons in Hnd as [Hx Hnd].
    case_decide as Hin.
    + exfalso. apply (Hfresh (dedupeKey x)); [simpl; left|done].
    + f_equal. apply IH; [done|].
      intros k Hk. specialize (Hfresh k).
      assert (k ≠ dedupeKey x) by (intros ->; done).
      simpl in Hfresh. rewrite elem_of_cons in Hfresh. set_solver.
Qed.

(** The loop on two events. *)
Lemma deduplicate_pair (e1 e2 : TimelineEvent) :
  deduplicateEvents [e1; e2]
  = if decide (dedupeKey e1 = dedupeKey e2) then [e1] else [e1; e2].
Proof.
  unfold deduplicateEvents; cbn [deduplicate_from].
  generalize (dedupeKey e1) (dedupeKey e2). intros k1 k2.
  destruct (decide (k1 ∈ (∅ : gset DedupKey))) as [H|_]; [set_solver|].
  destruct (decide (k2 ∈ ({[k1]} ∪ ∅ : gset DedupKey))) as [Hin|Hout];
    case_decide; try done; set_solver.
Qed.

(** The minute bucket printed by [toISO] after [startOf('minute')]. *)
Lemma localMillis_startOf_minute d :
  localMillis (startOf_minute d) = 60000 * (ts d / 60000 + offsetMinutes (zone d)).
Proof.
  unfold localMillis, startOf_minute; simpl.
  unfold localMillis.
  set (o := offsetMinutes (zone d)).
  replace (ts d + 60000 * o) with (ts d + o * 60000) by lia.
  rewrite Z.mod_add by lia.
  pose proof (Z.div_mod (ts d) 60000 ltac:(lia)). lia.
Qed.

Lemma timeKey_same_minute d1 d2 :
  zone d1 = zone d2 →
  (toISO (startOf_minute d1) = toISO (startOf_minute d2)
   ↔ ts d1 / 60000 = ts d2 / 60000).
Proof.
  intros Hz. unfold toISO. rewrite !localMillis_startOf_minute.
  simpl. rewrite Hz. split.
  - intros [= H]. lia.
  - intros ->. reflexivity.
Qed.

End Dedup.

Section DedupProperties.
Import TimelineProcessor.

(** A key that does not occur selects nothing. *)
Lemma absent_key_filter_nil {A K} `{EqDecision K} (f : A → K) (l : list A) k :
  k ∉ map f l → filter (λ x, f x = k) l = [].
Proof.
  induction l as [|x xs IH]; simpl; intros Hk; [reflexivity|].
  apply not_elem_of_cons in Hk as [Hx Hk].
  rewrite filter_cons, decide_False by congruence. by apply IH.
Qed.

(** In a list whose keys are pairwise distinct, a key that occurs selects
    exactly one element. *)
Lemma NoDup_key_filter_length {A K} `{EqDecision K} (f : A → K) (l : list A) k :
  NoDup (map f l) → k ∈ map f l →
  length (filter (λ x, f x = k) l) = 1%nat.
Proof.
  induction l as [|x xs IH]; simpl; intros Hnd Hin.
  - inversion Hin.
  - apply NoDup_cons in Hnd as [Hx Hnd].
    rewrite filter_cons. case_decide as Hk.
    + subst k. rewrite absent_key_filter_nil by done. reflexivity.
    + apply IH; [done|]. apply elem_of_cons in Hin as [->|?]; done.
Qed.

(** C5. [deduplicateEvents] is idempotent: running it on its own output
    changes nothing. *)
Theorem deduplicateEvents_idempotent (events : list TimelineEvent) :
  deduplicateEvents (deduplicateEvents events) = deduplicateEvents events.
Proof.
  unfold deduplicateEvents at 1.
  apply deduplicate_from_id.
  - apply deduplicate_from_NoDup.
  - intros k _. set_solver.
Qed.

(** C4. Two events of the same platform with the same lowercased and
    trimmed content, read in the same zone: when their timestamps lie in
    the same minute they have one fingerprint, [deduplicateEvents] keeps
    only the first of the pair, and of any list that holds them exactly one
    event with that fingerprint survives; when their timestamps lie in
    different minutes their fingerprints differ and both are kept. *)
Theorem deduplicateEvents_minute_bucket (e1 e2 : TimelineEvent) :
  TimelineEvent.platform e1 = TimelineEvent.platform e2 →
  trim (toLowerCase (TimelineEvent.content e1))
  = trim (toLowerCase (TimelineEvent.content e2)) →
  zone (TimelineEvent.timestamp e1) = zone (TimelineEvent.timestamp e2) →
  (ts (TimelineEvent.timestamp e1) / 60000 = ts (TimelineEvent.timestamp e2) / 60000 →
     dedupeKey e1 = dedupeKey e2
     ∧ deduplicateEvents [e1; e2] = [e1]
     ∧ ∀ events, e1 ∈ events → e2 ∈ events →
         length (filter (λ e, dedupeKey e = dedupeKey e1) (deduplicateEvents events))
         = 1%nat)
  ∧ (ts (TimelineEvent.timestamp e1) / 60000 ≠ ts (TimelineEvent.timestamp e2) / 60000 →
     dedupeKey e1 ≠ dedupeKey e2
     ∧ deduplicateEvents [e1; e2] = [e1; e2]).
Proof.
  intros Hp Hc Hz.
  pose proof (timeKey_same_minute _ _ Hz) as Hkey.
  split; intros Hmin.
  - assert (dedupeKey e1 = dedupeKey e2) as Heq.
    { unfold dedupeKey. rewrite Hp, Hc. f_equal. f_equal. by apply Hkey. }
    split; [done|]. split.
    + by rewrite deduplicate_pair, decide_True.
    + intros events H1 _. apply NoDup_key_filter_length.
      * apply deduplicate_from_NoDup.
      * apply deduplicate_from_keys. split; [|set_solver].
        apply list_elem_of_fmap. by exists e1.
  - assert (dedupeKey e1 ≠ dedupeKey e2) as Hne.
    { unfold dedupeKey. intros H. apply Hmin, Hkey. congruence. }
    split; [done|].
    by rewrite deduplicate_pair, decide_False.
Qed.

Lemma deduplicateEvents_minute_bucket_witness :
  deduplicateEvents [Samples.push1; Samples.push2] = [Samples.push1]
  ∧ deduplicateEvents [Samples.push1; Samples.push3] = [Samples.push1; Samples.push3].
Proof.
  split.
  - apply (deduplicateEvents_minute_bucket Samples.push1 Samples.push2);
      vm_compute; reflexivity.
  - apply (deduplicateEvents_minute_bucket Samples.push1 Samples.push3);
      vm_compute; [reflexivity | reflexivity | reflexivity | discriminate].
Defined.

(** Where [deduplicateEvents] is called, the timestamps have just been
    normalized to one zone: there the minute of the instant decides alone. *)
Lemma deduplicateEvents_after_normalize (timezone : Zone) (e1 e2 : TimelineEvent) :
  TimelineEvent.platform e1 = TimelineEvent.platform e2 →
  trim (toLowerCase (TimelineEvent.content e1))
  = trim (toLowerCase (TimelineEvent.content e2)) →
  length (deduplicateEvents (normalizeTimestamps timezone [e1; e2]))
  = if decide (millis e1 / 60000 = millis e2 / 60000) then 1%nat else 2%nat.
Proof.
  intros Hp Hc.
  pose proof (timeKey_same_minute
                (setZone timezone (TimelineEvent.timestamp e1))
                (setZone timezone (TimelineEvent.timestamp e2)) eq_refl) as Hkey.
  unfold normalizeTimestamps. cbn [map]. rewrite deduplicate_pair.
  unfold dedupeKey, millis, toMillis.
  cbn [TimelineEvent.timestamp TimelineEvent.platform TimelineEvent.content
       TimelineEvent.with_timestamp].
  rewrite Hp, Hc.
  destruct (decide (ts (TimelineEvent.timestamp e1) / 60000
                    = ts (TimelineEvent.timestamp e2) / 60000)) as [Hmin|Hmin].
  - apply Hkey in Hmin. rewrite Hmin. by rewrite decide_True.
  - rewrite decide_False; [done|]. intros Heq. apply Hmin, Hkey. congruence.
Qed.

(** The loop on the three sample events, evaluated. *)
Example deduplicateEvents_sample :
  deduplicateEvents [Samples.push1; Samples.push2; Samples.tweet]
  = [Samples.push1; Samples.tweet].
Proof. vm_compute. reflexivity. Qed.

Example simpleHash_sample : simpleHash "pushed 3 commits" = -1761819384.
Proof. vm_compute. reflexivity. Qed.

End DedupProperties.

(** ** The comparator sort *)

Section SortFacts.
Context {A : Type} (cmp : A → A → Z) (key : A → Z).
Hypothesis cmp_key : ∀ a b, cmp a b ≤ 0 ↔ key a ≤ key b.

Lemma sort_insert_Permutation x l : Js.sort_insert cmp x l ≡ₚ x :: l.
Proof.
  induction l as [|y l IH]; simpl; [done|].
  destruct (cmp x y <=? 0); [done|].
  rewrite IH. apply Permutation_swap.
Qed.

Lemma sort_Permutation l : Js.sort cmp l ≡ₚ l.
Proof.
  induction l as [|x l IH]; simpl; [done|].
  by rewrite sort_insert_Permutation, IH.
Qed.

Lemma sort_insert_sorted x l :
  StronglySorted (λ a b, key a ≤ key b) l →
  StronglySorted (λ a b, key a ≤ key b) (Js.sort_insert cmp x l).
Proof.
  induction 1 as [|y l Hl IH Hy]; simpl.
  - repeat constructor.
  - destruct (Z.leb_spec (cmp x y) 0) as [Hle|Hgt].
    + apply cmp_key in Hle. constructor; [by constructor|].
      constructor; [done|].
      eapply Forall_impl; [exact Hy|]. simpl. intros; lia.
    + assert (key y < key x) by (destruct (cmp_key x y); lia).
      constructor; [done|].
      rewrite (sort_insert_Permutation x l). constructor; [lia|done].
Qed.

Lemma sort_sorted l : StronglySorted (λ a b, key a ≤ key b) (Js.sort cmp l).
Proof.
  induction l as [|x l IH]; simpl; [constructor|by apply sort_insert_sorted].
Qed.

(** Stability: the elements of one key keep their order. *)
Lemma sort_insert_filter_key x l k :
  filter (λ a, key a = k) (Js.sort_insert cmp x l)
  = filter (λ a, key a = k) (x :: l).
Proof.
  induction l as [|y l IH]; simpl; [done|].
  destruct (Z.leb_spec (cmp x y) 0) as [Hle|Hgt]; [done|].
  assert (key y < key x) by (destruct (cmp_key x y); lia).
  rewrite filter_cons, IH, !filter_cons.
  repeat case_decide; try done; lia.
Qed.

Lemma sort_filter_key l k :
  filter (λ a, key a = k) (Js.sort cmp l) = filter (λ a, key a = k) l.
Proof.
  induction l as [|x l IH]; simpl; [done|].
  by rewrite sort_insert_filter_key, !filter_cons, IH.
Qed.

Lemma cmp_leb a b : (cmp a b <=? 0) = (key a <=? key b).
Proof.
  destruct (Z.leb_spec (cmp a b) 0) as [H|H], (Z.leb_spec (key a) (key b)) as [H'|H'];
    try done; destruct (cmp_key a b); lia.
Qed.

(** Insertions of two elements with different keys commute. *)
Lemma sort_insert_comm x y l :
  key x ≠ key y →
  Js.sort_insert cmp x (Js.sort_insert cmp y l)
  = Js.sort_insert cmp y (Js.sort_insert cmp x l).
Proof.
  intros Hne. induction l as [|z l IH]; simpl; rewrite ?cmp_leb.
  - destruct (Z.leb_spec (key x) (key y)), (Z.leb_spec (key y) (key x));
      try done; lia.
  - destruct (Z.leb_spec (key y) (key z)), (Z.leb_spec (key x) (key z));
      simpl; rewrite ?cmp_leb;
      destruct (Z.leb_spec (key x) (key y)), (Z.leb_spec (key y) (key x));
      simpl; rewrite ?cmp_leb; try lia;
      repeat match goal with
        | |- context [?a <=? ?b] => destruct (Z.leb_spec a b); try lia
        end;
      try done; by rewrite IH.
Qed.

Lemma StronglySorted_weaken (R R' : A → A → Prop) l :
  (∀ a b, R a b → R' a b) → StronglySorted R l → StronglySorted R' l.
Proof.
  intros HR. induction 1 as [|x l Hl IH Hx]; constructor; [done|].
  eapply Forall_impl; [exact Hx|]. auto.
Qed.

(** With pairwise distinct keys the result does not depend on the order
    of the input. *)
Lemma sort_Permutation_eq l l' :
  l ≡ₚ l' → NoDup (map key l) → Js.sort cmp l = Js.sort cmp l'.
Proof.
  induction 1 as [|x l l' Hp IH|x y l|l l' l'' Hp1 IH1 Hp2 IH2]; intros Hnd.
  - done.
  - simpl. rewrite IH; [done|]. simpl in Hnd. by apply NoDup_cons in Hnd as [_ ?].
  - simpl. apply sort_insert_comm.
    simpl in Hnd. apply NoDup_cons in Hnd as [Hy _].
    rewrite not_elem_of_cons in Hy. intros Heq. by destruct Hy as [Hy _].
  - rewrite IH1 by done. apply IH2.
    apply (Permutation_map key) in Hp1. by rewrite <- Hp1.
Qed.

End SortFacts.

(** ** The chronological merge *)

Section MergeProperties.
Import TimelineProcessor.

(** C2, amended. [sortEventsByTimestamp] returns the events it is given,
    ascending by timestamp, and the sort is stable: events of one timestamp
    keep the order they came in, no (platform, id) order is imposed on
    them. Hence the output is the same for two permutations of the input
    when the timestamps are pairwise distinct. The merge written inside
    [buildTimeline] uses the opposite comparator and is descending. *)
Theorem sortEventsByTimestamp_stable_ascending (events : list TimelineEvent) :
  sortEventsByTimestamp events ≡ₚ events
  ∧ StronglySorted (λ a b, millis a ≤ millis b) (sortEventsByTimestamp events)
  ∧ (∀ t, filter (λ e, millis e = t) (sortEventsByTimestamp events)
          = filter (λ e, millis e = t) events)
  ∧ (∀ events', events ≡ₚ events' → NoDup (map millis events) →
       sortEventsByTimestamp events = sortEventsByTimestamp events')
  ∧ StronglySorted (λ a b, millis b ≤ millis a)
      (Js.sort (λ a b, toMillis (TimelineEvent.timestamp b)
                       - toMillis (TimelineEvent.timestamp a)) events).
Proof.
  assert (∀ a b : TimelineEvent,
            toMillis (TimelineEvent.timestamp a) - toMillis (TimelineEvent.timestamp b) ≤ 0
            ↔ millis a ≤ millis b) as Hasc by (unfold millis; intros; lia).
  unfold sortEventsByTimestamp. repeat split.
  - apply sort_Permutation.
  - by apply sort_sorted.
  - intros t. by apply sort_filter_key.
  - intros events' Hp Hnd. by apply (sort_Permutation_eq _ millis).
  - pose proof (sort_sorted
        (λ a b, toMillis (TimelineEvent.timestamp b) - toMillis (TimelineEvent.timestamp a))
        (λ e, - millis e)) as Hdesc.
    eapply StronglySorted_weaken; [|apply Hdesc].
    + simpl. intros; lia.
    + unfold millis; intros; lia.
Qed.

Lemma sortEventsByTimestamp_stable_ascending_witness :
  sortEventsByTimestamp [Samples.tweet; Samples.push1]
  = sortEventsByTimestamp [Samples.push1; Samples.tweet].
Proof.
  apply (sortEventsByTimestamp_stable_ascending [Samples.tweet; Samples.push1]).
  - apply Permutation_swap.
  - vm_compute. repeat constructor; set_solver.
Defined.

(** C2 as worded fails on two events of one instant: both input orders
    come back unchanged, so the two outputs differ, and one of them lists
    (twitter, "b") before (github, "a"). The merge of [buildTimeline]
    moreover puts the later of two events first. *)
Lemma sortEventsByTimestamp_no_tie_break :
  [Samples.tie_b; Samples.tie_a] ≡ₚ [Samples.tie_a; Samples.tie_b]
  ∧ sortEventsByTimestamp [Samples.tie_b; Samples.tie_a]
    = [Samples.tie_b; Samples.tie_a]
  ∧ sortEventsByTimestamp [Samples.tie_a; Samples.tie_b]
    = [Samples.tie_a; Samples.tie_b]
  ∧ Spec.merge_order_leb Samples.tie_b Samples.tie_a = false
  ∧ sortEventsByTimestamp [Samples.tie_b; Samples.tie_a]
    ≠ sortEventsByTimestamp [Samples.tie_a; Samples.tie_b]
  ∧ Js.sort (λ a b, toMillis (TimelineEvent.timestamp b)
                    - toMillis (TimelineEvent.timestamp a))
            [Samples.push1; Samples.tweet]
    = [Samples.tweet; Samples.push1].
Proof.
  split; [apply Permutation_swap|].
  split; [reflexivity|]. split; [reflexivity|]. split; [reflexivity|].
  split; [vm_compute; discriminate|reflexivity].
Qed.

End MergeProperties.

(** ** Console and exceptions *)

Section EffectFacts.
Context {A B : Type}.

Lemma outcome_bind (m : M A) (f : A → M B) :
  outcome (bind m f)
  = match outcome m with Ok a => outcome (f a) | Throw e => Throw e end.
Proof. destruct m as [l [a|e]]; simpl; [by destruct (f a)|done]. Qed.

Lemma console_bind (m : M A) (f : A → M B) :
  console (bind m f)
  = console m ++ match outcome m with Ok a => console (f a) | Throw _ => [] end.
Proof.
  destruct m as [l [a|e]]; simpl; [by destruct (f a)|by rewrite app_nil_r].
Qed.

Lemma outcome_try_catch (m : M A) (h : string → M A) :
  outcome (try_catch m h)
  = match outcome m with Ok a => Ok a | Throw e => outcome (h e) end.
Proof. destruct m as [l [a|e]]; simpl; [done|by destruct (h e)]. Qed.

Lemma console_try_catch (m : M A) (h : string → M A) :
  console (try_catch m h)
  = console m ++ match outcome m with Ok _ => [] | Throw e => console (h e) end.
Proof.
  destruct m as [l [a|e]]; simpl; [by rewrite app_nil_r|by destruct (h e)].
Qed.

End EffectFacts.

Lemma allSettled_outcome {A} (ps : list (M A)) :
  outcome (allSettled ps) = Ok (map (λ p, settle (outcome p)) ps).
Proof.
  induction ps as [|p ps IH]; [done|].
  cbn [allSettled]. rewrite outcome_bind. unfold outcome at 1. cbn [snd].
  rewrite outcome_bind, IH. reflexivity.
Qed.

Lemma zip_map_self {A B} (f : A → B) (l : list A) :
  zip (map f l) l = map (λ a, (f a, a)) l.
Proof. induction l as [|a l IH]; simpl; [done|by rewrite IH]. Qed.

(** ** The orchestrator *)

Section Orchestrator.
Import TimelineProcessor.

Variable config : TimelineConfig.t.
Variable platformConfigs : PlatformConfigs.t.
Variable ingesters : Ingesters.
Variable nlp_addDocument : TimelineEvent → result unit.
Variable nlp_analyse : list TimelineEvent → TimelineEvent → result JsVal.

Local Abbreviation rezone := (Run.rezone config).
Local Abbreviation delivered := (Run.delivered config platformConfigs ingesters).
Local Abbreviation processEvents := (processEvents config platformConfigs ingesters).
Local Abbreviation platforms := (TimelineConfig.platforms config).

(** The events every delivering adapter returned, re-zoned, newest first:
    the list [buildTimeline] holds after its merge. *)
Local Abbreviation merged :=
  (Js.sort (λ a b, toMillis (TimelineEvent.timestamp b)
                   - toMillis (TimelineEvent.timestamp a))
           (map rezone (flat_map delivered platforms))).

(** How a per-platform ingestion settles. *)
Lemma processEvents_outcome platform :
  outcome (processEvents platform)
  = match outcome (select_ingester platformConfigs ingesters platform) with
    | Ok ingester =>
        match outcome (ingest ingester (TimelineConfig.target config)
                              (TimelineConfig.dateRange config)) with
        | Ok events => Ok (map rezone events)
        | Throw e => Throw e
        end
    | Throw e => Throw e
    end.
Proof.
  unfold TimelineProcessor.processEvents.
  rewrite outcome_try_catch, outcome_bind.
  destruct (outcome (select_ingester _ _ _)) as [ingester|e]; [|done].
  rewrite outcome_bind, outcome_try_catch.
  assert (match outcome (testConnection ingester) with
          | Ok a => Ok a
          | Throw e =>
              outcome (tell (ConsoleWarn ("Warning: Connection test failed for "
                         +:+ platform_name platform +:+ ": " +:+ e)))
          end = Ok tt) as ->.
  { by destruct (outcome (testConnection ingester)) as [[]|e]. }
  rewrite outcome_bind.
  by destruct (outcome (ingest ingester _ _)) as [events|e].
Qed.

(** A fulfilled ingestion carries the delivered events, re-zoned; a
    rejected one carries nothing. *)
Lemma settled_events platform :
  match settle (outcome (processEvents platform)) with
  | fulfilled value => value
  | rejected _ => []
  end = map rezone (delivered platform).
Proof.
  rewrite processEvents_outcome. unfold Run.delivered.
  destruct (outcome (select_ingester _ _ _)) as [ingester|e]; [|done].
  by destruct (outcome (ingest ingester _ _)) as [events|e].
Qed.

Lemma collect_outcome allEvents results :
  outcome (collect allEvents results)
  = Ok (allEvents
        ++ flat_map (λ r, match fst r with
                          | fulfilled value => value
                          | rejected _ => []
                          end) results).
Proof.
  revert allEvents. induction results as [|[[value|reason] p] rs IH];
    intros allEvents; cbn [collect flat_map fst].
  - by rewrite app_nil_r.
  - by rewrite IH, app_assoc.
  - rewrite outcome_bind. cbn. apply IH.
Qed.

Lemma collect_console allEvents results reason platform :
  (rejected reason, platform) ∈ results →
  Run.failure_line (platform, reason) ∈ console (collect allEvents results).
Proof.
  revert allEvents. induction results as [|[[value|r] p] rs IH];
    intros allEvents Hin; cbn [collect].
  - inversion Hin.
  - apply elem_of_cons in Hin as [[=]|Hin]. by apply IH.
  - rewrite console_bind. cbn.
    apply elem_of_cons in Hin as [[= -> ->]|Hin]; [left|right; by apply IH].
Qed.

(** What [buildTimeline] returns: it never throws, and its value is the
    merged list, after the NLP pipeline when that is switched on. *)
Lemma buildTimeline_outcome :
  outcome (buildTimeline config platformConfigs ingesters nlp_addDocument nlp_analyse)
  = if nlp_enabled config
    then outcome (NlpPipeline.process nlp_addDocument nlp_analyse merged)
    else Ok merged.
Proof.
  unfold buildTimeline.
  rewrite outcome_try_catch, outcome_bind, allSettled_outcome.
  rewrite outcome_bind, collect_outcome, app_nil_l.
  rewrite map_map, zip_map_self, flat_map_concat_map, map_map. cbn [fst].
  rewrite (map_ext _ (λ p, map rezone (delivered p)) settled_events).
  rewrite <- flat_map_concat_map.
  replace (flat_map (λ p, map rezone (delivered p)) platforms)
    with (map rezone (flat_map delivered platforms)).
  2:{ induction platforms as [|p ps IH]; [done|]. simpl. by rewrite map_app, IH. }
  destruct (nlp_enabled config); [|done].
  unfold NlpPipeline.process. rewrite !outcome_try_catch.
  by destruct (outcome _).
Qed.

End Orchestrator.

(** ** The NLP pipeline called by [buildTimeline] *)

Lemma mapM_outcome_Forall2 {A B} (f : A → M B) (l : list A) (out : list B) :
  outcome (mapM f l) = Ok out → Forall2 (λ o a, outcome (f a) = Ok o) out l.
Proof.
  revert out. induction l as [|a l IH]; intros out; cbn [mapM].
  - intros [= <-]. constructor.
  - rewrite outcome_bind. destruct (outcome (f a)) as [b|e] eqn:Hb; [|done].
    rewrite outcome_bind. destruct (outcome (mapM f l)) as [bs|e] eqn:Hbs; [|done].
    intros [= <-]. constructor; [done|]. by apply IH.
Qed.

(** [process] returns, and changes nothing but the [metadata] bag. *)
Lemma process_outcome addDocument analyse (events : list TimelineEvent) :
  ∃ out,
    outcome (NlpPipeline.process addDocument analyse events) = Ok out
    ∧ Forall2 (λ o e, TimelineEvent.with_metadata [] o
                      = TimelineEvent.with_metadata [] e) out events.
Proof.
  unfold NlpPipeline.process. rewrite outcome_try_catch.
  destruct (outcome (bind _ _)) as [out|e] eqn:Hout.
  - exists out. split; [done|].
    rewrite outcome_bind in Hout.
    destruct (outcome (mapM _ events)) as [?|?]; [|done].
    apply mapM_outcome_Forall2 in Hout.
    eapply Forall2_impl; [exact Hout|]. cbv beta.
    intros o ev. rewrite outcome_bind. unfold outcome at 1. cbn [snd].
    destruct (analyse events ev) as [nlp|?]; [|done].
    by intros [= <-].
  - exists events. split; [done|]. by apply Forall_Forall2_diag, Forall_true.
Qed.

Lemma Forall2_map_eq {A B} (f : A → B) (l l' : list A) :
  Forall2 (λ a b, f a = f b) l l' → map f l = map f l'.
Proof. induction 1; simpl; congruence. Qed.

(** ** What [buildTimeline] returns *)

Section BuildTimelineProperties.
Import TimelineProcessor.

Variable config : TimelineConfig.t.
Variable platformConfigs : PlatformConfigs.t.
Variable ingesters : Ingesters.
Variable nlp_addDocument : TimelineEvent → result unit.
Variable nlp_analyse : list TimelineEvent → TimelineEvent → result JsVal.

Local Abbreviation rezone := (Run.rezone config).
Local Abbreviation delivered := (Run.delivered config platformConfigs ingesters).
Local Abbreviation timeline :=
  (buildTimeline config platformConfigs ingesters nlp_addDocument nlp_analyse).
Local Abbreviation erase := (TimelineEvent.with_metadata []).

(** The value of [buildTimeline], related to what the adapters delivered. *)
Lemma buildTimeline_returns :
  ∃ events,
    outcome timeline = Ok events
    ∧ map erase events
      = map erase
          (Js.sort (λ a b, toMillis (TimelineEvent.timestamp b)
                           - toMillis (TimelineEvent.timestamp a))
                   (map rezone (flat_map delivered (TimelineConfig.platforms config))))
    ∧ (nlp_enabled config = false →
       events = Js.sort (λ a b, toMillis (TimelineEvent.timestamp b)
                                - toMillis (TimelineEvent.timestamp a))
                  (map rezone (flat_map delivered (TimelineConfig.platforms config)))).
Proof.
  rewrite buildTimeline_outcome.
  destruct (nlp_enabled config).
  - destruct (process_outcome nlp_addDocument nlp_analyse
                (Js.sort (λ a b, toMillis (TimelineEvent.timestamp b)
                                 - toMillis (TimelineEvent.timestamp a))
                   (map rezone (flat_map delivered (TimelineConfig.platforms config)))))
      as (out & Hout & Hsame).
    exists out. split; [done|]. split; [|done].
    by apply Forall2_map_eq.
  - eexists. split; [done|]. split; done.
Qed.

(** C9. The per-platform ingestions are joined all-settled: the run
    returns; what it returns is, up to order and to the [nlp] entry the
    pipeline may add to [metadata], the concatenation of the events of
    the adapters that delivered, each re-expressed in the target zone with
    its instant unchanged; an adapter that failed contributes nothing and
    takes nothing away. *)
Theorem buildTimeline_isolates_failures :
  ∃ events,
    outcome timeline = Ok events
    ∧ map erase events
      ≡ₚ map erase (map rezone (flat_map delivered (TimelineConfig.platforms config)))
    ∧ (nlp_enabled config = false →
       events ≡ₚ map rezone (flat_map delivered (TimelineConfig.platforms config)))
    ∧ Forall (λ e, zone (TimelineEvent.timestamp e) = TimelineConfig.timezone config)
        events
    ∧ map millis events
      ≡ₚ map millis (flat_map delivered (TimelineConfig.platforms config))
    ∧ (∀ platform error,
         outcome (processEvents config platformConfigs ingesters platform) = Throw error →
         delivered platform = [])
    ∧ (∀ platform value,
         outcome (processEvents config platformConfigs ingesters platform) = Ok value →
         value = map rezone (delivered platform)).
Proof.
  destruct buildTimeline_returns as (events & Hout & Herase & Hplain).
  set (raw := flat_map delivered (TimelineConfig.platforms config)) in *.
  assert (map erase events ≡ₚ map erase (map rezone raw)) as Hperm.
  { rewrite Herase. apply Permutation_map, sort_Permutation. }
  exists events. split; [done|]. split; [done|]. split.
  { intros Hoff. rewrite (Hplain Hoff). apply sort_Permutation. }
  split.
  { assert (Forall (λ e, zone (TimelineEvent.timestamp e)
                         = TimelineConfig.timezone config) (map erase events)) as HF.
    { rewrite Hperm. apply Forall_forall. intros e He.
      apply list_elem_of_fmap in He as (e' & -> & He').
      apply list_elem_of_fmap in He' as (e'' & -> & _). reflexivity. }
    rewrite Forall_forall in HF. apply Forall_forall. intros e He.
    apply (HF (erase e)). apply list_elem_of_fmap. by exists e. }
  split.
  { apply (Permutation_map millis) in Hperm.
    rewrite !map_map in Hperm. exact Hperm. }
  split.
  - intros platform error. rewrite processEvents_outcome. unfold Run.delivered.
    destruct (outcome (select_ingester _ _ _)) as [ingester|e]; [|done].
    by destruct (outcome (ingest ingester _ _)) as [evs|e].
  - intros platform value. rewrite processEvents_outcome. unfold Run.delivered.
    destruct (outcome (select_ingester _ _ _)) as [ingester|e]; [|done].
    destruct (outcome (ingest ingester _ _)) as [evs|e]; [|done].
    by intros [= <-].
Qed.

(** C3, amended. [buildTimeline] does not throw when adapters fail: it
    returns a list of events, the best effort (the events of the adapters
    that delivered, up to order and to the [nlp] entry), and nothing else.
    The failures are not returned; each one is printed on the console as a
    line "Failed to process <platform>: <error>". *)
Theorem buildTimeline_never_throws :
  (∃ events,
     outcome timeline = Ok events
     ∧ map erase events
       ≡ₚ map erase (map rezone (flat_map delivered (TimelineConfig.platforms config))))
  ∧ ∀ failure,
      failure ∈ Run.failures config platformConfigs ingesters →
      Run.failure_line failure ∈ console timeline.
Proof.
  split.
  - destruct buildTimeline_returns as (events & Hout & Herase & _).
    exists events. split; [done|].
    rewrite Herase. apply Permutation_map, sort_Permutation.
  - intros [platform error] Hin.
    unfold Run.failures in Hin. rewrite list_elem_of_In in Hin.
    apply in_flat_map in Hin as (p & Hp & Hpe).
    destruct (outcome (processEvents config platformConfigs ingesters p))
      as [?|e] eqn:Hthrow; [inversion Hpe|].
    rewrite <- list_elem_of_In in Hpe. apply list_elem_of_singleton in Hpe as [= -> ->].
    unfold buildTimeline.
    rewrite console_try_catch, console_bind, allSettled_outcome, console_bind.
    rewrite !elem_of_app. left. right. left.
    apply collect_console.
    rewrite map_map, zip_map_self.
    apply list_elem_of_fmap. exists p. rewrite Hthrow.
    split; [done|]. by apply list_elem_of_In.
Qed.

End BuildTimelineProperties.

Section BuildTimelineRuns.
Import TimelineProcessor.

Lemma buildTimeline_isolates_failures_witness :
  Run.delivered (SampleRuns.config [github; reddit]) SampleRuns.platformConfigs
    SampleRuns.ingesters reddit = [].
Proof.
  destruct (buildTimeline_isolates_failures (SampleRuns.config [github; reddit])
              SampleRuns.platformConfigs SampleRuns.ingesters
              SampleRuns.addDocument SampleRuns.analyse)
    as (events & _ & _ & _ & _ & _ & Hfailed & _).
  apply (Hfailed reddit "Error: 401 Unauthorized"). reflexivity.
Defined.

Lemma buildTimeline_never_throws_witness :
  ConsoleError "Failed to process reddit: Error: 401 Unauthorized"
  ∈ console Scenario.reddit_down.
Proof.
  destruct (buildTimeline_never_throws (SampleRuns.config [github; reddit])
              SampleRuns.platformConfigs SampleRuns.ingesters
              SampleRuns.addDocument SampleRuns.analyse) as [_ Hprinted].
  apply (Hprinted (reddit, "Error: 401 Unauthorized")).
  vm_compute. left.
Defined.

(** C3 as worded fails: two runs with different failed adapters return
    the very same value, a bare list of events; the (platform, error) pairs
    are not part of what is returned. *)
Lemma buildTimeline_returns_no_warnings :
  outcome Scenario.reddit_down = Ok [Samples.push2; Samples.push1]
  ∧ outcome Scenario.rss_down = Ok [Samples.push2; Samples.push1]
  ∧ Run.failures (SampleRuns.config [github; reddit]) SampleRuns.platformConfigs
      SampleRuns.ingesters
    = [(reddit, "Error: 401 Unauthorized")]
  ∧ Run.failures (SampleRuns.config [github; rss]) SampleRuns.platformConfigs
      SampleRuns.ingesters
    = [(rss, "Error: ENOTFOUND")].
Proof. repeat split; vm_compute; reflexivity. Qed.

(** C1, amended. On the scenario's input the run returns its events most
    recent first: the list is descending by timestamp, it is made of the
    three raw events re-zoned, and it holds the twitter event and a github
    "Pushed 3 commits" event. *)
Theorem buildTimeline_scenario_most_recent_first (g1 g2 tw : TimelineEvent) :
  Scenario.input g1 g2 tw →
  ∃ events,
    outcome (Scenario.timeline g1 g2 tw) = Ok events
    ∧ StronglySorted (λ a b, millis b ≤ millis a) events
    ∧ (∀ e, e ∈ events → e ∈ map (Run.rezone Scenario.config) [g1; g2; tw])
    ∧ Run.rezone Scenario.config tw ∈ events
    ∧ (∃ g, g ∈ events
            ∧ TimelineEvent.platform g = github
            ∧ TimelineEvent.content g = "Pushed 3 commits").
Proof.
  intros (Hp1 & _ & Hc1 & _).
  unfold Scenario.timeline. rewrite buildTimeline_outcome.
  change (nlp_enabled Scenario.config) with false. cbv iota.
  change (flat_map _ (TimelineConfig.platforms Scenario.config))
    with [g1; g2; tw].
  set (sorted := Js.sort _ _).
  assert (sorted ≡ₚ map (Run.rezone Scenario.config) [g1; g2; tw]) as Hperm
    by apply sort_Permutation.
  exists sorted. split; [done|]. split.
  { pose proof (sort_sorted
        (λ a b, toMillis (TimelineEvent.timestamp b) - toMillis (TimelineEvent.timestamp a))
        (λ e, - millis e)) as Hdesc.
    eapply StronglySorted_weaken; [|apply Hdesc].
    - simpl. intros; lia.
    - unfold millis; intros; lia. }
  split; [by intros e He; rewrite <- Hperm|].
  split; [rewrite Hperm; set_solver|].
  exists (Run.rezone Scenario.config g1).
  split; [rewrite Hperm; set_solver|]. by split.
Qed.

Lemma buildTimeline_scenario_most_recent_first_witness :
  ∃ events,
    outcome SampleRuns.scenario = Ok events
    ∧ StronglySorted (λ a b, millis b ≤ millis a) events
    ∧ (∀ e, e ∈ events →
         e ∈ map (Run.rezone Scenario.config)
               [Samples.push1; Samples.push2; Samples.tweet])
    ∧ Run.rezone Scenario.config Samples.tweet ∈ events
    ∧ (∃ g, g ∈ events
            ∧ TimelineEvent.platform g = github
            ∧ TimelineEvent.content g = "Pushed 3 commits").
Proof.
  apply (buildTimeline_scenario_most_recent_first
           Samples.push1 Samples.push2 Samples.tweet).
  unfold Scenario.input. repeat split; try reflexivity.
  vm_compute. discriminate.
Defined.

(** C1 as worded fails: on the three sample events the run returns three
    events, the latest first. *)
Lemma buildTimeline_scenario_counterexample :
  Scenario.input Samples.push1 Samples.push2 Samples.tweet
  ∧ outcome (Scenario.timeline Samples.push1 Samples.push2 Samples.tweet)
    = Ok [Samples.tweet; Samples.push2; Samples.push1]
  ∧ ¬ (∃ events,
         outcome (Scenario.timeline Samples.push1 Samples.push2 Samples.tweet)
         = Ok events
         ∧ length events = 2%nat
         ∧ StronglySorted (λ a b, millis a ≤ millis b) events).
Proof.
  split; [|split].
  - unfold Scenario.input. repeat split; try reflexivity. vm_compute. discriminate.
  - vm_compute. reflexivity.
  - intros (events & Hout & Hlen & _).
    assert (outcome (Scenario.timeline Samples.push1 Samples.push2 Samples.tweet)
            = Ok [Samples.tweet; Samples.push2; Samples.push1]) as Hrun
      by (vm_compute; reflexivity).
    rewrite Hrun in Hout. injection Hout as <-. discriminate Hlen.
Qed.

(** The sequential revision of [buildTimeline] deduplicates and sorts
    ascending: on the same input it returns two events, the earlier first. *)
Example buildTimeline_seq_scenario :
  outcome SampleRuns.scenario_seq = Ok [Samples.push1; Samples.tweet].
Proof. vm_compute. reflexivity. Qed.

End BuildTimelineRuns.

(** ** The sentiment scorer *)

Section SentimentFacts.
Import NLPProcessor.

Lemma includes_elem_of (xs : list string) (w : string) :
  includes xs w = true ↔ w ∈ xs.
Proof.
  unfold includes. rewrite existsb_exists. split.
  - intros (x & Hx & Heq). apply String.eqb_eq in Heq as ->.
    by apply list_elem_of_In.
  - intros Hw. exists w. split; [by apply list_elem_of_In|apply String.eqb_refl].
Qed.

(** No word is in both word lists. *)
Lemma lexicons_disjoint (w : string) :
  includes positiveWords w = true → includes negativeWords w = false.
Proof.
  intros Hw. apply includes_elem_of in Hw.
  assert (Forall (λ w, includes negativeWords w = false) positiveWords) as HF.
  { unfold positiveWords. repeat constructor. }
  rewrite Forall_forall in HF. by apply HF.
Qed.

(** The counting loop counts the tokens of each word list. *)
Lemma count_words (words : list string) (counts : Z * Z) :
  fold_left count_word words counts
  = (fst counts + matches positiveWords words,
     snd counts + matches negativeWords words).
Proof.
  revert counts. induction words as [|w ws IH]; intros [p n].
  - unfold matches. simpl. f_equal; lia.
  - cbn [fold_left]. rewrite IH. unfold matches, count_word.
    rewrite !filter_cons.
    destruct (includes positiveWords w) eqn:Hp.
    + rewrite (lexicons_disjoint w Hp).
      rewrite decide_True by done. rewrite decide_False by done.
      cbn [fst snd length]. f_equal; lia.
    + rewrite decide_False by done.
      destruct (includes negativeWords w) eqn:Hn.
      * rewrite decide_True by done. cbn [fst snd length]. f_equal; lia.
      * rewrite decide_False by done. cbn [fst snd length]. f_equal; lia.
Qed.

(** The tokens of the two lists together are at most all the tokens. *)
Lemma matches_bound (words : list string) :
  0 ≤ matches positiveWords words
  ∧ 0 ≤ matches negativeWords words
  ∧ matches positiveWords words + matches negativeWords words
    ≤ Z.of_nat (length words).
Proof.
  unfold matches. induction words as [|w ws IH]; [simpl; lia|].
  rewrite !filter_cons. cbn [length].
  destruct (includes positiveWords w) eqn:Hp.
  - rewrite (lexicons_disjoint w Hp).
    rewrite decide_True by done. rewrite decide_False by done.
    cbn [length]. lia.
  - rewrite decide_False by done.
    destruct (includes negativeWords w) eqn:Hn.
    + rewrite decide_True by done. cbn [length]. lia.
    + rewrite decide_False by done. lia.
Qed.

(** A quotient of integers whose numerator is within the denominator. *)
Lemma quotient_within_one (a d : Z) :
  0 < d → - d ≤ a ≤ d →
  (- 1 <= inject_Z a / inject_Z d)%Q ∧ (inject_Z a / inject_Z d <= 1)%Q.
Proof.
  intros Hd Ha.
  assert (0 < inject_Z d)%Q as Hd'
    by (change 0%Q with (inject_Z 0); by rewrite <- Zlt_Qlt).
  split.
  - apply Qle_shift_div_l; [done|].
    change (- 1)%Q with (inject_Z (- 1)). rewrite <- inject_Z_mult, <- Zle_Qle. lia.
  - apply Qle_shift_div_r; [done|].
    rewrite Qmult_1_l, <- Zle_Qle. lia.
Qed.

Lemma clamp_id (x : Q) : (- 1 <= x)%Q → (x <= 1)%Q → (clamp x == x)%Q.
Proof.
  intros Hlo Hhi. unfold clamp.
  rewrite (Q.min_r 1 x) by done. by apply Q.max_r.
Qed.

Lemma Qgtb_spec (x y : Q) : Qgtb x y = true ↔ (y < x)%Q.
Proof.
  unfold Qgtb. rewrite negb_true_iff, <- not_true_iff_false, Qle_bool_iff.
  split; [apply Qnot_le_lt|apply Qlt_not_le].
Qed.

End SentimentFacts.

Section SentimentProperties.
Import NLPProcessor.

(** The score and the label in terms of the unclamped quotient. *)
Lemma analyzeSentiment_unfold (text : string) :
  let words := match_words (toLowerCase text) in
  let pos := matches positiveWords words in
  let neg := matches negativeWords words in
  let total := Z.of_nat (length words) in
  let raw := if 0 <? total
             then (inject_Z (pos - neg) / inject_Z (Z.min total (pos + neg + 5)))%Q
             else 0%Q in
  SentimentScore.score (analyzeSentiment text) = clamp raw
  ∧ SentimentScore.label (analyzeSentiment text)
    = (if Qgtb raw (1 # 10) then Positive
       else if Qgtb (- (1 # 10)) raw then Negative else Neutral)
  ∧ (- 1 <= raw)%Q ∧ (raw <= 1)%Q.
Proof.
  intros words pos neg total raw.
  split; [|split].
  - unfold analyzeSentiment. fold words. rewrite count_words. reflexivity.
  - unfold analyzeSentiment. fold words. rewrite count_words. reflexivity.
  - pose proof (matches_bound words) as (Hp & Hn & Hpn).
    fold pos neg total in Hp, Hn, Hpn. subst raw.
    destruct (Z.ltb_spec 0 total) as [Ht|Ht]; [|done].
    apply quotient_within_one; lia.
Qed.

(** C6. The score of [analyzeSentiment] is the quotient
    [(pos - neg) / min(totalTokens, pos + neg + 5)] clamped to [-1, 1]
    (zero for a text without tokens), [pos] and [neg] being the numbers of
    tokens of the lowercased text found in the two word lists; the label is
    "positive" exactly when the score exceeds 0.1, "negative" exactly when
    it is below -0.1, "neutral" otherwise; the score lies in [-1, 1]; and
    a text without any token of the word lists scores 0 and is "neutral". *)
Theorem analyzeSentiment_score_and_label (text : string) :
  let s := analyzeSentiment text in
  let words := match_words (toLowerCase text) in
  (SentimentScore.score s == spec_score text)%Q
  ∧ (SentimentScore.label s = Positive ↔ (1 # 10 < SentimentScore.score s)%Q)
  ∧ (SentimentScore.label s = Negative ↔ (SentimentScore.score s < - (1 # 10))%Q)
  ∧ (SentimentScore.label s = Neutral
     ↔ (- (1 # 10) <= SentimentScore.score s)%Q
       ∧ (SentimentScore.score s <= 1 # 10)%Q)
  ∧ ((- 1 <= SentimentScore.score s)%Q ∧ (SentimentScore.score s <= 1)%Q)
  ∧ (matches positiveWords words = 0 → matches negativeWords words = 0 →
     (SentimentScore.score s == 0)%Q ∧ SentimentScore.label s = Neutral).
Proof.
  intros s words. subst s.
  destruct (analyzeSentiment_unfold text) as (Hscore & Hlabel & Hlo & Hhi).
  fold words in Hscore, Hlabel, Hlo, Hhi.
  set (pos := matches positiveWords words) in *.
  set (neg := matches negativeWords words) in *.
  set (total := Z.of_nat (length words)) in *.
  set (raw := if 0 <? total then _ else _) in *.
  assert (SentimentScore.score (analyzeSentiment text) == raw)%Q as Hraw
    by (rewrite Hscore; by apply clamp_id).
  rewrite Hlabel.
  split.
  { rewrite Hscore. unfold spec_score. fold words pos neg total. subst raw.
    destruct (Z.ltb_spec 0 total) as [Ht|Ht].
    - rewrite (proj2 (Z.eqb_neq total 0)) by lia. reflexivity.
    - assert (total = 0) as -> by (subst total; lia). reflexivity. }
  split.
  { rewrite Hraw, <- Qgtb_spec. destruct (Qgtb raw (1 # 10)); [done|].
    destruct (Qgtb (- (1 # 10)) raw); split; done. }
  split.
  { rewrite Hraw, <- Qgtb_spec.
    destruct (Qgtb raw (1 # 10)) eqn:Hpos.
    - split; [done|]. intros Hneg. exfalso.
      apply Qgtb_spec in Hpos, Hneg.
      assert (- (1 # 10) < (1 # 10))%Q by done.
      apply (Qlt_irrefl raw). do 2 (etransitivity; [eassumption|]). done.
    - destruct (Qgtb (- (1 # 10)) raw); split; done. }
  split.
  { rewrite Hraw.
    destruct (Qgtb raw (1 # 10)) eqn:Hpos.
    - split; [done|]. intros [_ Hle]. apply Qgtb_spec in Hpos.
      exfalso. by apply (Qlt_not_le _ _ Hpos).
    - destruct (Qgtb (- (1 # 10)) raw) eqn:Hneg.
      + split; [done|]. intros [Hle _]. apply Qgtb_spec in Hneg.
        exfalso. by apply (Qlt_not_le _ _ Hneg).
      + split; [|done]. intros _. split.
        * apply Qnot_lt_le. rewrite <- Qgtb_spec. by rewrite Hneg.
        * apply Qnot_lt_le. rewrite <- Qgtb_spec. by rewrite Hpos. }
  split.
  { by rewrite Hraw. }
  intros Hp Hn.
  assert (raw == 0)%Q as Hzero.
  { subst raw. rewrite Hp, Hn. destruct (0 <? total); [|done].
    unfold Qdiv. apply Qmult_0_l. }
  split; [by rewrite Hraw|].
  assert (Qgtb raw (1 # 10) = false) as ->.
  { apply not_true_iff_false. rewrite Qgtb_spec, Hzero. done. }
  assert (Qgtb (- (1 # 10)) raw = false) as ->.
  { apply not_true_iff_false. rewrite Qgtb_spec, Hzero. done. }
  done.
Qed.

End SentimentProperties.

Section NlpRuns.
Import NLPProcessor.

Lemma analyzeSentiment_score_and_label_witness :
  (SentimentScore.score (analyzeSentiment "Pushed 3 commits") == 0)%Q
  ∧ SentimentScore.label (analyzeSentiment "Pushed 3 commits") = Neutral.
Proof.
  apply (analyzeSentiment_score_and_label "Pushed 3 commits"); reflexivity.
Defined.

(** The scenario of the specification: two positive tokens among seven. *)
Example analyzeSentiment_positive_sample :
  let s := analyzeSentiment "I love this new feature, amazing work!" in
  (SentimentScore.score s == 2 # 7)%Q ∧ SentimentScore.label s = Positive.
Proof. split; reflexivity. Qed.

Example analyzeSentiment_negative_sample :
  let s := analyzeSentiment "Terrible bug: the build FAILED again" in
  (SentimentScore.score s == - (1 # 2))%Q ∧ SentimentScore.label s = Negative.
Proof. split; reflexivity. Qed.

(** ** Events without content *)

Lemma trimStart_all_space (s : string) : all_space s = true → trimStart s = "".
Proof.
  induction s as [|c s IH]; [done|]. simpl.
  destruct (is_space c); [|done]. simpl. exact IH.
Qed.

Lemma trim_all_space (s : string) : all_space s = true → trim s = "".
Proof. intros H. unfold trim. by rewrite trimStart_all_space. Qed.

(** C10. [processEvents] hands an event whose content is empty or made of
    white space only through unchanged, whatever stages are enabled: the
    output has the length of the input and, at the position of such an
    event, the very same event (so no language, entities, sentiment or
    topics were added and every other field is as it was). *)
Theorem processEvents_skips_blank_content
    (config : NLPConfig) (detectLanguage : string → string)
    (extractEntities : string → list Entity.t) (modelTopics : string → list string)
    (events : list TimelineEvent) (i : nat) (event : TimelineEvent) :
  events !! i = Some event →
  TimelineEvent.content event = "" ∨ all_space (TimelineEvent.content event) = true →
  length (processEvents config detectLanguage extractEntities modelTopics events)
  = length events
  ∧ processEvents config detectLanguage extractEntities modelTopics events !! i
    = Some event.
Proof.
  intros Hi Hblank. unfold processEvents. split; [apply length_map|].
  change (map ?f ?l) with (f <$> l).
  rewrite list_lookup_fmap, Hi. cbn [fmap option_fmap option_map]. f_equal.
  unfold enrich.
  assert (all_space (TimelineEvent.content event) = true) as Hspace
    by (destruct Hblank as [->|?]; done).
  by rewrite (trim_all_space _ Hspace), orb_true_r.
Qed.

Lemma processEvents_skips_blank_content_witness :
  processEvents NlpSamples.all_enabled NlpSamples.detectLanguage
    NlpSamples.extractEntities NlpSamples.modelTopics
    [Samples.tweet; NlpSamples.blank] !! 1%nat
  = Some NlpSamples.blank.
Proof.
  apply (processEvents_skips_blank_content NlpSamples.all_enabled
           NlpSamples.detectLanguage NlpSamples.extractEntities
           NlpSamples.modelTopics [Samples.tweet; NlpSamples.blank] 1
           NlpSamples.blank).
  - reflexivity.
  - right. reflexivity.
Defined.

(** An event with content is annotated by every enabled stage. *)
Example processEvents_annotates_sample :
  TimelineEvent.language <$>
    (processEvents NlpSamples.all_enabled NlpSamples.detectLanguage
       NlpSamples.extractEntities NlpSamples.modelTopics
       [Samples.tweet; NlpSamples.blank] !! 0%nat)
  = Some (Some "en").
Proof. reflexivity. Qed.

End NlpRuns.

(** ** The geo tagger *)

Section GeoFacts.
Import GeoAnalyzer.

Example lookupLocationByName_sample :
  lookupLocationByName "  New York " = Some (place_location
    {| place_name := "new york"; place_lat := 407128 # 10000;
       place_lng := - (740060 # 10000); place_code := "US" |}).
Proof. vm_compute. reflexivity. Qed.

Example enhance_paris_sample :
  outcome (enhanceEventsWithGeoData GeoSamples.config GeoSamples.parseFloat
             [GeoSamples.from_paris])
  = Ok [TimelineEvent.with_location GeoSamples.paris GeoSamples.from_paris].
Proof. vm_compute. reflexivity. Qed.

Example potentialLocations_sample :
  potentialLocations "Hello World from Gotham City"
  = ["Hello"; "Hello World"; "World"; "Gotham"; "Gotham City"; "City"].
Proof. vm_compute. reflexivity. Qed.

Lemma fold_more_confident_elem (config : GeoAnalysisConfig)
    (rest : list Entity.t) (first : Entity.t) :
  fold_left more_confident rest first ∈ first :: rest.
Proof.
  revert first. induction rest as [|x rest IH]; intros first; simpl; [left|].
  specialize (IH (more_confident first x)).
  unfold more_confident in *.
  destruct (negb _); apply elem_of_cons in IH as [->|IH]; set_solver.
Qed.

Lemma first_known_None (candidates : list string) :
  Forall (λ c, lookupLocationByName c = None) candidates →
  first_known candidates = None.
Proof.
  induction 1 as [|c cs Hc _ IH]; cbn [first_known]; [reflexivity|].
  rewrite Hc. exact IH.
Qed.

(** A location entity that neither brings coordinates nor is known to the
    database yields nothing. *)
Lemma extractLocationFromEntities_None (config : GeoAnalysisConfig)
    (event : TimelineEvent) :
  (∀ entity, entity ∈ default [] (TimelineEvent.entities event) →
             Entity.type entity = "location" →
             entity_has_coordinates entity = false
             ∧ lookupLocationByName (Entity.text entity) = None) →
  extractLocationFromEntities config event = None.
Proof.
  intros Hall. unfold extractLocationFromEntities.
  destruct (TimelineEvent.entities event) as [entities|]; [|reflexivity].
  change (default [] (Some entities)) with entities in Hall.
  destruct (List.filter (is_location_entity config) entities)
    as [|first rest] eqn:Hfilter; [reflexivity|].
  cbv zeta.
  pose proof (fold_more_confident_elem config rest first) as Hbest.
  rewrite <- Hfilter, list_elem_of_In, filter_In in Hbest.
  destruct Hbest as [Hin Hloc]. rewrite <- list_elem_of_In in Hin.
  unfold is_location_entity in Hloc.
  apply andb_true_iff in Hloc as [Htype _]. apply String.eqb_eq in Htype.
  destruct (Hall _ Hin Htype) as [-> ->]. reflexivity.
Qed.

Lemma extractLocationFromMetadata_None (config : GeoAnalysisConfig)
    (parseFloat : JsVal → JsVal) (event : TimelineEvent) :
  has_explicit_coordinates event = false →
  has_twitter_geo event = false →
  has_reddit_subreddit event = false →
  extractLocationFromMetadata parseFloat event = ret None.
Proof.
  intros Hcoord Htw Hrd. unfold extractLocationFromMetadata.
  rewrite Hcoord, Htw, Hrd. reflexivity.
Qed.

(** The metadata of an event without explicit coordinates and without
    Twitter geo data: a subreddit that is a string yields a place only as
    "r/" followed by a name of the database; one that is no string makes
    the call throw. *)
Lemma extractLocationFromMetadata_subreddit (parseFloat : JsVal → JsVal)
    (event : TimelineEvent) :
  has_explicit_coordinates event = false →
  has_twitter_geo event = false →
  (∀ s, TimelineEvent.platform event = reddit →
        obj_get (TimelineEvent.metadata event) "subreddit" = JStr s →
        startsWith "r/" (toLowerCase s) = true →
        lookupLocationByName (substring_from 2 (toLowerCase s)) = None) →
  extractLocationFromMetadata parseFloat event = ret None
  ∨ (TimelineEvent.platform event = reddit
     ∧ truthy (obj_get (TimelineEvent.metadata event) "subreddit") = true
     ∧ (∀ s, obj_get (TimelineEvent.metadata event) "subreddit" ≠ JStr s)
     ∧ ∃ error, extractLocationFromMetadata parseFloat event = throw error).
Proof.
  intros Hcoord Htw Hsub. unfold extractLocationFromMetadata.
  rewrite Hcoord, Htw. cbv [bind ret]. cbv beta iota.
  destruct (has_reddit_subreddit event) eqn:Hrd; [|by left].
  unfold has_reddit_subreddit in Hrd. apply andb_true_iff in Hrd as [Hp Htruthy].
  assert (TimelineEvent.platform event = reddit) as Hreddit
    by by destruct (TimelineEvent.platform event).
  unfold reddit_location.
  destruct (obj_get (TimelineEvent.metadata event) "subreddit") as [| | | |s| |]
    eqn:Hget;
    try (right; split; [done|]; split; [done|]; split; [done|]; by eexists).
  left. destruct (startsWith "r/" (toLowerCase s)) eqn:Hprefix; [|done].
  cbn [negb]. by rewrite (Hsub s Hreddit eq_refl Hprefix).
Qed.

(** What the loop over the words of a content proposes: a capitalised
    word of three characters or more, stripped of its punctuation, or
    such a word joined to the word that follows it when that one is
    capitalised too. *)
Lemma potential_from_elem (words : list string) (c : string) :
  c ∈ potential_from words →
  (∃ w, w ∈ words
        ∧ (3 ≤ String.length (strip_punctuation w))%nat
        ∧ is_capitalized (strip_punctuation w) = true
        ∧ c = strip_punctuation w)
  ∨ (∃ i w next,
       words !! i = Some w ∧ words !! S i = Some next
       ∧ (3 ≤ String.length (strip_punctuation w))%nat
       ∧ is_capitalized (strip_punctuation w) = true
       ∧ is_capitalized next = true
       ∧ c = strip_punctuation w +:+ " " +:+ next).
Proof.
  induction words as [|w rest IH]; [intros H; inversion H|].
  cbn [potential_from].
  assert (c ∈ potential_from rest →
          (∃ w', w' ∈ w :: rest
                 ∧ (3 ≤ String.length (strip_punctuation w'))%nat
                 ∧ is_capitalized (strip_punctuation w') = true
                 ∧ c = strip_punctuation w')
          ∨ (∃ i w' next,
               (w :: rest) !! i = Some w' ∧ (w :: rest) !! S i = Some next
               ∧ (3 ≤ String.length (strip_punctuation w'))%nat
               ∧ is_capitalized (strip_punctuation w') = true
               ∧ is_capitalized next = true
               ∧ c = strip_punctuation w' +:+ " " +:+ next)) as Hrest.
  { intros [(w' & Hin & H)|(i & w' & next & Hi & Hn & H)]%IH.
    - left. exists w'. split; [by right|done].
    - right. by exists (S i), w', next. }
  destruct (Nat.ltb_spec (String.length (strip_punctuation w)) 3) as [|Hlen];
    [done|].
  rewrite !elem_of_app. intros [Hc|[Hc|Hc]]; [| |by apply Hrest].
  - destruct (is_capitalized (strip_punctuation w)) eqn:Hcap; [|inversion Hc].
    apply list_elem_of_singleton in Hc as ->. left.
    exists w. split; [left|done].
  - destruct rest as [|next rest]; [inversion Hc|].
    destruct (is_capitalized (strip_punctuation w)) eqn:Hcap; [|inversion Hc].
    destruct (is_capitalized next) eqn:Hnext; [|inversion Hc].
    apply list_elem_of_singleton in Hc as ->. right.
    by exists 0%nat, w, next.
Qed.

End GeoFacts.

Section GeoProperties.
Import GeoAnalyzer.

(** C8, amended. The geo tagger sets no location on an event that has
    none, carries no explicit lat/lng and no Twitter geo metadata, whose
    subreddit (a Reddit event carries one) is not "r/" followed by a name
    of the gazetteer, that has no location entity that brings its own
    lat/lng or whose name is in the gazetteer, and whose content has no
    capitalised word of three characters or more, alone or joined to a
    capitalised word that follows it, that is in the gazetteer: in every
    batch the tagger returns, the event stands at its position as it
    was, without location. The loop body returns the event as it is; it
    throws, and the batch with it, only on a subreddit that is no
    string. *)
Theorem enhanceEventsWithGeoData_never_fabricates
    (config : GeoAnalysisConfig) (parseFloat : JsVal → JsVal)
    (event : TimelineEvent) :
  TimelineEvent.location event = None →
  has_explicit_coordinates event = false →
  has_twitter_geo event = false →
  (∀ s, TimelineEvent.platform event = reddit →
        obj_get (TimelineEvent.metadata event) "subreddit" = JStr s →
        startsWith "r/" (toLowerCase s) = true →
        lookupLocationByName (substring_from 2 (toLowerCase s)) = None) →
  (∀ entity, entity ∈ default [] (TimelineEvent.entities event) →
             Entity.type entity = "location" →
             entity_has_coordinates entity = false
             ∧ lookupLocationByName (Entity.text entity) = None) →
  (∀ w, w ∈ split_ws (TimelineEvent.content event) →
        (3 ≤ String.length (strip_punctuation w))%nat →
        is_capitalized (strip_punctuation w) = true →
        lookupLocationByName (strip_punctuation w) = None) →
  (∀ i w next,
     split_ws (TimelineEvent.content event) !! i = Some w →
     split_ws (TimelineEvent.content event) !! S i = Some next →
     (3 ≤ String.length (strip_punctuation w))%nat →
     is_capitalized (strip_punctuation w) = true →
     is_capitalized next = true →
     lookupLocationByName (strip_punctuation w +:+ " " +:+ next) = None) →
  (∀ events i out,
     events !! i = Some event →
     outcome (enhanceEventsWithGeoData config parseFloat events) = Ok out →
     out !! i = Some event
     ∧ TimelineEvent.location <$> out !! i = Some None)
  ∧ ((TimelineEvent.platform event = reddit →
      truthy (obj_get (TimelineEvent.metadata event) "subreddit") = true →
      ∃ s, obj_get (TimelineEvent.metadata event) "subreddit" = JStr s) →
     enhance config parseFloat event = ret event).
Proof.
  intros Hloc Hcoord Htw Hsub Hent Hword Hpair.
  assert (extractLocationFromContent event = None) as Hcontent.
  { unfold extractLocationFromContent.
    destruct (String.eqb _ ""); [reflexivity|].
    apply first_known_None, Forall_forall. intros c Hc.
    apply potential_from_elem in Hc
      as [(w & Hw & Hlen & Hcap & ->)|(i & w & next & Hi & Hn & Hlen & Hcap & Hnext & ->)].
    - by apply Hword.
    - by apply (Hpair i). }
  assert ((∀ o, outcome (enhance config parseFloat event) = Ok o → o = event)
          ∧ ((TimelineEvent.platform event = reddit →
              truthy (obj_get (TimelineEvent.metadata event) "subreddit") = true →
              ∃ s, obj_get (TimelineEvent.metadata event) "subreddit" = JStr s) →
             enhance config parseFloat event = ret event)) as [Hbody Hret].
  { unfold enhance. rewrite Hloc.
    destruct (extractLocationFromMetadata_subreddit parseFloat event Hcoord Htw Hsub)
      as [->|(Hreddit & Htruthy & Hnostring & error & ->)].
    - cbv [bind ret]. cbv beta iota.
      rewrite (extractLocationFromEntities_None config event Hent), Hcontent.
      split; [by intros o [= <-]|done].
    - split; [done|]. intros Hstring.
      destruct (Hstring Hreddit Htruthy) as [s Hs]. by destruct (Hnostring s). }
  split; [|exact Hret].
  intros events i out Hi. unfold enhanceEventsWithGeoData.
  assert (out !! i = Some event → out !! i = Some event
          ∧ TimelineEvent.location <$> out !! i = Some None) as Hboth.
  { intros ->. split; [reflexivity|]. cbn [fmap option_fmap option_map].
    by rewrite Hloc. }
  destruct (negb (enabled config)).
  - intros [= <-]. by apply Hboth.
  - intros Hout%mapM_outcome_Forall2. apply Hboth.
    destruct (Forall2_lookup_r _ _ _ _ _ Hout Hi) as (o & Ho & Heq).
    apply Hbody in Heq as ->. exact Ho.
Qed.

(** A Reddit post as the adapter builds it, set beside an event that
    names a city: the city is tagged, the Reddit post is returned as it
    was, although it carries a subreddit. *)
Lemma enhanceEventsWithGeoData_never_fabricates_witness :
  has_reddit_subreddit GeoSamples.reddit_plain = true
  ∧ outcome (enhanceEventsWithGeoData GeoSamples.config GeoSamples.parseFloat
               [GeoSamples.from_paris; GeoSamples.reddit_plain])
    = Ok [TimelineEvent.with_location GeoSamples.paris GeoSamples.from_paris;
          GeoSamples.reddit_plain]
  ∧ [TimelineEvent.with_location GeoSamples.paris GeoSamples.from_paris;
     GeoSamples.reddit_plain] !! 1%nat = Some GeoSamples.reddit_plain
  ∧ enhance GeoSamples.config GeoSamples.parseFloat GeoSamples.reddit_plain
    = ret GeoSamples.reddit_plain.
Proof.
  assert (outcome (enhanceEventsWithGeoData GeoSamples.config GeoSamples.parseFloat
                     [GeoSamples.from_paris; GeoSamples.reddit_plain])
          = Ok [TimelineEvent.with_location GeoSamples.paris GeoSamples.from_paris;
                GeoSamples.reddit_plain]) as Hrun by (vm_compute; reflexivity).
  split; [vm_compute; reflexivity|]. split; [exact Hrun|].
  assert (∀ s, TimelineEvent.platform GeoSamples.reddit_plain = reddit →
               obj_get (TimelineEvent.metadata GeoSamples.reddit_plain) "subreddit"
               = JStr s →
               startsWith "r/" (toLowerCase s) = true →
               lookupLocationByName (substring_from 2 (toLowerCase s)) = None)
    as Hsub.
  { intros s _ Hs Hprefix. vm_compute in Hs. injection Hs as <-.
    vm_compute in Hprefix. discriminate Hprefix. }
  assert (∀ w, w ∈ split_ws (TimelineEvent.content GeoSamples.reddit_plain) →
               (3 ≤ String.length (strip_punctuation w))%nat →
               is_capitalized (strip_punctuation w) = true →
               lookupLocationByName (strip_punctuation w) = None) as Hword.
  { intros w Hw _ _. vm_compute in Hw.
    repeat (apply elem_of_cons in Hw as [->|Hw]; [vm_compute; reflexivity|]).
    inversion Hw. }
  assert (∀ i w next,
            split_ws (TimelineEvent.content GeoSamples.reddit_plain) !! i = Some w →
            split_ws (TimelineEvent.content GeoSamples.reddit_plain) !! S i
            = Some next →
            (3 ≤ String.length (strip_punctuation w))%nat →
            is_capitalized (strip_punctuation w) = true →
            is_capitalized next = true →
            lookupLocationByName (strip_punctuation w +:+ " " +:+ next) = None)
    as Hpair.
  { intros i w next Hi Hn _ _ _.
    do 4 (destruct i as [|i];
          [vm_compute in Hi, Hn; first [discriminate Hn
             | injection Hi as <-; injection Hn as <-; vm_compute; reflexivity]|]).
    vm_compute in Hi. discriminate Hi. }
  destruct (enhanceEventsWithGeoData_never_fabricates
              GeoSamples.config GeoSamples.parseFloat GeoSamples.reddit_plain
              eq_refl eq_refl eq_refl Hsub
              (λ entity Hin, match elem_of_nil entity with
                             | conj f _ => False_ind _ (f Hin) end)
              Hword Hpair) as [Hbatch Hbody].
  split.
  - exact (proj1 (Hbatch [GeoSamples.from_paris; GeoSamples.reddit_plain] 1%nat _
                    eq_refl Hrun)).
  - apply Hbody. intros _ _. by exists "programming".
Defined.

(** C8 as worded fails: an event without location, without geo metadata,
    whose only location entity has a name unknown to the gazetteer and
    whose content is empty, still gets a location, because the entity
    brings its own lat/lng. *)
Lemma enhanceEventsWithGeoData_entity_coordinates :
  TimelineEvent.location GeoSamples.atlantis = None
  ∧ has_explicit_coordinates GeoSamples.atlantis = false
  ∧ has_twitter_geo GeoSamples.atlantis = false
  ∧ has_reddit_subreddit GeoSamples.atlantis = false
  ∧ (∀ entity, entity ∈ default [] (TimelineEvent.entities GeoSamples.atlantis) →
               lookupLocationByName (Entity.text entity) = None)
  ∧ potentialLocations (TimelineEvent.content GeoSamples.atlantis) = []
  ∧ outcome (enhanceEventsWithGeoData GeoSamples.config GeoSamples.parseFloat
               [GeoSamples.atlantis])
    = Ok [TimelineEvent.with_location GeoSamples.atlantis_location
            GeoSamples.atlantis].
Proof.
  repeat split; try (vm_compute; reflexivity).
  intros entity Hin.
  change (entity ∈ [GeoSamples.atlantis_entity]) in Hin.
  apply list_elem_of_singleton in Hin as ->. vm_compute. reflexivity.
Qed.

End GeoProperties.

(** ** The edge collection of the network graph *)

Section JsMapFacts.
Context {V : Type}.
Implicit Types (m : list (string * V)) (k : string) (v : V).

Lemma JsMap_get_set_eq m k v : JsMap.get (JsMap.set m k v) k = Some v.
Proof.
  induction m as [|[k' v'] m IH]; simpl.
  - by rewrite String.eqb_refl.
  - destruct (String.eqb_spec k' k) as [->|Hne]; simpl.
    + by rewrite String.eqb_refl.
    + by destruct (String.eqb_spec k' k).
Qed.

Lemma JsMap_get_set_ne m k k' v :
  k ≠ k' → JsMap.get (JsMap.set m k v) k' = JsMap.get m k'.
Proof.
  intros Hne. induction m as [|[k0 v0] m IH]; simpl.
  - by destruct (String.eqb_spec k k').
  - destruct (String.eqb_spec k0 k) as [->|Hk0]; simpl.
    + by destruct (String.eqb_spec k k').
    + by rewrite IH.
Qed.

Lemma JsMap_get_None m k : JsMap.get m k = None ↔ k ∉ map fst m.
Proof.
  induction m as [|[k' v'] m IH]; simpl.
  - split; [intros _ H; inversion H|done].
  - rewrite not_elem_of_cons. destruct (String.eqb_spec k' k) as [->|Hne].
    + split; [done|]. by intros [? _].
    + rewrite IH. split; [by split|by intros [_ ?]].
Qed.

(** [set] keeps the keys, or appends the new one. *)
Lemma JsMap_set_keys m k v :
  map fst (JsMap.set m k v)
  = if JsMap.has m k then map fst m else map fst m ++ [k].
Proof.
  unfold JsMap.has. induction m as [|[k' v'] m IH]; simpl; [done|].
  destruct (String.eqb_spec k' k) as [->|Hne]; simpl; [done|].
  rewrite IH. by destruct (JsMap.get m k).
Qed.

Lemma JsMap_set_NoDup m k v :
  NoDup (map fst m) → NoDup (map fst (JsMap.set m k v)).
Proof.
  intros Hnd. rewrite JsMap_set_keys. unfold JsMap.has.
  destruct (JsMap.get m k) eqn:Hget; [done|].
  apply JsMap_get_None in Hget.
  apply NoDup_app. split; [done|]. split; [|apply NoDup_singleton].
  intros x Hx Hk. apply list_elem_of_singleton in Hk as ->. done.
Qed.

End JsMapFacts.

Section EdgeFacts.
Import NetworkAnalyzer.

Lemma sort_pair_comm (a b : string) : sort_pair a b = sort_pair b a.
Proof.
  unfold sort_pair, String.ltb. rewrite (String.compare_antisym b a).
  destruct (String.compare a b) eqn:Hab; simpl; try done.
  by apply String.compare_eq_iff in Hab as ->.
Qed.

(** The key does not depend on the order of the two endpoints. *)
Lemma edgeId_comm (a b t : string) : edgeId a b t = edgeId b a t.
Proof. unfold edgeId. by rewrite sort_pair_comm. Qed.

Lemma addOrUpdateEdge_NoDup (edges : Edges) a b t w p :
  NoDup (map fst edges) → NoDup (map fst (addOrUpdateEdge edges a b t w p)).
Proof.
  intros Hnd. unfold addOrUpdateEdge.
  destruct (JsMap.get edges (edgeId a b t)); by apply JsMap_set_NoDup.
Qed.

Lemma fold_discover_NoDup (ds : list Discovery) (edges : Edges) :
  NoDup (map fst edges) → NoDup (map fst (fold_left discover ds edges)).
Proof.
  revert edges. induction ds as [|d ds IH]; intros edges Hnd; simpl; [done|].
  apply IH. by apply addOrUpdateEdge_NoDup.
Qed.

(** Distinct keys: a key selects at most one entry. *)
Lemma NoDup_keys_at_most_one {V} (m : list (string * V)) (k : string) :
  NoDup (map fst m) → (length (filter (λ entry, fst entry = k) m) ≤ 1)%nat.
Proof.
  intros Hnd. destruct (decide (k ∈ map fst m)) as [Hin|Hout].
  - by rewrite (NoDup_key_filter_length fst m k).
  - rewrite (absent_key_filter_nil fst m k Hout). simpl. lia.
Qed.

(** One call: the weight under the call's key grows by the call's weight
    (from nothing when the key is new); other keys are untouched. *)
Lemma addOrUpdateEdge_weight (edges : Edges) a b t w p k :
  NetworkEdge.weight <$> JsMap.get (addOrUpdateEdge edges a b t w p) k
  = if decide (edgeId a b t = k)
    then Some (default 0 (NetworkEdge.weight <$> JsMap.get edges k) + w)
    else NetworkEdge.weight <$> JsMap.get edges k.
Proof.
  unfold addOrUpdateEdge. case_decide as Hk.
  - subst k. destruct (JsMap.get edges (edgeId a b t)) as [edge|];
      by rewrite JsMap_get_set_eq.
  - destruct (JsMap.get edges (edgeId a b t)) as [edge|];
      by rewrite JsMap_get_set_ne.
Qed.

Lemma discovered_weight_absent (ds : list Discovery) (k : string) :
  k ∉ map discovery_key ds → discovered_weight ds k = 0.
Proof.
  intros Hk. unfold discovered_weight.
  by rewrite (absent_key_filter_nil discovery_key ds k Hk).
Qed.

Lemma fold_discover_weight (ds : list Discovery) (edges : Edges) (k : string) :
  NetworkEdge.weight <$> JsMap.get (fold_left discover ds edges) k
  = if decide (k ∈ map discovery_key ds)
    then Some (default 0 (NetworkEdge.weight <$> JsMap.get edges k)
               + discovered_weight ds k)
    else NetworkEdge.weight <$> JsMap.get edges k.
Proof.
  revert edges. induction ds as [|d ds IH]; intros edges.
  - cbn [fold_left map].
    destruct (decide (k ∈ ([] : list string))) as [H|_]; [inversion H|done].
  - cbn [fold_left]. rewrite IH. unfold discover.
    rewrite addOrUpdateEdge_weight. fold (discovery_key d).
    unfold discovered_weight. cbn [map]. rewrite filter_cons.
    destruct (decide (discovery_key d = k)) as [Hd|Hd].
    + rewrite (decide_True (P := k ∈ discovery_key d :: _)) by (subst; left).
      cbn [map foldr default].
      destruct (decide (k ∈ map discovery_key ds)) as [Hin|Hout].
      * f_equal. fold (discovered_weight ds k). simpl. lia.
      * pose proof (discovered_weight_absent ds k Hout) as Hz.
        unfold discovered_weight in Hz. rewrite Hz. f_equal. lia.
    + destruct (decide (k ∈ map discovery_key ds)) as [Hin|Hout].
      * rewrite decide_True by (by right). done.
      * rewrite decide_False; [done|].
        intros [->|?]%elem_of_cons; done.
Qed.

(** A scalar already stored under the property's key becomes a
    two-element array. *)
Lemma merge_property_scalar (props : Obj) (k : string) (v v' : JsVal) :
  obj_get props k = v → is_scalar v = true →
  obj_get (merge_property props (k, v')) k = JArr [v; v'].
Proof.
  intros Hget Hscalar. unfold merge_property. rewrite Hget.
  assert (∀ o x, obj_get (obj_set o k x) k = x) as Hset.
  { induction o as [|[k0 v0] o IH]; intros x; simpl.
    - by rewrite String.eqb_refl.
    - destruct (String.eqb_spec k0 k) as [->|Hne]; simpl.
      + by rewrite String.eqb_refl.
      + destruct (String.eqb_spec k0 k); [done|]. apply IH. }
  destruct v; try discriminate Hscalar; apply Hset.
Qed.

End EdgeFacts.

Section CooccurrenceFacts.
Import NetworkAnalyzer.

Lemma entity_set_pair (x y : Entity.t) :
  Qle_bool (6 # 10) (Entity.confidence x) = true →
  Qle_bool (6 # 10) (Entity.confidence y) = true →
  entity_id x ≠ entity_id y →
  entity_set [x; y] = [entity_id x; entity_id y].
Proof.
  intros Hx Hy Hne. unfold entity_set. cbn [fold_left]. rewrite Hx, Hy.
  unfold JsMap.add, includes. cbn [existsb app].
  destruct (String.eqb_spec (entity_id y) (entity_id x)) as [Heq|_]; [congruence|].
  reflexivity.
Qed.

(** The same pair of entities in two events gives one [cooccurs_with]
    edge of weight 2, whichever order the entities come in. *)
Lemma cooccurrence_two_events (e1 e2 : TimelineEvent) (x y : Entity.t) :
  TimelineEvent.id e1 ≠ TimelineEvent.id e2 →
  TimelineEvent.entities e1 = Some [x; y] →
  TimelineEvent.entities e2 = Some [x; y] ∨ TimelineEvent.entities e2 = Some [y; x] →
  Qle_bool (6 # 10) (Entity.confidence x) = true →
  Qle_bool (6 # 10) (Entity.confidence y) = true →
  entity_id x ≠ entity_id y →
  processEntityCooccurrences [e1; e2] []
  = [(edgeId (entity_id x) (entity_id y) "cooccurs_with",
      {| NetworkEdge.source := entity_id x;
         NetworkEdge.target := entity_id y;
         NetworkEdge.type := "cooccurs_with";
         NetworkEdge.weight := 2;
         NetworkEdge.properties :=
           [("eventId", JArr [JStr (TimelineEvent.id e1);
                              JStr (TimelineEvent.id e2)])] |})].
Proof.
  intros Hid H1 H2 Hx Hy Hne.
  assert (∃ a b, TimelineEvent.entities e2 = Some [a; b]
                 ∧ entity_set [a; b] = [entity_id a; entity_id b]
                 ∧ edgeId (entity_id a) (entity_id b) "cooccurs_with"
                   = edgeId (entity_id x) (entity_id y) "cooccurs_with")
    as (a & b & H2' & Hset2 & Hkey).
  { destruct H2 as [H2|H2].
    - exists x, y. split; [done|]. split; [by apply entity_set_pair|done].
    - exists y, x. split; [done|]. split; [by apply entity_set_pair|].
      apply edgeId_comm. }
  unfold processEntityCooccurrences, collect_entity_sets.
  cbn [fold_left]. rewrite H1, H2', Hset2, (entity_set_pair x y Hx Hy Hne).
  cbn [length Nat.ltb Nat.leb JsMap.set].
  destruct (String.eqb_spec (TimelineEvent.id e1) (TimelineEvent.id e2))
    as [Heq|_]; [congruence|].
  cbn [fold_left pairs map app fst snd].
  unfold addOrUpdateEdge at 2. cbn [JsMap.get JsMap.set].
  unfold addOrUpdateEdge. rewrite Hkey. cbn [JsMap.get].
  rewrite String.eqb_refl. cbn [JsMap.set]. rewrite String.eqb_refl.
  reflexivity.
Qed.

(** The co-occurrence pass keeps the keys of the collection distinct. *)
Lemma processEntityCooccurrences_NoDup (events : list TimelineEvent) (edges : Edges) :
  NoDup (map fst edges) →
  NoDup (map fst (processEntityCooccurrences events edges)).
Proof.
  unfold processEntityCooccurrences.
  generalize (collect_entity_sets events). intros entries. revert edges.
  induction entries as [|[eventId entitySet] entries IH]; intros edges Hnd;
    cbn [fold_left]; [done|].
  apply IH. generalize (pairs entitySet). intros ps. revert edges Hnd.
  induction ps as [|pair ps IHps]; intros edges Hnd; cbn [fold_left]; [done|].
  apply IHps. by apply addOrUpdateEdge_NoDup.
Qed.

End CooccurrenceFacts.

Section EdgeProperties.
Import NetworkAnalyzer.

(** C7. The edge key is built from the two endpoint keys sorted, so it is
    the same for (A, B) and (B, A); an edge collection filled by
    [addOrUpdateEdge] never holds two records under one key, hence at most
    one record for a pair of endpoints and an edge type, whatever the
    order of discovery; every further discovery adds its weight to that
    record, so a pair found once as (A, B) and once as (B, A) is one record
    carrying both weights, and one entity pair occurring in two events is
    one [cooccurs_with] edge of weight 2; a property that meets a scalar
    already stored under its name becomes the array of the two values. *)
Theorem addOrUpdateEdge_canonical_pair :
  (∀ a b t, edgeId a b t = edgeId b a t)
  ∧ (∀ ds events,
       NoDup (map fst (discover_all ds))
       ∧ NoDup (map fst (processEntityCooccurrences events (discover_all ds))))
  ∧ (∀ ds a b t,
       (length (filter (λ entry, fst entry = edgeId a b t) (discover_all ds)) ≤ 1)%nat
       ∧ filter (λ entry, fst entry = edgeId b a t) (discover_all ds)
         = filter (λ entry, fst entry = edgeId a b t) (discover_all ds))
  ∧ (∀ ds k,
       NetworkEdge.weight <$> JsMap.get (discover_all ds) k
       = if decide (k ∈ map discovery_key ds)
         then Some (discovered_weight ds k) else None)
  ∧ (∀ (edges : Edges) a b t w1 w2 p1 p2,
       JsMap.get edges (edgeId a b t) = None →
       NetworkEdge.weight <$>
         JsMap.get (addOrUpdateEdge (addOrUpdateEdge edges a b t w1 p1) b a t w2 p2)
                   (edgeId a b t)
       = Some (w1 + w2))
  ∧ (∀ (e1 e2 : TimelineEvent) (x y : Entity.t),
       TimelineEvent.id e1 ≠ TimelineEvent.id e2 →
       TimelineEvent.entities e1 = Some [x; y] →
       TimelineEvent.entities e2 = Some [x; y]
       ∨ TimelineEvent.entities e2 = Some [y; x] →
       Qle_bool (6 # 10) (Entity.confidence x) = true →
       Qle_bool (6 # 10) (Entity.confidence y) = true →
       entity_id x ≠ entity_id y →
       processEntityCooccurrences [e1; e2] []
       = [(edgeId (entity_id x) (entity_id y) "cooccurs_with",
           {| NetworkEdge.source := entity_id x;
              NetworkEdge.target := entity_id y;
              NetworkEdge.type := "cooccurs_with";
              NetworkEdge.weight := 2;
              NetworkEdge.properties :=
                [("eventId", JArr [JStr (TimelineEvent.id e1);
                                   JStr (TimelineEvent.id e2)])] |})])
  ∧ (∀ (props : Obj) k v v',
       obj_get props k = v → is_scalar v = true →
       obj_get (merge_property props (k, v')) k = JArr [v; v']).
Proof.
  split; [exact edgeId_comm|].
  split.
  { intros ds events.
    assert (NoDup (map fst (discover_all ds))) as Hnd
      by (apply fold_discover_NoDup; constructor).
    split; [done|]. by apply processEntityCooccurrences_NoDup. }
  split.
  { intros ds a b t. split.
    - apply NoDup_keys_at_most_one, fold_discover_NoDup. constructor.
    - by rewrite (edgeId_comm b a t). }
  split.
  { intros ds k. unfold discover_all. rewrite fold_discover_weight.
    cbn [JsMap.get fmap option_fmap option_map default].
    by destruct (decide (k ∈ map discovery_key ds)). }
  split.
  { intros edges a b t w1 w2 p1 p2 Hnew.
    rewrite addOrUpdateEdge_weight, (edgeId_comm b a t), decide_True by done.
    rewrite addOrUpdateEdge_weight, decide_True by done.
    rewrite Hnew. cbn [fmap option_fmap option_map default].
    by rewrite Z.add_0_l. }
  split; [exact cooccurrence_two_events|exact merge_property_scalar].
Qed.

Lemma addOrUpdateEdge_canonical_pair_witness :
  processEntityCooccurrences [NetSamples.first_event; NetSamples.second_event] []
  = [("entity:organization:Acme|cooccurs_with|entity:person:Ada Lovelace",
      {| NetworkEdge.source := "entity:organization:Acme";
         NetworkEdge.target := "entity:person:Ada Lovelace";
         NetworkEdge.type := "cooccurs_with";
         NetworkEdge.weight := 2;
         NetworkEdge.properties := [("eventId", JArr [JStr "e1"; JStr "e2"])] |})].
Proof.
  destruct addOrUpdateEdge_canonical_pair as (_ & _ & _ & _ & _ & Hpair & _).
  apply (Hpair NetSamples.first_event NetSamples.second_event
           NetSamples.acme NetSamples.ada).
  - vm_compute. discriminate.
  - reflexivity.
  - right. reflexivity.
  - reflexivity.
  - reflexivity.
  - vm_compute. discriminate.
Defined.

(** A pair discovered in both orders, then a third time, evaluated. *)
Example discover_all_sample :
  discover_all
    [ {| d_source := "user:bob"; d_target := "entity:hashtag:#rocq";
         d_type := "mentioned"; d_weight := 1;
         d_properties := [("timestamp", JStr "t1")] |};
      {| d_source := "entity:hashtag:#rocq"; d_target := "user:bob";
         d_type := "mentioned"; d_weight := 1;
         d_properties := [("timestamp", JStr "t2")] |};
      {| d_source := "user:bob"; d_target := "entity:hashtag:#rocq";
         d_type := "mentioned"; d_weight := 1;
         d_properties := [("timestamp", JStr "t3")] |} ]
  = [("entity:hashtag:#rocq|mentioned|user:bob",
      {| NetworkEdge.source := "user:bob";
         NetworkEdge.target := "entity:hashtag:#rocq";
         NetworkEdge.type := "mentioned";
         NetworkEdge.weight := 3;
         NetworkEdge.properties :=
           [("timestamp", JArr [JStr "t1"; JStr "t2"; JStr "t3"])] |})].
Proof. vm_compute. reflexivity. Qed.

End EdgeProperties.

(* ===================================================================== *)
(** * Part III: further properties of the embedded code *)
(* ===================================================================== *)

(** ** [simpleHash] *)

Section HashFacts.
Import TimelineProcessor TimelineQueries.

Lemma to_int32_range (z : Z) : - 2 ^ 31 ≤ to_int32 z < 2 ^ 31.
Proof.
  unfold to_int32. pose proof (Z.mod_pos_bound (z + 2 ^ 31) (2 ^ 32)). lia.
Qed.

Lemma to_int32_mod (z : Z) : to_int32 z mod 2 ^ 32 = z mod 2 ^ 32.
Proof.
  unfold to_int32.
  rewrite Zminus_mod, Z.mod_mod, <- Zminus_mod by lia.
  f_equal. lia.
Qed.

Lemma to_int32_congr (a b : Z) :
  a mod 2 ^ 32 = b mod 2 ^ 32 → to_int32 a = to_int32 b.
Proof.
  intros H. unfold to_int32.
  rewrite (Zplus_mod a), (Zplus_mod b), H. reflexivity.
Qed.

(** One turn of the loop, modulo 2^32, is [hash * 31 + char]. *)
Lemma simpleHash_step (hash char : Z) :
  and32 (shl32 hash 5 - hash + char) (shl32 hash 5 - hash + char)
  = to_int32 (hash * 31 + char).
Proof.
  unfold and32. rewrite Z.land_diag.
  apply to_int32_congr. rewrite to_int32_mod.
  unfold shl32. rewrite Z.shiftl_mul_pow2 by lia.
  rewrite Zplus_mod, Zminus_mod, to_int32_mod.
  rewrite (Zmult_mod (to_int32 hash)), to_int32_mod, <- Zmult_mod.
  rewrite <- Zminus_mod, <- Zplus_mod. f_equal. lia.
Qed.

Lemma simpleHash_from_poly (str : string) (hash hash' : Z) :
  hash mod 2 ^ 32 = hash' mod 2 ^ 32 →
  simpleHash_from hash str mod 2 ^ 32 = poly31_from hash' str mod 2 ^ 32.
Proof.
  revert hash hash'. induction str as [|c str IH]; intros hash hash' H.
  - exact H.
  - cbn [simpleHash_from poly31_from]. cbv zeta. apply IH.
    rewrite simpleHash_step, to_int32_mod.
    rewrite Zplus_mod, Zmult_mod, H, <- Zmult_mod, <- Zplus_mod. reflexivity.
Qed.

Lemma simpleHash_from_int32 (str : string) (hash : Z) :
  - 2 ^ 31 ≤ hash < 2 ^ 31 → - 2 ^ 31 ≤ simpleHash_from hash str < 2 ^ 31.
Proof.
  revert hash. induction str as [|c str IH]; intros hash H; [exact H|].
  cbn [simpleHash_from]. cbv zeta. apply IH.
  rewrite simpleHash_step. apply to_int32_range.
Qed.

Lemma to_int32_id (z : Z) : - 2 ^ 31 ≤ z < 2 ^ 31 → to_int32 z = z.
Proof.
  intros H. unfold to_int32. rewrite Z.mod_small by lia. lia.
Qed.

(** X1. [simpleHash] is the polynomial hash with multiplier 31 on the code
    units, wrapped to a signed 32-bit integer: the shift-and-subtract of
    the loop is a multiplication by 31, and the result always lies in
    [-2^31, 2^31). *)
Theorem simpleHash_polynomial (str : string) :
  simpleHash str = to_int32 (poly31_from 0 str)
  ∧ - 2 ^ 31 ≤ simpleHash str < 2 ^ 31.
Proof.
  assert (- 2 ^ 31 ≤ simpleHash str < 2 ^ 31) as Hrange
    by (apply simpleHash_from_int32; lia).
  split; [|exact Hrange].
  rewrite <- (to_int32_id (simpleHash str) Hrange).
  apply to_int32_congr. by apply simpleHash_from_poly.
Qed.

End HashFacts.

(** ** More on the deduplicator, the normalizer and the sort *)

Section PipelineFacts.
Import TimelineProcessor.

Lemma deduplicate_from_sublist (seen : gset DedupKey) (events : list TimelineEvent) :
  sublist (deduplicate_from seen events) events.
Proof.
  revert seen. induction events as [|e events IH]; intros seen; cbn [deduplicate_from].
  - constructor.
  - case_decide; [apply sublist_cons|apply sublist_skip]; apply IH.
Qed.

Lemma deduplicate_from_app (seen : gset DedupKey) (l1 l2 : list TimelineEvent) :
  deduplicate_from seen (l1 ++ l2)
  = deduplicate_from seen l1
    ++ deduplicate_from (list_to_set (map dedupeKey l1) ∪ seen) l2.
Proof.
  revert seen. induction l1 as [|e l1 IH]; intros seen; cbn [app map deduplicate_from].
  - f_equal. set_solver.
  - case_decide as Hin.
    + rewrite IH. f_equal. f_equal. set_solver.
    + cbn [app]. f_equal. rewrite IH. f_equal. f_equal. set_solver.
Qed.

(** X2. [deduplicateEvents] only removes: its output is a subsequence of
    its input (no event is invented, changed or moved), and the loop is
    incremental: an event appended to the input is appended to the output
    exactly when no earlier event has its fingerprint, so of several events
    with one fingerprint the first is the one kept. *)
Theorem deduplicateEvents_keeps_first (events : list TimelineEvent) (event : TimelineEvent) :
  sublist (deduplicateEvents events) events
  ∧ deduplicateEvents (events ++ [event])
    = deduplicateEvents events
      ++ (if decide (dedupeKey event ∈ map dedupeKey events) then [] else [event])
  ∧ (∀ k, k ∈ map dedupeKey (deduplicateEvents events) ↔ k ∈ map dedupeKey events).
Proof.
  split; [apply deduplicate_from_sublist|]. split.
  - unfold deduplicateEvents. rewrite deduplicate_from_app. f_equal.
    cbn [deduplicate_from].
    generalize (dedupeKey event) (map dedupeKey events). intros k ks.
    destruct (decide (k ∈ ks)) as [Hin|Hout].
    + rewrite decide_True; [done|].
      by apply elem_of_union_l, elem_of_list_to_set.
    + rewrite decide_False; [done|].
      intros [?%elem_of_list_to_set|?%elem_of_empty]%elem_of_union; done.
  - intros k. unfold deduplicateEvents. rewrite deduplicate_from_keys.
    split; [by intros [? _]|]. intros Hk. split; [done|]. apply not_elem_of_empty.
Qed.

(** Mapping a function that the comparator does not see commutes with the
    sort. *)
Lemma sort_map {A} (cmp : A → A → Z) (f : A → A) (l : list A) :
  (∀ a b, cmp (f a) (f b) = cmp a b) →
  Js.sort cmp (map f l) = map f (Js.sort cmp l).
Proof.
  intros Hf.
  assert (∀ x l, Js.sort_insert cmp (f x) (map f l) = map f (Js.sort_insert cmp x l))
    as Hins.
  { intros x l'. induction l' as [|y l' IH]; cbn [map Js.sort_insert]; [done|].
    rewrite Hf. destruct (cmp x y <=? 0); [done|]. cbn [map]. by rewrite IH. }
  induction l as [|x l IH]; cbn [map Js.sort]; [done|]. by rewrite IH, Hins.
Qed.

(** X3. [normalizeTimestamps] re-expresses and nothing more: it keeps the
    number and the instants of the events, normalizing twice is normalizing
    to the last zone, and it commutes with [sortEventsByTimestamp], which
    looks at instants only. *)
Theorem normalizeTimestamps_composes (z1 z2 : Zone) (events : list TimelineEvent) :
  length (normalizeTimestamps z1 events) = length events
  ∧ map millis (normalizeTimestamps z1 events) = map millis events
  ∧ Forall (λ e, zone (TimelineEvent.timestamp e) = z1) (normalizeTimestamps z1 events)
  ∧ normalizeTimestamps z2 (normalizeTimestamps z1 events)
    = normalizeTimestamps z2 events
  ∧ sortEventsByTimestamp (normalizeTimestamps z1 events)
    = normalizeTimestamps z1 (sortEventsByTimestamp events).
Proof.
  unfold normalizeTimestamps. split; [apply length_map|].
  split; [by rewrite map_map|].
  split; [apply Forall_forall; intros e (e' & -> & _)%list_elem_of_fmap; done|].
  split; [by rewrite map_map|].
  unfold sortEventsByTimestamp. by apply sort_map.
Qed.

(** A list that is already in order is left as it is. *)
Lemma sort_sorted_id {A} (cmp : A → A → Z) (key : A → Z) (l : list A) :
  (∀ a b, cmp a b ≤ 0 ↔ key a ≤ key b) →
  StronglySorted (λ a b, key a ≤ key b) l → Js.sort cmp l = l.
Proof.
  intros Hcmp. induction 1 as [|x l Hl IH Hx]; cbn [Js.sort]; [done|].
  rewrite IH. destruct l as [|y l]; [done|]. cbn [Js.sort_insert].
  apply Forall_cons in Hx as [Hxy _].
  by rewrite (proj2 (Z.leb_le _ _) (proj2 (Hcmp x y) Hxy)).
Qed.

(** X4. [sortEventsByTimestamp] leaves a list that is already ascending
    untouched, so sorting twice is sorting once; and it keeps a
    deduplicated list deduplicated. *)
Theorem sortEventsByTimestamp_idempotent (events : list TimelineEvent) :
  (StronglySorted (λ a b, millis a ≤ millis b) events →
   sortEventsByTimestamp events = events)
  ∧ sortEventsByTimestamp (sortEventsByTimestamp events) = sortEventsByTimestamp events
  ∧ (NoDup (map dedupeKey events) →
     NoDup (map dedupeKey (sortEventsByTimestamp events))).
Proof.
  assert (∀ a b : TimelineEvent,
            toMillis (TimelineEvent.timestamp a) - toMillis (TimelineEvent.timestamp b) ≤ 0
            ↔ millis a ≤ millis b) as Hasc by (unfold millis; intros; lia).
  unfold sortEventsByTimestamp. split; [by apply sort_sorted_id|]. split.
  - apply (sort_sorted_id _ millis); [done|]. by apply sort_sorted.
  - intros Hnd. by rewrite (Permutation_map dedupeKey (sort_Permutation _ events)).
Qed.

Lemma sortEventsByTimestamp_idempotent_witness :
  sortEventsByTimestamp [Samples.push1; Samples.push2; Samples.tweet]
  = [Samples.push1; Samples.push2; Samples.tweet].
Proof.
  apply (proj1 (sortEventsByTimestamp_idempotent
                  [Samples.push1; Samples.push2; Samples.tweet])).
  unfold millis. repeat constructor; vm_compute; discriminate.
Defined.

End PipelineFacts.

(** ** [getStats] *)

Section StatsFacts.
Import TimelineQueries.

Lemma count_up_get (counts : list (string * Z)) (k k' : string) :
  JsMap.get (count_up counts k) k'
  = if decide (k = k') then Some (default 0 (JsMap.get counts k') + 1)
    else JsMap.get counts k'.
Proof.
  unfold count_up. case_decide as Hk.
  - subst. apply JsMap_get_set_eq.
  - by apply JsMap_get_set_ne.
Qed.

Lemma set_total (counts : list (string * Z)) (k : string) (v : Z) :
  total (JsMap.set counts k v) = total counts - default 0 (JsMap.get counts k) + v.
Proof.
  unfold total. induction counts as [|[k' v'] counts IH]; cbn; [lia|].
  destruct (String.eqb k' k); cbn; lia.
Qed.

Lemma count_up_total (counts : list (string * Z)) (k : string) :
  total (count_up counts k) = total counts + 1.
Proof. unfold count_up. rewrite set_total. lia. Qed.

Lemma count_up_NoDup (counts : list (string * Z)) (k : string) :
  NoDup (map fst counts) → NoDup (map fst (count_up counts k)).
Proof. apply JsMap_set_NoDup. Qed.

Section CountBy.
Context {A : Type} (key : A → string).

Lemma fold_count_get (events : list A) (counts : list (string * Z)) k :
  JsMap.get (fold_left (λ c e, count_up c (key e)) events counts) k
  = let n := length (filter (λ e, key e = k) events) in
    if decide (n = 0%nat) then JsMap.get counts k
    else Some (default 0 (JsMap.get counts k) + Z.of_nat n).
Proof.
  revert counts. induction events as [|e events IH]; intros counts; [done|].
  cbn [fold_left]. rewrite IH. cbv zeta. rewrite filter_cons, count_up_get.
  destruct (decide (key e = k)) as [Hk|Hk]; cbn [length]; [|done].
  generalize (length (filter (λ e, key e = k) events)). intros n'.
  rewrite (decide_False (P := S n' = 0%nat)) by lia.
  destruct (decide (n' = 0%nat)) as [Hn|Hn]; cbn [default]; unfold id;
    f_equal; lia.
Qed.

Lemma fold_count_total (events : list A) (counts : list (string * Z)) :
  total (fold_left (λ c e, count_up c (key e)) events counts)
  = total counts + Z.of_nat (length events).
Proof.
  revert counts. induction events as [|e events IH]; intros counts; cbn [fold_left length].
  - lia.
  - rewrite IH, count_up_total. lia.
Qed.

Lemma fold_count_NoDup (events : list A) (counts : list (string * Z)) :
  NoDup (map fst counts) →
  NoDup (map fst (fold_left (λ c e, count_up c (key e)) events counts)).
Proof.
  revert counts. induction events as [|e events IH]; intros counts Hnd; [done|].
  cbn [fold_left]. by apply IH, count_up_NoDup.
Qed.

End CountBy.

(** The histogram of a key: one entry per key that occurs, holding the
    number of events with that key; the entries add up to the number of
    events. *)
Lemma count_by_histogram (key : TimelineEvent → string) (events : list TimelineEvent) :
  NoDup (map fst (count_by key events))
  ∧ total (count_by key events) = Z.of_nat (length events)
  ∧ ∀ k, JsMap.get (count_by key events) k
         = let n := length (filter (λ e, key e = k) events) in
           if decide (n = 0%nat) then None else Some (Z.of_nat n).
Proof.
  unfold count_by. split; [apply fold_count_NoDup; constructor|].
  split; [by rewrite fold_count_total|].
  intros k. rewrite fold_count_get. cbv zeta. cbn [JsMap.get default].
  by case_decide.
Qed.


Lemma platform_name_inj : Inj (=) (=) platform_name.
Proof. intros [] []; simpl; intros H; try reflexivity; discriminate H. Qed.

Lemma category_name_inj : Inj (=) (=) category_name.
Proof. intros [] []; simpl; intros H; try reflexivity; discriminate H. Qed.

Lemma filter_key_inj {K} `{EqDecision K} (name : K → string) (f : TimelineEvent → K)
    (events : list TimelineEvent) (k : K) :
  Inj (=) (=) name →
  filter (λ e, name (f e) = name k) events = filter (λ e, f e = k) events.
Proof.
  intros Hinj. induction events as [|e events IH]; [done|].
  rewrite !filter_cons, IH.
  destruct (decide (f e = k)) as [->|Hne].
  - by rewrite decide_True.
  - rewrite decide_False; [done|]. intros H. by apply Hinj in H.
Qed.

(** X5. The two histograms of [getStats] are exact: the count recorded for
    a platform (a category) is the number of events of that platform
    (category), a platform without events has no entry, each histogram has
    one entry per name, and its entries add up to [totalEvents]. *)
Theorem getStats_histograms (events : list TimelineEvent) :
  let stats := getStats events in
  (∀ p, JsMap.get (Stats.platformCounts stats) (platform_name p)
        = let n := length (filter (λ e, TimelineEvent.platform e = p) events) in
          if decide (n = 0%nat) then None else Some (Z.of_nat n))
  ∧ (∀ c, JsMap.get (Stats.categoryCounts stats) (category_name c)
          = let n := length (filter (λ e, TimelineEvent.category e = c) events) in
            if decide (n = 0%nat) then None else Some (Z.of_nat n))
  ∧ total (Stats.platformCounts stats) = Z.of_nat (Stats.totalEvents stats)
  ∧ total (Stats.categoryCounts stats) = Z.of_nat (Stats.totalEvents stats)
  ∧ NoDup (map fst (Stats.platformCounts stats))
  ∧ NoDup (map fst (Stats.categoryCounts stats)).
Proof.
  cbv zeta. unfold getStats.
  cbn [Stats.platformCounts Stats.categoryCounts Stats.totalEvents].
  pose proof (count_by_histogram
                (λ e, platform_name (TimelineEvent.platform e)) events)
    as (Hnd1 & Htot1 & Hget1).
  pose proof (count_by_histogram
                (λ e, category_name (TimelineEvent.category e)) events)
    as (Hnd2 & Htot2 & Hget2).
  split.
  { intros p. rewrite Hget1. cbv zeta.
    by rewrite (filter_key_inj platform_name TimelineEvent.platform events p
                  platform_name_inj). }
  split.
  { intros c. rewrite Hget2. cbv zeta.
    by rewrite (filter_key_inj category_name TimelineEvent.category events c
                  category_name_inj). }
  done.
Qed.

End StatsFacts.

Section RangeFacts.
Import TimelineQueries.




End RangeFacts.

Section GroupFacts.
Import TimelineQueries.

#[local] Abbreviation day_of event := (toISODate (TimelineEvent.timestamp event)).

Lemma group_get_None (grouped : GroupedTimelineEvents) (k : Z) :
  group_get grouped k = None ↔ k ∉ map fst grouped.
Proof.
  induction grouped as [|[k' g] grouped IH]; cbn [group_get map fst].
  - split; [intros _ H; inversion H|done].
  - rewrite not_elem_of_cons. destruct (Z.eqb_spec k' k) as [->|Hne].
    + split; [done|]. by intros [[] _].
    + rewrite IH. split; [by split; [congruence|]|by intros [_ ?]].
Qed.

Lemma group_get_app (grouped : GroupedTimelineEvents) (k k' : Z) (g : DateGroup.t) :
  group_get (grouped ++ [(k, g)]) k' =
  match group_get grouped k' with
  | Some x => Some x
  | None => if k =? k' then Some g else None
  end.
Proof.
  induction grouped as [|[k0 g0] grouped IH]; cbn [group_get app]; [done|].
  by destruct (k0 =? k').
Qed.

Lemma group_push_keys (grouped : GroupedTimelineEvents) (k : Z) (e : TimelineEvent) :
  map fst (group_push grouped k e) = map fst grouped.
Proof.
  induction grouped as [|[k0 g0] grouped IH]; cbn [group_push map fst]; [done|].
  destruct (k0 =? k); cbn [map fst]; [done|by rewrite IH].
Qed.

Lemma group_get_push (grouped : GroupedTimelineEvents) (k k' : Z) (e : TimelineEvent) :
  group_get (group_push grouped k e) k' =
  (λ g, if k =? k'
        then {| DateGroup.date := DateGroup.date g;
                DateGroup.events := DateGroup.events g ++ [e] |}
        else g) <$> group_get grouped k'.
Proof.
  induction grouped as [|[k0 g0] grouped IH]; cbn [group_push group_get]; [done|].
  destruct (Z.eqb_spec k0 k) as [->|Hne]; cbn [group_get].
  - destruct (Z.eqb_spec k k') as [->|Hne']; [done|].
    by destruct (group_get grouped k').
  - destruct (Z.eqb_spec k0 k') as [->|Hne']; [|apply IH].
    cbn. by destruct (Z.eqb_spec k k'); [congruence|].
Qed.

Lemma group_event_keys (grouped : GroupedTimelineEvents) (e : TimelineEvent) :
  map fst (group_event grouped e) =
  map fst grouped ++
  match group_get grouped (day_of e) with Some _ => [] | None => [day_of e] end.
Proof.
  unfold group_event. cbv zeta. rewrite group_push_keys.
  destruct (group_get grouped _); [by rewrite app_nil_r|].
  by rewrite map_app.
Qed.

Lemma group_event_get (grouped : GroupedTimelineEvents) (events : list TimelineEvent)
    (e : TimelineEvent) :
  (∀ k, group_get grouped k = group_of k events) →
  ∀ k, group_get (group_event grouped e) k = group_of k (events ++ [e]).
Proof.
  intros Hget k. unfold group_event. cbv zeta. rewrite group_get_push.
  unfold group_of. rewrite filter_app, filter_cons, filter_nil.
  destruct (group_get grouped (day_of e)) as [g|] eqn:Hday.
  - rewrite Hget. rewrite Hget in Hday. unfold group_of in Hday |- *.
    destruct (Z.eqb_spec (day_of e) k) as [<-|Hne].
    + rewrite decide_True by done.
      destruct (filter _ events) as [|f r]; [done|]. by cbn.
    + rewrite decide_False by done. rewrite app_nil_r.
      generalize (filter (λ e0, day_of e0 = k) events). by intros [].
  - rewrite group_get_app, Hget.
    rewrite Hget in Hday. unfold group_of in Hday |- *.
    destruct (Z.eqb_spec (day_of e) k) as [<-|Hne].
    + rewrite decide_True by done.
      destruct (filter _ events) as [|f r]; [by cbn|done].
    + rewrite decide_False by done. rewrite app_nil_r.
      generalize (filter (λ e0, day_of e0 = k) events). by intros [].
Qed.

Lemma groupEventsByDate_inv (events : list TimelineEvent) :
  NoDup (map fst (groupEventsByDate events))
  ∧ ∀ k, group_get (groupEventsByDate events) k = group_of k events.
Proof.
  unfold groupEventsByDate.
  induction events as [|e events [IHk IHg]] using rev_ind.
  - split; [constructor|done].
  - rewrite fold_left_app. cbn [fold_left]. split.
    + rewrite group_event_keys.
      destruct (group_get _ (day_of e)) eqn:Hday; [by rewrite app_nil_r|].
      apply NoDup_app. split; [done|]. split; [|apply NoDup_singleton].
      intros k Hk Hk'. apply list_elem_of_singleton in Hk' as ->.
      by apply group_get_None in Hday.
    + by apply group_event_get.
Qed.

Lemma startOf_day_local (d : DateTime) :
  localMillis (startOf_day d) = toISODate d * 86400000.
Proof.
  unfold startOf_day, toISODate, localMillis. cbn [ts zone].
  pose proof (Z.div_mod (ts d + 60000 * offsetMinutes (zone d)) 86400000
    ltac:(lia)). lia.
Qed.

(** X7. [groupEventsByDate] partitions the events by calendar day: a date
    is a key exactly when some event falls on it, no key is written
    twice, the group of a date holds all the events of that date and only
    those, in the order of the input, and its [date] is the midnight
    that opens that day in the zone of the group's first event. *)
Theorem groupEventsByDate_partition (events : list TimelineEvent) :
  let grouped := groupEventsByDate events in
  NoDup (map fst grouped)
  ∧ (∀ k, k ∈ map fst grouped ↔ ∃ e, e ∈ events ∧ day_of e = k)
  ∧ (∀ k g, group_get grouped k = Some g →
       DateGroup.events g = filter (λ e, day_of e = k) events
       ∧ (∃ first, head (DateGroup.events g) = Some first
                   ∧ DateGroup.date g = startOf_day (TimelineEvent.timestamp first))
       ∧ localMillis (DateGroup.date g) = k * 86400000).
Proof.
  cbv zeta. destruct (groupEventsByDate_inv events) as [Hk Hg].
  split; [done|]. split.
  - intros k. destruct (decide (k ∈ map fst (groupEventsByDate events))) as [Hin|Hout].
    + split; [intros _|done].
      destruct (group_get (groupEventsByDate events) k) eqn:Hget.
      2:{ by apply group_get_None in Hget. }
      rewrite Hg in Hget. unfold group_of in Hget.
      destruct (filter _ events) as [|f r] eqn:Hf; [done|].
      assert (f ∈ filter (λ e, day_of e = k) events) as Hfin by (rewrite Hf; left).
      apply list_elem_of_filter in Hfin as [? ?]. by exists f.
    + split; [done|]. intros (e & He & Hday).
      apply group_get_None in Hout. rewrite Hg in Hout. unfold group_of in Hout.
      assert (e ∈ filter (λ e, day_of e = k) events) as Hfin
        by by apply list_elem_of_filter.
      destruct (filter _ events); [inversion Hfin|done].
  - intros k g Hget. rewrite Hg in Hget. unfold group_of in Hget.
    destruct (filter _ events) as [|f r] eqn:Hf; [done|].
    injection Hget as <-. cbn [DateGroup.events DateGroup.date head].
    split; [done|]. split; [by exists f|].
    assert (f ∈ filter (λ e, day_of e = k) events) as Hfin by (rewrite Hf; left).
    apply list_elem_of_filter in Hfin as [<- _]. apply startOf_day_local.
Qed.

End GroupFacts.

(** ** One platform of [buildTimeline] *)

Section AdapterFacts.
Import TimelineProcessor.

Variable config : TimelineConfig.t.
Variable platformConfigs : PlatformConfigs.t.

#[local] Abbreviation rezone := (Run.rezone config).
#[local] Abbreviation target := (TimelineConfig.target config).
#[local] Abbreviation dateRange := (TimelineConfig.dateRange config).

Lemma select_ingester_console ingesters platform :
  console (select_ingester platformConfigs ingesters platform) = [].
Proof. unfold select_ingester. by repeat case_match. Qed.

Lemma select_ingester_throw ingesters platform error :
  outcome (select_ingester platformConfigs ingesters platform) = Throw error →
  platform ∈ [twitter; reddit; pastebin]
  ∧ ∀ other, select_ingester platformConfigs other platform = throw error.
Proof.
  unfold select_ingester.
  destruct platform; repeat case_match; intros [=]; subst;
    (split; [set_solver|done]).
Qed.

(** X8. What [processEvents] does once the adapter of a platform is
    built: a connection test that throws costs one warning and nothing
    else; the events [ingest] returns come back re-zoned; an [ingest]
    that throws is printed as one "Failed to process" line and
    re-thrown. *)
Theorem processEvents_transcript ingesters platform ingester :
  outcome (select_ingester platformConfigs ingesters platform) = Ok ingester →
  processEvents config platformConfigs ingesters platform
  = (console (testConnection ingester)
     ++ match outcome (testConnection ingester) with
        | Ok _ => []
        | Throw error =>
            [ConsoleWarn ("Warning: Connection test failed for "
                          +:+ platform_name platform +:+ ": " +:+ error)]
        end
     ++ console (ingest ingester target dateRange)
     ++ match outcome (ingest ingester target dateRange) with
        | Ok _ => []
        | Throw error => [Run.failure_line (platform, error)]
        end,
     match outcome (ingest ingester target dateRange) with
     | Ok events => Ok (map rezone events)
     | Throw error => Throw error
     end).
Proof.
  intros Hsel. unfold processEvents.
  pose proof (select_ingester_console ingesters platform) as Hcon.
  destruct (select_ingester platformConfigs ingesters platform) as [l r].
  cbn in Hsel, Hcon. subst l r. cbn [bind].
  destruct (testConnection ingester) as [w [[]|e]];
    destruct (ingest ingester target dateRange) as [c [events|e']];
    cbn [try_catch bind tell ret throw console outcome fst snd app];
    unfold Run.failure_line; cbn [fst snd];
    rewrite ?app_nil_r, <- ?app_assoc; reflexivity.
Qed.

(** X9. A platform whose credentials are missing is rejected before any
    adapter is built: [processEvents] prints one "Failed to process" line
    and re-throws, whatever the adapters would have done. Only Twitter,
    Reddit and Pastebin can be rejected this way; GitHub and RSS are
    always tried. *)
Theorem processEvents_missing_credentials ingesters platform error :
  outcome (select_ingester platformConfigs ingesters platform) = Throw error →
  platform ∈ [twitter; reddit; pastebin]
  ∧ ∀ other,
      processEvents config platformConfigs other platform
      = ([Run.failure_line (platform, error)], Throw error).
Proof.
  intros Hsel. apply select_ingester_throw in Hsel as [Hp Hany].
  split; [done|]. intros other. unfold processEvents. by rewrite Hany.
Qed.

End AdapterFacts.

Lemma processEvents_transcript_witness :
  TimelineProcessor.processEvents (SampleRuns.config [reddit]) SampleRuns.platformConfigs
    SampleRuns.ingesters reddit
  = ([ConsoleWarn "Warning: Connection test failed for reddit: Error: 401 Unauthorized";
      ConsoleError "Failed to process reddit: Error: 401 Unauthorized"],
     Throw "Error: 401 Unauthorized").
Proof.
  apply (processEvents_transcript (SampleRuns.config [reddit])
           SampleRuns.platformConfigs SampleRuns.ingesters reddit
           (SampleRuns.failing_ingester "Error: 401 Unauthorized")).
  vm_compute. reflexivity.
Defined.

Lemma processEvents_missing_credentials_witness :
  TimelineProcessor.processEvents (SampleRuns.config [pastebin]) SampleRuns.platformConfigs
    SampleRuns.ingesters pastebin
  = ([ConsoleError "Failed to process pastebin: Error: Pastebin API key is required"],
     Throw "Error: Pastebin API key is required").
Proof.
  apply (processEvents_missing_credentials (SampleRuns.config [pastebin])
           SampleRuns.platformConfigs SampleRuns.ingesters pastebin).
  vm_compute. reflexivity.
Defined.

(** ** The whole of [buildTimeline] *)

Lemma StronglySorted_map {A B} (R : B → B → Prop) (f : A → B) (l : list A) :
  StronglySorted R (map f l) ↔ StronglySorted (λ a b, R (f a) (f b)) l.
Proof.
  induction l as [|x l IH]; cbn [map]; [split; constructor|].
  split; intros H; apply StronglySorted_inv in H as [Hl Hx]; constructor;
    try (by apply IH).
  - exact (proj1 (Forall_fmap f (R (f x)) l) Hx).
  - exact (proj2 (Forall_fmap f (R (f x)) l) Hx).
Qed.

Lemma filter_map_key {A K} `{EqDecision K} (key : A → K) (f : A → A) (l : list A) k :
  (∀ a, key (f a) = key a) →
  filter (λ a, key a = k) (map f l) = map f (filter (λ a, key a = k) l).
Proof.
  intros Hkey. induction l as [|x l IH]; [done|].
  cbn [map]. rewrite !filter_cons, Hkey, IH. by destruct (decide (key x = k)).
Qed.

Lemma allSettled_console {A} (ps : list (M A)) :
  console (allSettled ps) = flat_map console ps.
Proof.
  induction ps as [|p ps IH]; [done|].
  cbn [allSettled flat_map]. rewrite console_bind. cbn [outcome snd].
  rewrite console_bind, IH.
  change (snd (allSettled ps)) with (outcome (allSettled ps)).
  rewrite allSettled_outcome. cbn [console ret fst]. by rewrite app_nil_r.
Qed.

Section TimelineFacts.
Import TimelineProcessor.

Variable config : TimelineConfig.t.
Variable platformConfigs : PlatformConfigs.t.
Variable ingesters : Ingesters.
Variable nlp_addDocument : TimelineEvent → result unit.
Variable nlp_analyse : list TimelineEvent → TimelineEvent → result JsVal.

#[local] Abbreviation rezone := (Run.rezone config).
#[local] Abbreviation delivered := (Run.delivered config platformConfigs ingesters).
#[local] Abbreviation platforms := (TimelineConfig.platforms config).
#[local] Abbreviation timeline :=
  (buildTimeline config platformConfigs ingesters nlp_addDocument nlp_analyse).
#[local] Abbreviation erase := (TimelineEvent.with_metadata []).

(** X10. Whatever the adapters deliver and whether or not the NLP
    pipeline runs, [buildTimeline] returns its events most recent first,
    and the events of one instant keep the order of their delivery: the
    order of the platforms in the configuration, then the order each
    adapter gave. Only [metadata] can differ from what was delivered. *)
Theorem buildTimeline_most_recent_first :
  ∃ events,
    outcome timeline = Ok events
    ∧ StronglySorted (λ a b, millis b ≤ millis a) events
    ∧ ∀ t, map erase (filter (λ e, millis e = t) events)
           = map erase (map rezone
                          (filter (λ e, millis e = t) (flat_map delivered platforms))).
Proof.
  destruct (buildTimeline_returns config platformConfigs ingesters
              nlp_addDocument nlp_analyse) as (events & Hout & Herase & _).
  exists events. split; [done|].
  set (cmp := λ a b : TimelineEvent,
         toMillis (TimelineEvent.timestamp b) - toMillis (TimelineEvent.timestamp a))
    in Herase.
  assert (∀ a b, cmp a b ≤ 0 ↔ - millis a ≤ - millis b) as Hcmp
    by (unfold cmp, millis; intros; lia).
  split.
  - apply (StronglySorted_map (λ a b, millis b ≤ millis a) erase).
    rewrite Herase. apply StronglySorted_map. cbn [millis].
    eapply StronglySorted_weaken; [|apply (sort_sorted cmp _ Hcmp)].
    cbn beta. unfold millis. cbn. intros; lia.
  - intros t.
    rewrite <- (filter_map_key millis erase events t) by done.
    rewrite Herase.
    rewrite (filter_map_key millis erase) by done. f_equal.
    rewrite (list_filter_iff _ (λ e, - millis e = - t)) by (intros; lia).
    rewrite (sort_filter_key cmp _ Hcmp).
    rewrite (list_filter_iff _ (λ e, millis e = t)) by (intros; lia).
    by apply filter_map_key.
Qed.

Lemma processEvents_failure_line platform error :
  outcome (processEvents config platformConfigs ingesters platform) = Throw error →
  Run.failure_line (platform, error)
  ∈ console (processEvents config platformConfigs ingesters platform).
Proof.
  unfold processEvents, Run.failure_line. cbn [fst snd].
  pose proof (select_ingester_console platformConfigs ingesters platform) as Hcon.
  destruct (select_ingester platformConfigs ingesters platform) as [l [ingester|e]];
    cbn in Hcon; subst l; cbn [bind try_catch].
  - destruct (testConnection ingester) as [w [[]|e]];
      destruct (ingest ingester _ _) as [c [events|e']];
      cbn [try_catch bind tell ret throw console outcome fst snd app];
      intros [= ->]; rewrite ?elem_of_app, ?elem_of_cons; tauto.
  - cbn. intros [= ->]. left.
Qed.

(** X11. A failing adapter is reported twice with the same line: once by
    [processEvents] when it catches the error, and once more by
    [buildTimeline] when it walks over the settled promises. *)
Theorem buildTimeline_reports_twice platform error :
  platform ∈ platforms →
  outcome (processEvents config platformConfigs ingesters platform) = Throw error →
  ∃ before between after,
    console timeline
    = before ++ Run.failure_line (platform, error)
      :: between ++ Run.failure_line (platform, error) :: after.
Proof.
  intros Hp Hthrow.
  unfold buildTimeline.
  rewrite console_try_catch, console_bind, allSettled_outcome, console_bind.
  rewrite allSettled_console.
  assert (Run.failure_line (platform, error)
          ∈ flat_map console
              (map (processEvents config platformConfigs ingesters) platforms)) as H1.
  { apply list_elem_of_In, in_flat_map.
    exists (processEvents config platformConfigs ingesters platform).
    split; [by apply in_map, list_elem_of_In|].
    by apply list_elem_of_In, processEvents_failure_line. }
  apply list_elem_of_split in H1 as (a1 & a2 & ->).
  match goal with
  | |- context [console (collect [] ?rs)] =>
      assert (Run.failure_line (platform, error) ∈ console (collect [] rs)) as H2
  end.
  { apply collect_console. rewrite map_map, zip_map_self.
    apply list_elem_of_fmap. exists platform. by rewrite Hthrow. }
  apply list_elem_of_split in H2 as (b1 & b2 & ->).
  eexists a1, (a2 ++ b1), _.
  rewrite <- ?app_assoc. cbn [app]. rewrite <- ?app_assoc. cbn [app].
  reflexivity.
Qed.

End TimelineFacts.

Lemma buildTimeline_reports_twice_witness :
  ∃ before between after,
    console Scenario.reddit_down
    = before ++ ConsoleError "Failed to process reddit: Error: 401 Unauthorized"
      :: between
      ++ ConsoleError "Failed to process reddit: Error: 401 Unauthorized" :: after.
Proof.
  apply (buildTimeline_reports_twice (SampleRuns.config [github; reddit])
           SampleRuns.platformConfigs SampleRuns.ingesters
           SampleRuns.addDocument SampleRuns.analyse reddit "Error: 401 Unauthorized").
  - right. left.
  - vm_compute. reflexivity.
Defined.

(** ** The sequential revision *)

Section SequentialFacts.
Import TimelineProcessor.

Variable config : TimelineConfig.t.
Variable platformConfigs : PlatformConfigs.t.
Variable ingesters : Ingesters.

#[local] Abbreviation ingestFromPlatform :=
  (TimelineProcessorSeq.ingestFromPlatform config platformConfigs ingesters).
#[local] Abbreviation ingest_all :=
  (TimelineProcessorSeq.ingest_all config platformConfigs ingesters).
#[local] Abbreviation platforms := (TimelineConfig.platforms config).
#[local] Abbreviation timezone := (TimelineConfig.timezone config).

(** What the loop pushed for one platform. *)
#[local] Abbreviation pushed :=
  (λ platform, match outcome (ingestFromPlatform platform) with
               | Ok events => events
               | Throw _ => []
               end).




End SequentialFacts.

(** ** The NLP pipeline as a batch *)

Lemma mapM_ext {A B} (f g : A → M B) (l : list A) :
  (∀ a, f a = g a) → mapM f l = mapM g l.
Proof.
  intros Hfg. induction l as [|x l IH]; [done|].
  cbn [mapM]. by rewrite Hfg, IH.
Qed.

Lemma mapM_quiet {A B} (g : A → result B) (l : list A) :
  (∃ out, mapM (λ a, ([], g a)) l = ([], Ok out)
          ∧ Forall2 (λ o a, g a = Ok o) out l)
  ∨ (∃ error, mapM (λ a, ([], g a)) l = ([], Throw error)
              ∧ ∃ a, a ∈ l ∧ g a = Throw error).
Proof.
  induction l as [|x l IH]; [left; exists []; by split|].
  cbn [mapM]. destruct (g x) as [y|e] eqn:Hx.
  - destruct IH as [(out & -> & Hall)|(error & -> & a & Ha & Herr)].
    + left. exists (y :: out). split; [done|]. by constructor.
    + right. exists error. split; [done|]. exists a. split; [by right|done].
  - right. exists e. split; [done|]. exists x. split; [left|done].
Qed.

Section NlpBatch.

Variable addDocument : TimelineEvent → result unit.
Variable analyse : list TimelineEvent → TimelineEvent → result JsVal.

(** X13. The NLP pipeline annotates a batch or leaves it alone. When
    every document is accepted and analysed, each event comes back with
    its analysis stored under [metadata.nlp] and nothing is printed; as
    soon as one call throws, the whole batch comes back as it went in,
    analyses already computed are dropped, and the error is printed
    once. The pipeline itself never throws. *)
Theorem process_all_or_nothing (events : list TimelineEvent) :
  (∃ annotated,
     NlpPipeline.process addDocument analyse events = ([], Ok annotated)
     ∧ Forall (λ e, addDocument e = Ok tt) events
     ∧ Forall2 (λ o e, ∃ nlp,
                  analyse events e = Ok nlp
                  ∧ o = TimelineEvent.with_metadata
                          (obj_set (TimelineEvent.metadata e) "nlp" nlp) e)
         annotated events)
  ∨ (∃ error,
       NlpPipeline.process addDocument analyse events
       = ([ConsoleError ("Error in NLP processing: " +:+ error)], Ok events)
       ∧ ∃ e, e ∈ events
              ∧ (addDocument e = Throw error ∨ analyse events e = Throw error)).
Proof.
  unfold NlpPipeline.process.
  set (annotate := λ event : TimelineEvent,
         match analyse events event with
         | Ok nlp => Ok (TimelineEvent.with_metadata
                           (obj_set (TimelineEvent.metadata event) "nlp" nlp) event)
         | Throw e => Throw e
         end).
  rewrite (mapM_ext _ (λ event, ([], annotate event)) events).
  2:{ intros event. unfold annotate. by destruct (analyse events event). }
  destruct (mapM_quiet addDocument events)
    as [(units & -> & Hdocs)|(error & -> & e & He & Herr)].
  - destruct (mapM_quiet annotate events)
      as [(out & -> & Hout)|(error & -> & e & He & Herr)].
    + left. exists out. split; [done|]. split.
      * apply Forall_forall. intros e He.
        apply list_elem_of_lookup in He as [i Hi].
        destruct (Forall2_lookup_r _ _ _ _ _ Hdocs Hi) as ([] & _ & ?). done.
      * eapply Forall2_impl; [exact Hout|]. intros o e. unfold annotate.
        destruct (analyse events e) as [nlp|]; [|done].
        intros [= <-]. by exists nlp.
    + right. exists error. split; [done|]. exists e. split; [done|]. right.
      unfold annotate in Herr. by destruct (analyse events e); simplify_eq.
  - right. exists error. split; [done|]. exists e. split; [done|]. by left.
Qed.

End NlpBatch.

(** ** The enhanced NLP module *)

Section NlpFacts.
Import NLPProcessor.

Lemma lower_char_idempotent (c : ascii) : lower_char (lower_char c) = lower_char c.
Proof. destruct c as [[] [] [] [] [] [] [] []]; vm_compute; reflexivity. Qed.

Lemma toLowerCase_idempotent (s : string) :
  toLowerCase (toLowerCase s) = toLowerCase s.
Proof.
  induction s as [|c s IH]; [done|].
  cbn [toLowerCase]. by rewrite lower_char_idempotent, IH.
Qed.

Lemma ratio_of_five (a d : Z) :
  0 < d → 0 ≤ a ≤ d →
  (0 <= inject_Z a / inject_Z d * 5)%Q
  ∧ (inject_Z a / inject_Z d * 5 <= 5)%Q
  ∧ ((inject_Z a / inject_Z d * 5 == 0)%Q ↔ a = 0).
Proof.
  intros Hd Ha. destruct d as [|d|d]; try lia.
  unfold Qle, Qeq, Qdiv, Qmult, Qinv, inject_Z. cbn.
  repeat split; try nia; intros; nia.
Qed.

(** X14. The magnitude [analyzeSentiment] reports lies between 0 and 5
    and is zero exactly for a text without any word of the two
    lexicons; and the analysis does not depend on the case of the
    text. *)
Theorem analyzeSentiment_magnitude (text : string) :
  let s := analyzeSentiment text in
  let words := match_words (toLowerCase text) in
  (0 <= SentimentScore.magnitude s)%Q
  ∧ (SentimentScore.magnitude s <= 5)%Q
  ∧ ((SentimentScore.magnitude s == 0)%Q
     ↔ matches positiveWords words = 0 ∧ matches negativeWords words = 0)
  ∧ analyzeSentiment (toLowerCase text) = analyzeSentiment text.
Proof.
  cbv zeta. unfold analyzeSentiment. cbn [SentimentScore.magnitude].
  rewrite toLowerCase_idempotent, count_words. cbn [fst snd].
  set (words := match_words (toLowerCase text)).
  pose proof (matches_bound words) as (Hp & Hn & Hsum).
  destruct (ratio_of_five
              (0 + matches positiveWords words + (0 + matches negativeWords words))
              (Z.max 1 (Z.of_nat (length words)))) as (H0 & H5 & Hz); [lia|lia|].
  split; [done|]. split; [done|]. split; [|done].
  rewrite Hz. lia.
Qed.

Section Frame.

Variable config : NLPConfig.
Variable detectLanguage : string → string.
Variable extractEntities : string → list Entity.t.
Variable modelTopics : string → list string.

#[local] Abbreviation enrich := (enrich config detectLanguage extractEntities modelTopics).
#[local] Abbreviation processEvents :=
  (processEvents config detectLanguage extractEntities modelTopics).

Lemma enrich_source_fields (event : TimelineEvent) :
  NLPHeuristics.source_fields (enrich event) = NLPHeuristics.source_fields event.
Proof.
  unfold NLPProcessor.enrich.
  destruct (_ || _); [done|].
  by destruct (languageDetection_enabled config), (entityExtraction_enabled config),
    (sentimentAnalysis_enabled config), (topicModeling_enabled config).
Qed.

Lemma enrich_content (event : TimelineEvent) :
  TimelineEvent.content (enrich event) = TimelineEvent.content event.
Proof.
  pose proof (enrich_source_fields event) as H.
  unfold NLPHeuristics.source_fields in H. by simplify_eq.
Qed.

Lemma enrich_idempotent (event : TimelineEvent) :
  enrich (enrich event) = enrich event.
Proof.
  unfold NLPProcessor.enrich at 1. rewrite enrich_content.
  unfold NLPProcessor.enrich.
  destruct (_ || _); [done|].
  by destruct (languageDetection_enabled config), (entityExtraction_enabled config),
    (sentimentAnalysis_enabled config), (topicModeling_enabled config).
Qed.

(** X15. [processEvents] of the NLP module returns one event per input
    event, in the same order, and writes nothing but [language],
    [entities], [sentiment] and [topics]; what it writes is computed from
    the content alone, so enriching an enriched batch changes nothing;
    with the four stages switched off the batch comes back as it is; and
    with sentiment analysis on, an event whose content is not blank
    carries the sentiment of its content. *)
Theorem processEvents_frame (events : list TimelineEvent) :
  map NLPHeuristics.source_fields (processEvents events)
  = map NLPHeuristics.source_fields events
  ∧ processEvents (processEvents events) = processEvents events
  ∧ (languageDetection_enabled config = false →
     entityExtraction_enabled config = false →
     sentimentAnalysis_enabled config = false →
     topicModeling_enabled config = false →
     processEvents events = events)
  ∧ (sentimentAnalysis_enabled config = true →
     ∀ i event,
       events !! i = Some event →
       trim (TimelineEvent.content event) ≠ "" →
       TimelineEvent.sentiment <$> processEvents events !! i
       = Some (Some (analyzeSentiment (TimelineEvent.content event)))).
Proof.
  unfold NLPProcessor.processEvents. repeat split.
  - rewrite map_map. apply map_ext, enrich_source_fields.
  - rewrite map_map. apply map_ext, enrich_idempotent.
  - intros Hl He Hs Ht. rewrite <- (map_id events) at 2. apply map_ext.
    intros event. unfold NLPProcessor.enrich. rewrite Hl, He, Hs, Ht.
    by destruct (_ || _).
  - intros Hs i event Hi Hblank.
    change (map ?f ?l) with (f <$> l). rewrite list_lookup_fmap, Hi. cbn.
    do 2 f_equal. unfold NLPProcessor.enrich. rewrite Hs.
    assert (String.eqb (TimelineEvent.content event) "" = false) as ->.
    { apply String.eqb_neq. intros Heq. apply Hblank. by rewrite Heq. }
    assert ((String.length (trim (TimelineEvent.content event)) =? 0)%nat = false)
      as ->.
    { apply Nat.eqb_neq. by destruct (trim (TimelineEvent.content event)). }
    cbn [orb].
    by destruct (languageDetection_enabled config), (entityExtraction_enabled config),
      (topicModeling_enabled config).
Qed.

End Frame.
End NlpFacts.

Lemma processEvents_frame_witness :
  TimelineEvent.sentiment <$>
    NLPProcessor.processEvents NlpSamples.all_enabled NlpSamples.detectLanguage
      NlpSamples.extractEntities NlpSamples.modelTopics
      [Samples.tweet; NlpSamples.blank] !! 0%nat
  = Some (Some (NLPProcessor.analyzeSentiment (TimelineEvent.content Samples.tweet))).
Proof.
  refine (proj2 (proj2 (proj2
    (processEvents_frame NlpSamples.all_enabled NlpSamples.detectLanguage
       NlpSamples.extractEntities NlpSamples.modelTopics
       [Samples.tweet; NlpSamples.blank]))) _ 0%nat Samples.tweet _ _).
  - reflexivity.
  - reflexivity.
  - vm_compute. discriminate.
Defined.

(** ** Topics *)



Section TopicFacts.
Import NLPProcessor NLPHeuristics TimelineQueries.

Variable config : NLPConfig.
Variable text : string.

#[local] Abbreviation tokens := (topic_tokens text).
#[local] Abbreviation occurrences :=
  (λ w : string, length (filter (λ t, t = w) tokens)).
#[local] Abbreviation ranking :=
  (Js.sort (λ a b : string * Z, snd b - snd a) (wordCounts tokens)).







End TopicFacts.

Example modelTopics_sample :
  NLPHeuristics.modelTopics NlpSamples.all_enabled
    "Release notes: the parser release fixes parser bugs; parser is faster."
  = ["parser"; "release"; "notes"; "fixes"; "bugs"].
Proof. vm_compute. reflexivity. Qed.

(** ** Language *)

Section LanguageFacts.
Import NLPHeuristics.

Lemma test_class_lower (cls : ascii → bool) (s : string) :
  test_class cls (toLowerCase s) = test_class (λ c, cls (lower_char c)) s.
Proof. induction s as [|c s IH]; [done|]. cbn. by rewrite IH. Qed.

Lemma test_class_true (cls : ascii → bool) (s : string) (c : ascii) :
  c ∈ list_ascii_of_string s → cls c = true → test_class cls s = true.
Proof.
  induction s as [|c' s IH]; cbn; intros Hc Hcls; [inversion Hc|].
  apply elem_of_cons in Hc as [<-|Hc]; [by rewrite Hcls|].
  rewrite IH by done. apply orb_true_r.
Qed.

Lemma test_class_weaken (cls cls' : ascii → bool) (s : string) :
  (∀ c, cls' c = false → cls c = false) →
  test_class cls' s = false → test_class cls s = false.
Proof.
  intros Hcls. induction s as [|c s IH]; [done|]. cbn.
  intros [Hc Hs]%orb_false_iff. by rewrite (Hcls c Hc), IH.
Qed.

Lemma ascii_unmarked (c : ascii) :
  (128 <=? code c) = false →
  kana (lower_char c) = false
  ∧ cyrillic (lower_char c) = false
  ∧ han (lower_char c) = false
  ∧ arabic (lower_char c) = false
  ∧ one_of spanish_marks (lower_char c) = false
  ∧ one_of french_marks (lower_char c) = false
  ∧ one_of german_marks (lower_char c) = false.
Proof.
  destruct c as [[] [] [] [] [] [] [] []]; vm_compute; intros H;
    first [discriminate H | repeat split].
Qed.

(** X17. [detectLanguage] ignores the case of the text; a text of ASCII
    characters only is English; and since the Spanish test comes first, a
    text with an e-acute or a u-diaeresis (in either case) is never
    reported as French, German or English. *)
Theorem detectLanguage_precedence (text : string) :
  detectLanguage (toLowerCase text) = detectLanguage text
  ∧ (test_class (λ c, 128 <=? code c) text = false → detectLanguage text = "en")
  ∧ (∀ c, c ∈ list_ascii_of_string text →
       code (lower_char c) = 233 ∨ code (lower_char c) = 252 →
       detectLanguage text ∉ ["fr"; "de"; "en"]).
Proof.
  split; [|split].
  - unfold detectLanguage. by rewrite toLowerCase_idempotent.
  - intros Hascii. unfold detectLanguage. rewrite !test_class_lower.
    rewrite (test_class_weaken (λ c, kana (lower_char c)) _ text
               (λ c H, proj1 (ascii_unmarked c H)) Hascii).
    rewrite (test_class_weaken (λ c, cyrillic (lower_char c)) _ text
               (λ c H, proj1 (proj2 (ascii_unmarked c H))) Hascii).
    rewrite (test_class_weaken (λ c, han (lower_char c)) _ text
               (λ c H, proj1 (proj2 (proj2 (ascii_unmarked c H)))) Hascii).
    rewrite (test_class_weaken (λ c, arabic (lower_char c)) _ text
               (λ c H, proj1 (proj2 (proj2 (proj2 (ascii_unmarked c H))))) Hascii).
    rewrite (test_class_weaken (λ c, one_of spanish_marks (lower_char c)) _ text
               (λ c H, proj1 (proj2 (proj2 (proj2 (proj2 (ascii_unmarked c H))))))
               Hascii).
    rewrite (test_class_weaken (λ c, one_of french_marks (lower_char c)) _ text
               (λ c H, proj1 (proj2 (proj2 (proj2 (proj2 (proj2
                         (ascii_unmarked c H)))))))
               Hascii).
    by rewrite (test_class_weaken (λ c, one_of german_marks (lower_char c)) _ text
                  (λ c H, proj2 (proj2 (proj2 (proj2 (proj2 (proj2
                            (ascii_unmarked c H)))))))
                  Hascii).
  - intros c Hc Hmark.
    assert (test_class (one_of spanish_marks) (toLowerCase text) = true) as Hes.
    { rewrite test_class_lower.
      apply (test_class_true (λ c, one_of spanish_marks (lower_char c)) text c Hc).
      unfold one_of. by destruct Hmark as [-> | ->]. }
    unfold detectLanguage. rewrite Hes.
    rewrite !not_elem_of_cons.
    repeat case_match; repeat split; try discriminate; apply not_elem_of_nil.
Qed.

End LanguageFacts.

Lemma detectLanguage_precedence_witness :
  NLPHeuristics.detectLanguage "Pushed 3 commits" = "en".
Proof.
  apply (proj1 (proj2 (detectLanguage_precedence "Pushed 3 commits"))).
  vm_compute. reflexivity.
Defined.

(** ** The geo tagger as a batch *)

Lemma mapM_console_nil {A B} (f : A → M B) (l : list A) :
  (∀ a, console (f a) = []) → console (mapM f l) = [].
Proof.
  intros Hf. induction l as [|x l IH]; [done|].
  cbn [mapM]. rewrite console_bind, Hf. destruct (outcome (f x)); [|done].
  rewrite console_bind, IH. by destruct (outcome (mapM f l)).
Qed.

Lemma mapM_ret {A} (f : A → M A) (l : list A) :
  Forall (λ a, f a = ret a) l → mapM f l = ret l.
Proof.
  induction 1 as [|x l Hx _ IH]; [done|]. cbn [mapM]. by rewrite Hx, IH.
Qed.

Lemma mapM_throws {A B} (f : A → M B) (l : list A) (a : A) :
  a ∈ l → (∃ error, outcome (f a) = Throw error) →
  ∃ error, outcome (mapM f l) = Throw error.
Proof.
  intros Ha Hthrow. induction l as [|x l IH]; [inversion Ha|].
  cbn [mapM]. rewrite outcome_bind.
  destruct (outcome (f x)) as [y|e] eqn:Hx; [|by exists e].
  apply elem_of_cons in Ha as [->|Ha].
  { destruct Hthrow as [e He]. congruence. }
  rewrite outcome_bind. destruct (IH Ha) as [e ->]. by exists e.
Qed.

Section GeoBatch.
Import GeoAnalyzer.

Variable config : GeoAnalysisConfig.
Variable parseFloat : JsVal → JsVal.

#[local] Abbreviation enhance := (enhance config parseFloat).
#[local] Abbreviation enhanceEventsWithGeoData :=
  (enhanceEventsWithGeoData config parseFloat).

Lemma extractLocationFromMetadata_console (event : TimelineEvent) :
  console (extractLocationFromMetadata parseFloat event) = [].
Proof.
  assert (∀ v, console (lookupLocationByValue v) = []) as Hlookup
    by by intros [].
  assert (console (twitter_location event) = []) as Htwitter.
  { unfold twitter_location. by repeat case_match. }
  assert (console (reddit_location event) = []) as Hreddit.
  { unfold reddit_location. by repeat case_match. }
  unfold extractLocationFromMetadata.
  destruct (has_explicit_coordinates event); [done|].
  rewrite console_bind.
  destruct (has_twitter_geo event).
  - rewrite Htwitter. destruct (outcome (twitter_location event)) as [[l|]|];
      [done| |done].
    by destruct (has_reddit_subreddit event).
  - cbn. by destruct (has_reddit_subreddit event).
Qed.

Lemma enhance_console (event : TimelineEvent) : console (enhance event) = [].
Proof.
  unfold GeoAnalyzer.enhance. destruct (TimelineEvent.location event); [done|].
  rewrite console_bind, extractLocationFromMetadata_console.
  destruct (outcome _) as [[l|]|]; [done| |done].
  by repeat case_match.
Qed.

Lemma enhance_located (event : TimelineEvent) :
  is_Some (TimelineEvent.location event) → enhance event = ret event.
Proof. intros [l Hl]. unfold GeoAnalyzer.enhance. by rewrite Hl. Qed.

Lemma enhance_result (event out : TimelineEvent) :
  outcome (enhance event) = Ok out →
  (out = event
   ∨ TimelineEvent.location event = None
     ∧ ∃ l, out = TimelineEvent.with_location l event)
  ∧ enhance out = ret out.
Proof.
  intros Hout.
  assert (out = event
          ∨ TimelineEvent.location event = None
            ∧ ∃ l, out = TimelineEvent.with_location l event) as Hcases.
  { revert Hout. unfold GeoAnalyzer.enhance.
    destruct (TimelineEvent.location event) as [l|] eqn:Hloc.
    { intros [= <-]. by left. }
    rewrite outcome_bind.
    destruct (outcome (extractLocationFromMetadata _ _)) as [[l|]|]; [| |done].
    { intros [= <-]. right. split; [done|]. by exists l. }
    destruct (extractLocationFromEntities config event) as [l|].
    { intros [= <-]. right. split; [done|]. by exists l. }
    destruct (extractLocationFromContent event) as [l|].
    { intros [= <-]. right. split; [done|]. by exists l. }
    intros [= <-]. by left. }
  split; [done|].
  destruct Hcases as [->|(_ & l & ->)].
  - pose proof (enhance_console event) as Hcon.
    destruct (enhance event) as [c r]. cbn in Hout, Hcon. by subst.
  - by apply enhance_located.
Qed.

(** X18. The geo tagger writes nothing but [location], and only where
    there was none: a disabled tagger returns the batch untouched; an
    event that has a location is passed through; every event of a tagged
    batch is its input event, as it was or with a location added;
    nothing is printed; and tagging a tagged batch changes nothing. *)
Theorem enhanceEventsWithGeoData_frame (events : list TimelineEvent) :
  (enabled config = false → enhanceEventsWithGeoData events = ret events)
  ∧ (Forall (λ e, is_Some (TimelineEvent.location e)) events →
     enhanceEventsWithGeoData events = ret events)
  ∧ console (enhanceEventsWithGeoData events) = []
  ∧ ∀ out,
      outcome (enhanceEventsWithGeoData events) = Ok out →
      Forall2 (λ o e, o = e
                      ∨ TimelineEvent.location e = None
                        ∧ ∃ l, o = TimelineEvent.with_location l e) out events
      ∧ enhanceEventsWithGeoData out = ret out.
Proof.
  unfold GeoAnalyzer.enhanceEventsWithGeoData.
  split; [by intros ->|]. split.
  { intros Hall. destruct (enabled config); [|done]. cbn [negb].
    apply mapM_ret. eapply Forall_impl; [exact Hall|]. apply enhance_located. }
  split.
  { destruct (enabled config); [|done]. apply mapM_console_nil, enhance_console. }
  intros out. destruct (enabled config); cbn [negb].
  - intros Hout. apply mapM_outcome_Forall2 in Hout. split.
    + eapply Forall2_impl; [exact Hout|]. intros o e Ho.
      by apply enhance_result in Ho as [? _].
    + apply mapM_ret. apply Forall_forall. intros o Ho.
      apply list_elem_of_lookup in Ho as [i Hi].
      destruct (Forall2_lookup_l _ _ _ _ _ Hout Hi) as (e & _ & He).
      by apply enhance_result in He as [_ ?].
  - intros [= <-]. split; [|done].
    apply Forall2_same_length_lookup. split; [done|].
    intros i o e Ho He. left. congruence.
Qed.

End GeoBatch.

Lemma enhanceEventsWithGeoData_frame_witness :
  GeoAnalyzer.enhanceEventsWithGeoData GeoSamples.config GeoSamples.parseFloat
    [TimelineEvent.with_location GeoSamples.paris GeoSamples.from_paris]
  = ret [TimelineEvent.with_location GeoSamples.paris GeoSamples.from_paris].
Proof.
  apply (proj1 (proj2 (enhanceEventsWithGeoData_frame
           GeoSamples.config GeoSamples.parseFloat
           [TimelineEvent.with_location GeoSamples.paris GeoSamples.from_paris]))).
  repeat constructor. by eexists.
Defined.

Section GeoEdgeCases.
Import GeoAnalyzer.

(** X19. A Reddit event whose [metadata.subreddit] is set to something
    other than a string makes the whole batch fail: the tagger calls
    [toLowerCase] on the value, the call throws, and no event of the
    batch is returned, tagged or not. *)
Theorem enhanceEventsWithGeoData_subreddit_type_error
    (config : GeoAnalysisConfig) (parseFloat : JsVal → JsVal)
    (events : list TimelineEvent) (event : TimelineEvent) :
  enabled config = true →
  event ∈ events →
  TimelineEvent.location event = None →
  has_explicit_coordinates event = false →
  TimelineEvent.platform event = reddit →
  truthy (obj_get (TimelineEvent.metadata event) "subreddit") = true →
  (∀ s, obj_get (TimelineEvent.metadata event) "subreddit" ≠ JStr s) →
  ∃ error, outcome (enhanceEventsWithGeoData config parseFloat events) = Throw error.
Proof.
  intros Hen Hin Hloc Hexp Hp Htruthy Hstr.
  unfold enhanceEventsWithGeoData. rewrite Hen. cbn [negb].
  apply (mapM_throws _ _ event Hin).
  unfold enhance. rewrite Hloc, outcome_bind.
  unfold extractLocationFromMetadata. rewrite Hexp.
  unfold has_twitter_geo, has_reddit_subreddit. rewrite Hp. cbn [is_twitter is_reddit andb].
  rewrite Htruthy. cbn [bind ret outcome snd app]. unfold reddit_location.
  destruct (obj_get (TimelineEvent.metadata event) "subreddit") as [| | | | s | |]
    eqn:Hsub; try (by eexists).
  by destruct (Hstr s).
Qed.

End GeoEdgeCases.

Lemma enhanceEventsWithGeoData_subreddit_type_error_witness :
  ∃ error,
    outcome (GeoAnalyzer.enhanceEventsWithGeoData GeoSamples.config GeoSamples.parseFloat
               [GeoSamples.from_paris;
                TimelineEvent.with_metadata [("subreddit", JNum 5)]
                  (Samples.raw_event "rd-1" reddit post 1704103210000 Samples.utc
                     "Greetings from London")])
    = Throw error.
Proof.
  apply (enhanceEventsWithGeoData_subreddit_type_error
           GeoSamples.config GeoSamples.parseFloat _
           (TimelineEvent.with_metadata [("subreddit", JNum 5)]
              (Samples.raw_event "rd-1" reddit post 1704103210000 Samples.utc
                 "Greetings from London"))).
  - reflexivity.
  - right. left.
  - reflexivity.
  - reflexivity.
  - reflexivity.
  - reflexivity.
  - intros s. cbn. discriminate.
Defined.

(** ** Place names *)

Section PlaceNames.
Import GeoAnalyzer.

Lemma is_space_lower (c : ascii) : is_space (lower_char c) = is_space c.
Proof. destruct c as [[] [] [] [] [] [] [] []]; vm_compute; reflexivity. Qed.

Lemma trimStart_lower (s : string) :
  trimStart (toLowerCase s) = toLowerCase (trimStart s).
Proof.
  induction s as [|c s IH]; [done|].
  cbn [toLowerCase trimStart]. rewrite is_space_lower.
  by destruct (is_space c).
Qed.

Lemma all_space_lower (s : string) : all_space (toLowerCase s) = all_space s.
Proof.
  induction s as [|c s IH]; [done|].
  cbn [toLowerCase all_space]. by rewrite is_space_lower, IH.
Qed.

Lemma trimEnd_lower (s : string) :
  trimEnd (toLowerCase s) = toLowerCase (trimEnd s).
Proof.
  induction s as [|c s IH]; [done|].
  cbn [toLowerCase trimEnd].
  change (String (lower_char c) (toLowerCase s)) with (toLowerCase (String c s)).
  rewrite all_space_lower. destruct (all_space (String c s)); [done|].
  cbn [toLowerCase]. by rewrite IH.
Qed.

Lemma trim_lower (s : string) : trim (toLowerCase s) = toLowerCase (trim s).
Proof. unfold trim. by rewrite trimStart_lower, trimEnd_lower. Qed.

Lemma all_space_trimEnd (s : string) : all_space (trimEnd s) = all_space s.
Proof.
  induction s as [|c s IH]; [done|].
  cbn [trimEnd]. destruct (all_space (String c s)) eqn:Hall; [done|].
  cbn [all_space] in Hall |- *. by rewrite IH.
Qed.

Lemma trimEnd_idempotent (s : string) : trimEnd (trimEnd s) = trimEnd s.
Proof.
  induction s as [|c s IH]; [done|].
  cbn [trimEnd]. destruct (all_space (String c s)) eqn:Hall; [done|].
  cbn [trimEnd]. cbn [all_space] in Hall |- *.
  rewrite all_space_trimEnd, Hall. by rewrite IH.
Qed.

Lemma trimStart_fixed (s : string) :
  trimStart s = s → trimStart (trimEnd s) = trimEnd s.
Proof.
  destruct s as [|c s]; [done|]. cbn [trimStart trimEnd].
  destruct (is_space c) eqn:Hc.
  - intros Heq. exfalso.
    assert (String.length (trimStart s) ≤ String.length s)%nat as Hlen.
    { clear. induction s as [|d s IH]; [done|]. cbn. destruct (is_space d); cbn; lia. }
    rewrite Heq in Hlen. cbn in Hlen. lia.
  - intros _. cbn [all_space]. rewrite Hc. cbn [andb trimStart]. by rewrite Hc.
Qed.

Lemma trimStart_idempotent (s : string) : trimStart (trimStart s) = trimStart s.
Proof.
  induction s as [|c s IH]; [done|].
  cbn [trimStart]. destruct (is_space c) eqn:Hc; [done|]. cbn [trimStart]. by rewrite Hc.
Qed.

Lemma trim_idempotent (s : string) : trim (trim s) = trim s.
Proof.
  unfold trim. rewrite (trimStart_fixed (trimStart s) (trimStart_idempotent s)).
  apply trimEnd_idempotent.
Qed.

(** X20. Looking a place up ignores the case of the name and the white
    space around it: the lower-cased name, the trimmed name and the name
    behind leading white space all find what the name finds. *)
Theorem lookupLocationByName_normalises (name : string) :
  lookupLocationByName (toLowerCase name) = lookupLocationByName name
  ∧ lookupLocationByName (trim name) = lookupLocationByName name
  ∧ (∀ pad, all_space pad = true →
       lookupLocationByName (pad +:+ name) = lookupLocationByName name).
Proof.
  unfold lookupLocationByName. split; [|split].
  - by rewrite toLowerCase_idempotent.
  - by rewrite trim_lower, trim_idempotent, <- trim_lower.
  - intros pad Hpad.
    assert (trimStart (toLowerCase (pad +:+ name)) = trimStart (toLowerCase name))
      as Hstart; [|unfold trim; by rewrite Hstart].
    induction pad as [|c pad IH]; [done|].
    cbn [all_space] in Hpad. apply andb_true_iff in Hpad as [Hc Hpad].
    change (String c pad +:+ name) with (String c (pad +:+ name)).
    cbn [toLowerCase trimStart]. rewrite is_space_lower, Hc.
    by apply IH.
Qed.

End PlaceNames.

Lemma lookupLocationByName_normalises_witness :
  GeoAnalyzer.lookupLocationByName "  tokyo" = GeoAnalyzer.lookupLocationByName "tokyo".
Proof.
  apply (proj2 (proj2 (lookupLocationByName_normalises "tokyo")) "  ").
  reflexivity.
Defined.

(** ** The bounding box *)

Section FoldNumbers.
Import GeoQueries.
Context {A : Type} (op : Q → Q → Q) (R : Q → Q → Prop) (f : A → Num).
Hypothesis R_refl : ∀ x, R x x.
Hypothesis R_trans : ∀ x y z, R x y → R y z → R x z.
Hypothesis op_l : ∀ x y, R x (op x y).
Hypothesis op_r : ∀ x y, R y (op x y).
Hypothesis op_choice : ∀ x y, op x y = x ∨ op x y = y.

Lemma fold_lift2_Some (l : list A) (init : Num) (n : Q) :
  fold_left (λ acc a, lift2 op acc (f a)) l init = Some n →
  (∃ i, init = Some i ∧ R i n)
  ∧ (∀ a, a ∈ l → ∃ x, f a = Some x ∧ R x n)
  ∧ (init = Some n ∨ ∃ a, a ∈ l ∧ f a = Some n).
Proof.
  revert init. induction l as [|a l IH]; intros init; cbn [fold_left].
  - intros ->. split; [by exists n|]. split; [|by left].
    intros a Ha. inversion Ha.
  - intros Hfold. apply IH in Hfold as ((i & Hi & Hin) & Hall & Hatt).
    destruct init as [i0|], (f a) as [x|] eqn:Hfa; cbn in Hi; try done.
    injection Hi as <-. split; [|split].
    + exists i0. split; [done|]. apply (R_trans _ (op i0 x)); [apply op_l|done].
    + intros a' [->|Ha']%elem_of_cons; [|by apply Hall].
      exists x. split; [done|]. apply (R_trans _ (op i0 x)); [apply op_r|done].
    + destruct Hatt as [[= Hn]|(a' & Ha' & Hfa')].
      * destruct (op_choice i0 x) as [Hc|Hc]; rewrite Hc in Hn; subst.
        -- by left.
        -- right. exists a. split; [left|done].
      * right. exists a'. split; [by right|done].
Qed.

Lemma fold_lift2_None (l : list A) (init : Num) :
  fold_left (λ acc a, lift2 op acc (f a)) l init = None
  ↔ init = None ∨ ∃ a, a ∈ l ∧ f a = None.
Proof.
  revert init. induction l as [|a l IH]; intros init; cbn [fold_left].
  - split; [by left|]. intros [?|(a & Ha & _)]; [done|inversion Ha].
  - rewrite IH. split.
    + intros [Hnone|(a' & Ha' & Hfa')].
      * destruct init as [i0|]; [|by left]. destruct (f a) eqn:Hfa; [done|].
        right. exists a. split; [left|done].
      * right. exists a'. split; [by right|done].
    + intros [->|(a' & [->|Ha']%elem_of_cons & Hfa')].
      * by left.
      * left. rewrite Hfa'. by destruct init.
      * right. by exists a'.
Qed.

End FoldNumbers.

Section BoundingBoxFacts.
Import GeoQueries.

Variable toNumber : JsVal → Num.

#[local] Abbreviation latitude := (λ loc, toNumber (GeoLocation.lat loc)).
#[local] Abbreviation longitude := (λ loc, toNumber (GeoLocation.lng loc)).
#[local] Abbreviation expand := (expand toNumber).

Lemma fold_expand_sides (locs : list GeoLocation.t) (box : GeoBoundingBox) :
  north (fold_left expand locs box)
  = fold_left (λ acc loc, lift2 Qmax acc (latitude loc)) locs (north box)
  ∧ south (fold_left expand locs box)
    = fold_left (λ acc loc, lift2 Qmin acc (latitude loc)) locs (south box)
  ∧ east (fold_left expand locs box)
    = fold_left (λ acc loc, lift2 Qmax acc (longitude loc)) locs (east box)
  ∧ west (fold_left expand locs box)
    = fold_left (λ acc loc, lift2 Qmin acc (longitude loc)) locs (west box).
Proof.
  revert box. induction locs as [|loc locs IH]; intros box; [done|].
  cbn [fold_left]. destruct (IH (expand box loc)) as (-> & -> & -> & ->). done.
Qed.

Lemma Qmax_choice (x y : Q) : Qmax x y = x ∨ Qmax x y = y.
Proof. unfold Qmax, GenericMinMax.gmax. destruct (x ?= y)%Q; auto. Qed.

Lemma Qmin_choice (x y : Q) : Qmin x y = x ∨ Qmin x y = y.
Proof. unfold Qmin, GenericMinMax.gmin. destruct (x ?= y)%Q; auto. Qed.

(** X21. [getBoundingBox] is null exactly when no event has a location.
    Otherwise a side is NaN exactly when a coordinate it reads is NaN,
    and a box without NaN is the smallest that holds every located
    event: each latitude lies between [south] and [north], each
    longitude between [west] and [east], and each side is the
    coordinate of some located event. *)
Theorem getBoundingBox_encloses (events : list TimelineEvent) :
  (getBoundingBox toNumber events = None ↔ located events = [])
  ∧ ∀ box,
      getBoundingBox toNumber events = Some box →
      ((north box = None ↔ ∃ loc, loc ∈ located events ∧ latitude loc = None)
       ∧ (south box = None ↔ ∃ loc, loc ∈ located events ∧ latitude loc = None)
       ∧ (east box = None ↔ ∃ loc, loc ∈ located events ∧ longitude loc = None)
       ∧ (west box = None ↔ ∃ loc, loc ∈ located events ∧ longitude loc = None))
      ∧ (∀ n s e w,
           north box = Some n → south box = Some s →
           east box = Some e → west box = Some w →
           (∀ loc, loc ∈ located events →
              ∃ x y, latitude loc = Some x ∧ longitude loc = Some y
                     ∧ (s <= x)%Q ∧ (x <= n)%Q ∧ (w <= y)%Q ∧ (y <= e)%Q)
           ∧ (∃ loc, loc ∈ located events ∧ latitude loc = Some n)
           ∧ (∃ loc, loc ∈ located events ∧ latitude loc = Some s)
           ∧ (∃ loc, loc ∈ located events ∧ longitude loc = Some e)
           ∧ (∃ loc, loc ∈ located events ∧ longitude loc = Some w)).
Proof.
  unfold getBoundingBox.
  destruct (located events) as [|first rest] eqn:Hloc; [by split|].
  split; [by split|].
  intros box [= <-].
  set (box0 := {| north := _ |}).
  change (fold_left expand rest (expand box0 first))
    with (fold_left expand (first :: rest) box0).
  destruct (fold_expand_sides (first :: rest) box0) as (Hn & Hs & He & Hw).
  assert (∀ (proj : GeoLocation.t → Num) v,
            proj first = v ∨ (∃ loc, loc ∈ first :: rest ∧ proj loc = v)
            ↔ ∃ loc, loc ∈ first :: rest ∧ proj loc = v) as Hfirst.
  { intros proj v. split; [|by right].
    intros [<-|?]; [|done]. exists first. split; [left|done]. }
  split.
  { rewrite Hn, Hs, He, Hw, !fold_lift2_None. cbn [north south east west box0].
    split; [apply (Hfirst latitude None)|].
    split; [apply (Hfirst latitude None)|].
    split; [apply (Hfirst longitude None)|apply (Hfirst longitude None)]. }
  intros n s e w Hnorth Hsouth Heast Hwest.
  rewrite Hn in Hnorth. rewrite Hs in Hsouth. rewrite He in Heast. rewrite Hw in Hwest.
  apply (fold_lift2_Some Qmax Qle _ Qle_refl Qle_trans Q.le_max_l Q.le_max_r
           Qmax_choice) in Hnorth as (_ & Hn_all & Hn_att).
  apply (fold_lift2_Some Qmin (λ a b, b <= a)%Q _ Qle_refl
           (λ x y z H1 H2, Qle_trans _ _ _ H2 H1) Q.le_min_l Q.le_min_r
           Qmin_choice) in Hsouth as (_ & Hs_all & Hs_att).
  apply (fold_lift2_Some Qmax Qle _ Qle_refl Qle_trans Q.le_max_l Q.le_max_r
           Qmax_choice) in Heast as (_ & He_all & He_att).
  apply (fold_lift2_Some Qmin (λ a b, b <= a)%Q _ Qle_refl
           (λ x y z H1 H2, Qle_trans _ _ _ H2 H1) Q.le_min_l Q.le_min_r
           Qmin_choice) in Hwest as (_ & Hw_all & Hw_att).
  split.
  { intros loc Hin.
    destruct (Hn_all loc Hin) as (x & Hx & Hxn).
    destruct (Hs_all loc Hin) as (x' & Hx' & Hxs).
    destruct (He_all loc Hin) as (y & Hy & Hye).
    destruct (Hw_all loc Hin) as (y' & Hy' & Hyw).
    rewrite Hx in Hx'. injection Hx' as <-.
    rewrite Hy in Hy'. injection Hy' as <-.
    by exists x, y. }
  cbn [north south east west box0] in *.
  split; [by apply (Hfirst latitude (Some n))|].
  split; [by apply (Hfirst latitude (Some s))|].
  split; [by apply (Hfirst longitude (Some e))|by apply (Hfirst longitude (Some w))].
Qed.

End BoundingBoxFacts.

(** ** Escaping for the XML exports *)

Section EscapeFacts.
Import NetworkBuilder.

Lemma append_cons (c : ascii) (s t : string) : String c s +:+ t = String c (s +:+ t).
Proof. reflexivity. Qed.

Lemma append_nil (t : string) : "" +:+ t = t.
Proof. reflexivity. Qed.

(** The five characters of the class. *)
#[local] Abbreviation special c :=
  (Ascii.eqb c "<" || Ascii.eqb c ">" || Ascii.eqb c "&" || Ascii.eqb c "'"
   || Ascii.eqb c (ascii_of_nat 34)).

Lemma escape_char_cases (c : ascii) :
  (special c = false ∧ escape_char c = String c "")
  ∨ (c = "<"%char ∧ escape_char c = "&lt;")
  ∨ (c = ">"%char ∧ escape_char c = "&gt;")
  ∨ (c = "&"%char ∧ escape_char c = "&amp;")
  ∨ (c = "'"%char ∧ escape_char c = "&apos;")
  ∨ (c = ascii_of_nat 34 ∧ escape_char c = "&quot;").
Proof.
  unfold escape_char.
  destruct (Ascii.eqb_spec c "<") as [->|H1]; [by right; left|].
  destruct (Ascii.eqb_spec c ">") as [->|H2]; [by right; right; left|].
  destruct (Ascii.eqb_spec c "&") as [->|H3]; [by right; right; right; left|].
  destruct (Ascii.eqb_spec c "'") as [->|H4]; [by do 4 right; left|].
  destruct (Ascii.eqb_spec c (ascii_of_nat 34)) as [->|H5]; [by do 5 right|].
  by left.
Qed.

Lemma escapeXml_cons (c : ascii) (s : string) :
  escapeXml (String c s) = escape_char c +:+ escapeXml s.
Proof. reflexivity. Qed.

Lemma escapeXml_quiet (s : string) (c : ascii) :
  c ∈ list_ascii_of_string (escapeXml s) →
  Ascii.eqb c "<" || Ascii.eqb c ">" || Ascii.eqb c "'"
  || Ascii.eqb c (ascii_of_nat 34) = false.
Proof.
  induction s as [|d s IH]; [intros H; inversion H|].
  rewrite escapeXml_cons.
  destruct (escape_char_cases d)
    as [[Hd ->]|[[_ ->]|[[_ ->]|[[_ ->]|[[_ ->]|[_ ->]]]]]];
    rewrite ?append_cons, append_nil; cbn [list_ascii_of_string];
    rewrite ?elem_of_cons;
    intros H; repeat (destruct H as [->|H]; [try reflexivity|]); try by apply IH.
  apply orb_false_iff in Hd as [Hd H5]. apply orb_false_iff in Hd as [Hd H4].
  apply orb_false_iff in Hd as [Hd H3]. apply orb_false_iff in Hd as [H1 H2].
  by rewrite H1, H2, H4, H5.
Qed.

Lemma escapeXml_inj (s t : string) : escapeXml s = escapeXml t → s = t.
Proof.
  revert t. induction s as [|c s IH]; intros [|d t].
  - done.
  - rewrite escapeXml_cons.
    destruct (escape_char_cases d)
      as [[_ ->]|[[_ ->]|[[_ ->]|[[_ ->]|[[_ ->]|[_ ->]]]]]]; discriminate.
  - rewrite escapeXml_cons.
    destruct (escape_char_cases c)
      as [[_ ->]|[[_ ->]|[[_ ->]|[[_ ->]|[[_ ->]|[_ ->]]]]]]; discriminate.
  - rewrite !escapeXml_cons.
    destruct (escape_char_cases c)
      as [[Hc ->]|[[-> ->]|[[-> ->]|[[-> ->]|[[-> ->]|[-> ->]]]]]];
      destruct (escape_char_cases d)
        as [[Hd ->]|[[-> ->]|[[-> ->]|[[-> ->]|[[-> ->]|[-> ->]]]]]];
      rewrite ?append_cons, ?append_nil; intros Heq;
      try discriminate Heq;
      try (injection Heq as Heq; f_equal; by apply IH);
      try (injection Heq as -> Heq; f_equal; by apply IH);
      try (injection Heq as -> _; discriminate Hc);
      try (injection Heq as <- _; discriminate Hd).
Qed.

(** X22. [escapeXml] leaves none of the characters less-than,
    greater-than, apostrophe and double quote in its output, changes
    nothing in a text without the five special characters, and loses
    nothing: two texts with the same escaped form are the same text. *)
Theorem escapeXml_safe_and_injective :
  (∀ s c, c ∈ list_ascii_of_string (escapeXml s) →
     c ≠ "<"%char ∧ c ≠ ">"%char ∧ c ≠ "'"%char ∧ c ≠ ascii_of_nat 34)
  ∧ (∀ s, (∀ c, c ∈ list_ascii_of_string s → special c = false) → escapeXml s = s)
  ∧ (∀ s t, escapeXml s = escapeXml t → s = t).
Proof.
  split; [|split].
  - intros s c Hc. apply escapeXml_quiet in Hc.
    apply orb_false_iff in Hc as [Hc H4]. apply orb_false_iff in Hc as [Hc H3].
    apply orb_false_iff in Hc as [H1 H2].
    repeat split; intros ->; discriminate.
  - induction s as [|c s IH]; [done|]. intros Hplain.
    rewrite escapeXml_cons.
    destruct (escape_char_cases c)
      as [[_ ->]|[[-> _]|[[-> _]|[[-> _]|[[-> _]|[-> _]]]]]].
    + rewrite append_cons, append_nil. f_equal. apply IH.
      intros c' Hc'. apply Hplain. by right.
    + by specialize (Hplain "<"%char ltac:(left)).
    + by specialize (Hplain ">"%char ltac:(left)).
    + by specialize (Hplain "&"%char ltac:(left)).
    + by specialize (Hplain "'"%char ltac:(left)).
    + by specialize (Hplain (ascii_of_nat 34) ltac:(left)).
  - apply escapeXml_inj.
Qed.

End EscapeFacts.

Example escapeXml_sample :
  NetworkBuilder.escapeXml "Tom & Jerry <3" = "Tom &amp; Jerry &lt;3".
Proof. vm_compute. reflexivity. Qed.

(** ** The network graph *)

Section MapFacts.
Context {V : Type}.





End MapFacts.



Section GraphInvariants.
Import NetworkAnalyzer NetworkBuilder.

(** A well-formed node collection: every node is filed under its own
    id, no id twice, and every weight counts at least one sighting. *)
#[local] Abbreviation node_ok :=
  (λ entry : string * NetworkNode.t,
     NetworkNode.id (snd entry) = fst entry ∧ 1 ≤ NetworkNode.weight (snd entry)).
#[local] Abbreviation nodes_ok :=
  (λ nodes : Nodes, NoDup (map fst nodes) ∧ Forall node_ok nodes).

(** A well-formed edge collection, likewise. *)
#[local] Abbreviation edge_key :=
  (λ edge : NetworkEdge.t,
     edgeId (NetworkEdge.source edge) (NetworkEdge.target edge)
       (NetworkEdge.type edge)).
#[local] Abbreviation edge_ok :=
  (λ entry : string * NetworkEdge.t,
     edge_key (snd entry) = fst entry ∧ 1 ≤ NetworkEdge.weight (snd entry)).
#[local] Abbreviation edges_ok :=
  (λ edges : Edges, NoDup (map fst edges) ∧ Forall edge_ok edges).






(** Keys are never removed. *)
#[local] Abbreviation keys_le :=
  (λ (V : Type) (m m' : list (string * V)), ∀ k, k ∈ map fst m → k ∈ map fst m').





Variable config : NetworkConfig.
Variable isoText : DateTime → string.
Variable propertyKey : JsVal → string.

#[local] Abbreviation st_ok :=
  (λ st : State, nodes_ok (fst st) ∧ edges_ok (snd st)).
#[local] Abbreviation st_le :=
  (λ st st' : State, keys_le _ (fst st) (fst st') ∧ keys_le _ (snd st) (snd st')).
































End GraphInvariants.


(** ** Communities *)

Section CommunityFacts.
Import NetworkBuilder.

Variable propertyKey : JsVal → string.

#[local] Abbreviation is_type :=
  (λ (t : string) (entry : string * NetworkNode.t),
     String.eqb (NetworkNode.type (snd entry)) t).
#[local] Abbreviation of_entity_type :=
  (λ (k : string) (entry : string * NetworkNode.t),
     is_type "entity" entry && String.eqb (entityType propertyKey (snd entry)) k).
#[local] Abbreviation poisoned :=
  (λ entry : string * NetworkNode.t,
     is_type "entity" entry
     && includes inherited_names (entityType propertyKey (snd entry))).

Lemma classify_all_spec (nodes : Nodes) (c0 : NetworkGraph.Communities) :
  match classify_all propertyKey c0 nodes with
  | Ok c =>
      NetworkGraph.users c
      = NetworkGraph.users c0 ++ map fst (List.filter (is_type "user") nodes)
      ∧ NetworkGraph.events c
        = NetworkGraph.events c0 ++ map fst (List.filter (is_type "event") nodes)
      ∧ (∀ k, NetworkGraph.entities c !! k
              = match List.filter (of_entity_type k) nodes with
                | [] => NetworkGraph.entities c0 !! k
                | l => Some (default [] (NetworkGraph.entities c0 !! k) ++ map fst l)
                end)
      ∧ Forall (λ entry, poisoned entry = false) nodes
  | Throw _ => ∃ entry, entry ∈ nodes ∧ poisoned entry = true
  end.
Proof.
  revert c0. induction nodes as [|[id node] nodes IH]; intros c0.
  { cbn. rewrite !app_nil_r. by repeat split. }
  cbn [classify_all classify List.filter fst snd].
  destruct (String.eqb_spec (NetworkNode.type node) "user") as [Hu|Hu].
  { specialize (IH {| NetworkGraph.users := NetworkGraph.users c0 ++ [id];
                      NetworkGraph.events := NetworkGraph.events c0;
                      NetworkGraph.entities := NetworkGraph.entities c0 |}).
    rewrite Hu. cbn [String.eqb Ascii.eqb Bool.eqb andb].
    destruct (classify_all _ _ nodes) as [c|e].
    - destruct IH as (-> & -> & Hent & Hall). cbn [NetworkGraph.users
        NetworkGraph.events NetworkGraph.entities] in *.
      split; [by rewrite <- app_assoc|]. split; [done|]. split; [done|].
      constructor; [|done]. cbn [fst snd]. by rewrite Hu.
    - destruct IH as (entry & Hin & Hp). exists entry. split; [by right|done]. }
  destruct (String.eqb_spec (NetworkNode.type node) "event") as [He|He].
  { specialize (IH {| NetworkGraph.users := NetworkGraph.users c0;
                      NetworkGraph.events := NetworkGraph.events c0 ++ [id];
                      NetworkGraph.entities := NetworkGraph.entities c0 |}).
    rewrite He. cbn [String.eqb Ascii.eqb Bool.eqb andb].
    destruct (classify_all _ _ nodes) as [c|e].
    - destruct IH as (-> & -> & Hent & Hall). cbn [NetworkGraph.users
        NetworkGraph.events NetworkGraph.entities] in *.
      split; [done|]. split; [by rewrite <- app_assoc|]. split; [done|].
      constructor; [|done]. cbn [fst snd]. by rewrite He.
    - destruct IH as (entry & Hin & Hp). exists entry. split; [by right|done]. }
  destruct (String.eqb_spec (NetworkNode.type node) "entity") as [Hn|Hn].
  2:{ specialize (IH c0). cbn [andb].
      destruct (classify_all _ c0 nodes) as [c|e].
      - destruct IH as (-> & -> & Hent & Hall). repeat split; try done.
        constructor; [|done]. cbn [fst snd]. by apply andb_false_iff; left; apply String.eqb_neq.
      - destruct IH as (entry & Hin & Hp). exists entry. split; [by right|done]. }
  cbn [andb].
  destruct (includes inherited_names (entityType propertyKey node)) eqn:Hinh.
  { exists (id, node). split; [left|]. cbn [fst snd]. rewrite Hinh.
    apply andb_true_iff. split; [by apply String.eqb_eq|done]. }
  set (key := entityType propertyKey node) in *.
  specialize (IH {| NetworkGraph.users := NetworkGraph.users c0;
                    NetworkGraph.events := NetworkGraph.events c0;
                    NetworkGraph.entities :=
                      <[key := default [] (NetworkGraph.entities c0 !! key) ++ [id]]>
                        (NetworkGraph.entities c0) |}).
  destruct (classify_all _ _ nodes) as [c|e].
  - destruct IH as (-> & -> & Hent & Hall). cbn [NetworkGraph.users
      NetworkGraph.events NetworkGraph.entities] in *.
    split; [done|]. split; [done|]. split.
    + intros k. rewrite Hent, lookup_insert.
      destruct (String.eqb_spec key k) as [->|Hk].
      * rewrite decide_True by done. cbn [default].
        destruct (List.filter _ nodes) as [|e l]; cbn [map fst snd app].
        -- done.
        -- unfold Datatypes.id. by rewrite <- app_assoc.
      * by rewrite decide_False.
    + constructor; [|done]. cbn [fst snd]. fold key. rewrite Hinh. apply andb_false_r.
  - destruct IH as (entry & Hin & Hp). exists entry. split; [by right|done].
Qed.

(** X24. [detectCommunities] files every node id under the type of its
    node: users and events in the order of the node collection, entities
    under the type they carry, in that order too, and an entity type
    without node has no key. It throws exactly when some entity node
    carries a type that is a name inherited from [Object.prototype],
    such as constructor. *)
Theorem detectCommunities_partition (nodes : Nodes) (edges : list NetworkEdge.t) :
  (∀ communities,
     detectCommunities propertyKey nodes edges = Ok communities →
     NetworkGraph.users communities = map fst (List.filter (is_type "user") nodes)
     ∧ NetworkGraph.events communities
       = map fst (List.filter (is_type "event") nodes)
     ∧ ∀ k, NetworkGraph.entities communities !! k
            = match List.filter (of_entity_type k) nodes with
              | [] => None
              | l => Some (map fst l)
              end)
  ∧ ((∃ error, detectCommunities propertyKey nodes edges = Throw error)
     ↔ ∃ entry, entry ∈ nodes
                ∧ NetworkNode.type (snd entry) = "entity"
                ∧ entityType propertyKey (snd entry) ∈ inherited_names).
Proof.
  unfold detectCommunities.
  pose proof (classify_all_spec nodes
                {| NetworkGraph.users := []; NetworkGraph.events := [];
                   NetworkGraph.entities := ∅ |}) as Hspec.
  destruct (classify_all _ _ nodes) as [c|e].
  - destruct Hspec as (Hu & He & Hent & Hall).
    cbn [NetworkGraph.users NetworkGraph.events NetworkGraph.entities app]
      in Hu, He, Hent.
    split.
    + intros ? [= <-]. split; [done|]. split; [done|].
      intros k. rewrite Hent, lookup_empty. by destruct (List.filter _ nodes).
    + split; [by intros [? ?]|]. intros (entry & Hin & Htype & Hinh).
      rewrite Forall_forall in Hall. specialize (Hall entry Hin). cbn [fst snd] in Hall.
      apply includes_elem_of in Hinh. rewrite Hinh, Htype in Hall. done.
  - destruct Hspec as (entry & Hin & Hp). split; [done|].
    split; [intros _|by exists e].
    apply andb_true_iff in Hp as [Ht Hinh].
    exists entry. split; [done|].
    split; [by apply String.eqb_eq|by apply includes_elem_of].
Qed.

End CommunityFacts.

(** An entity whose type is constructor makes the whole graph build fail. *)
Example buildNetworkGraph_constructor_sample :
  NetworkBuilder.buildNetworkGraph NetworkBuilder.default_config
    (λ _, "2024-01-01T10:00:10.000Z") (λ _, "")
    [TimelineEvent.with_entities
       [{| Entity.text := "Object"; Entity.type := "constructor";
           Entity.confidence := 9 # 10; Entity.metadata := None |}]
       Samples.tweet]
  = Throw "TypeError: communities.entities[entityType].push is not a function".
Proof. vm_compute. reflexivity. Qed.

(** ** Edge weights add up *)

Section WeightFacts.
Import NetworkAnalyzer TimelineQueries.

#[local] Abbreviation weights :=
  (λ edges : Edges,
     map (λ entry : string * NetworkEdge.t,
            (fst entry, NetworkEdge.weight (snd entry))) edges).

Lemma weights_get (edges : Edges) (k : string) :
  JsMap.get (weights edges) k = NetworkEdge.weight <$> JsMap.get edges k.
Proof.
  induction edges as [|[k' e] edges IH]; [done|].
  cbn [map JsMap.get fst snd]. by destruct (String.eqb k' k).
Qed.

Lemma weights_set (edges : Edges) (k : string) (edge : NetworkEdge.t) :
  weights (JsMap.set edges k edge)
  = JsMap.set (weights edges) k (NetworkEdge.weight edge).
Proof.
  induction edges as [|[k' e] edges IH]; [done|].
  cbn [map JsMap.set fst snd]. destruct (String.eqb k' k); [done|].
  cbn [map fst snd]. by rewrite IH.
Qed.

Lemma addOrUpdateEdge_total (edges : Edges) source target type weight properties :
  total (weights (addOrUpdateEdge edges source target type weight properties))
  = total (weights edges) + weight.
Proof.
  unfold addOrUpdateEdge.
  destruct (JsMap.get edges (edgeId source target type)) as [edge|] eqn:Hget;
    rewrite weights_set, set_total, weights_get, Hget; cbn; lia.
Qed.

(** X25. Merging loses no sighting: after any sequence of discoveries
    the weights of the edges add up to the weights discovered, in
    whichever direction and order the pairs were met. *)
Theorem discover_all_total_weight (ds : list Discovery) :
  total (weights (discover_all ds)) = foldr Z.add 0 (map d_weight ds).
Proof.
  unfold discover_all.
  assert (∀ edges, total (weights (fold_left discover ds edges))
                   = total (weights edges) + foldr Z.add 0 (map d_weight ds)) as H.
  { induction ds as [|d ds IH]; intros edges; cbn [fold_left map foldr]; [lia|].
    rewrite IH. unfold discover. rewrite addOrUpdateEdge_total. lia. }
  rewrite H. cbn. lia.
Qed.

End WeightFacts.

(** ** Mentions and hashtags *)

Section TagFacts.
Import NetworkBuilder.

Lemma list_ascii_of_string_snoc (s : string) (c : ascii) :
  list_ascii_of_string (s +:+ String c "") = list_ascii_of_string s ++ [c].
Proof.
  induction s as [|d s IH]; [done|].
  rewrite append_cons. cbn [list_ascii_of_string app]. by rewrite IH.
Qed.

Lemma length_snoc (s : string) (c : ascii) :
  String.length (s +:+ String c "") = S (String.length s).
Proof. induction s as [|d s IH]; [done|]. rewrite append_cons. cbn. by rewrite IH. Qed.

(** A candidate being read: the sigil and the word characters read so
    far. *)
#[local] Abbreviation candidate :=
  (λ (sigil : ascii) (cur : option string),
     ∀ t, cur = Some t →
          ∃ name, t = String sigil name
                  ∧ Forall (λ c, is_word c = true) (list_ascii_of_string name)).

Lemma scan_tags_shape (sigil : ascii) (s : string) :
  ∀ cur prev_word tag,
    candidate sigil cur →
    tag ∈ scan_tags sigil cur prev_word s →
    ∃ name, tag = String sigil name
            ∧ name ≠ ""
            ∧ Forall (λ c, is_word c = true) (list_ascii_of_string name).
Proof.
  assert (∀ t tag,
            candidate sigil (Some t) →
            tag ∈ (if (1 <? String.length t)%nat then [t] else []) →
            ∃ name, tag = String sigil name ∧ name ≠ ""
                    ∧ Forall (λ c, is_word c = true) (list_ascii_of_string name))
    as Hemit.
  { intros t tag Hcand Hin. destruct (Hcand t eq_refl) as (name & -> & Hword).
    destruct name as [|c name]; cbn in Hin; [inversion Hin|].
    apply list_elem_of_singleton in Hin as ->. by exists (String c name). }
  assert (candidate sigil (Some (String sigil ""))) as Hstart.
  { intros t [= <-]. exists "". split; [done|constructor]. }
  induction s as [|c s IH]; intros cur prev_word tag Hcand; cbn [scan_tags].
  - destruct cur as [t|]; [by apply Hemit|]. intros H; inversion H.
  - destruct cur as [t|].
    + destruct (is_word c) eqn:Hc.
      * apply IH. intros t' [= <-].
        destruct (Hcand t eq_refl) as (name & -> & Hword).
        exists (name +:+ String c ""). split; [by rewrite append_cons|].
        rewrite list_ascii_of_string_snoc. apply Forall_app. split; [done|].
        by constructor.
      * rewrite elem_of_app. intros [Hin|Hin]; [by apply (Hemit t)|].
        destruct (Ascii.eqb_spec c sigil) as [->|]; cbn [andb] in Hin.
        -- destruct (negb _); eapply IH; try exact Hin; [apply Hstart|done].
        -- eapply IH; [|exact Hin]. done.
    + destruct (Ascii.eqb_spec c sigil) as [->|]; cbn [andb].
      * destruct (negb prev_word); apply IH; [apply Hstart|done].
      * by apply IH.
Qed.

Lemma scan_tags_none (sigil : ascii) (s : string) (prev_word : bool) :
  (∀ c, c ∈ list_ascii_of_string s → c ≠ sigil) →
  scan_tags sigil None prev_word s = [].
Proof.
  revert prev_word. induction s as [|c s IH]; intros prev_word Hno; [done|].
  cbn [scan_tags].
  destruct (Ascii.eqb_spec c sigil) as [->|].
  - by destruct (Hno sigil ltac:(left)).
  - cbn [andb]. apply IH. intros c' Hc'. apply Hno. by right.
Qed.

(** X26. What the graph builder reads as a mention or a hashtag: the
    sigil followed by at least one word character and nothing but word
    characters, so the name of a mentioned user is never empty; a
    content without the sigil yields nothing; and a sigil that follows a
    word character, as in a mail address, starts no tag. *)
Theorem mentions_and_hashtags_shape (content : string) :
  (∀ tag, tag ∈ mentions content →
     ∃ name, tag = String "@" name ∧ name ≠ ""
             ∧ substring_from 1 tag = name
             ∧ Forall (λ c, is_word c = true) (list_ascii_of_string name))
  ∧ (∀ tag, tag ∈ hashtags content →
       ∃ name, tag = String "#" name ∧ name ≠ ""
               ∧ Forall (λ c, is_word c = true) (list_ascii_of_string name))
  ∧ ((∀ c, c ∈ list_ascii_of_string content → c ≠ "@"%char) →
     mentions content = [])
  ∧ (∀ c name, is_word c = true →
       Forall (λ d, is_word d = true) (list_ascii_of_string name) →
       mentions (String c (String "@" name)) = []).
Proof.
  split; [|split; [|split]].
  - intros tag Hin.
    destruct (scan_tags_shape "@" content None false tag) as (name & -> & Hne & Hw);
      [done|done|].
    by exists name.
  - intros tag Hin.
    by apply (scan_tags_shape "#" content None false tag).
  - apply scan_tags_none.
  - intros c name Hc Hname. unfold mentions. cbn [scan_tags].
    destruct (Ascii.eqb_spec c "@") as [->|_]; [done|]. cbn [andb]. rewrite Hc.
    cbn [Ascii.eqb Bool.eqb andb negb].
    apply scan_tags_none. intros d Hd ->.
    rewrite Forall_forall in Hname. by specialize (Hname _ Hd).
Qed.

End TagFacts.

Example mentions_sample :
  NetworkBuilder.mentions "cc @ada and bob@example.org, also @@grace_h!"
  = ["@ada"; "@grace_h"]
  ∧ NetworkBuilder.hashtags "#rocq rocks, see issue#12 and #"
    = ["#rocq"].
Proof. vm_compute. split; reflexivity. Qed.

(** ** Places named by entities and by the content *)

Section PlaceSources.
Import GeoAnalyzer.

Variable config : GeoAnalysisConfig.

Lemma more_confident_best (rest before middle : list Entity.t) (acc : Entity.t) :
  Forall (λ e, (Entity.confidence e < Entity.confidence acc)%Q) before →
  Forall (λ e, (Entity.confidence e <= Entity.confidence acc)%Q) middle →
  ∃ before' after,
    before ++ acc :: middle ++ rest
    = before' ++ fold_left more_confident rest acc :: after
    ∧ Forall (λ e, (Entity.confidence e
                    < Entity.confidence (fold_left more_confident rest acc))%Q) before'
    ∧ Forall (λ e, (Entity.confidence e
                    <= Entity.confidence (fold_left more_confident rest acc))%Q) after.
Proof.
  revert before middle acc.
  induction rest as [|x rest IH]; intros before middle acc Hbefore Hmiddle.
  - exists before, middle. by rewrite app_nil_r.
  - cbn [fold_left]. unfold more_confident at 2 4 6.
    destruct (Qle_bool (Entity.confidence x) (Entity.confidence acc)) eqn:Hle;
      cbn [negb].
    + apply Qle_bool_iff in Hle.
      destruct (IH before (middle ++ [x]) acc Hbefore) as (b & a & Heq & Hb & Ha).
      { apply Forall_app. split; [done|]. by constructor. }
      exists b, a. split; [|done]. rewrite <- Heq. by rewrite <- app_assoc.
    + assert (Entity.confidence acc < Entity.confidence x)%Q as Hlt.
      { apply Qnot_le_lt. intros H. apply Qle_bool_iff in H. congruence. }
      destruct (IH (before ++ acc :: middle) [] x) as (b & a & Heq & Hb & Ha).
      { apply Forall_app. split; [|constructor; [done|]].
        - eapply Forall_impl; [exact Hbefore|]. intros e He. cbn in He.
          by eapply Qlt_trans.
        - eapply Forall_impl; [exact Hmiddle|]. intros e He. cbn in He.
          by eapply Qle_lt_trans. }
      { constructor. }
      exists b, a. split; [|done]. rewrite <- Heq.
      by rewrite <- app_assoc.
Qed.

(** X27. Among the location entities that reach the confidence
    threshold, [extractLocationFromEntities] uses the one of highest
    confidence, the first of them when several share it; the coordinates
    the entity brings are taken as they are, and only without them is
    its text looked up. Without such an entity there is no location. *)
Theorem extractLocationFromEntities_best (event : TimelineEvent)
    (entities : list Entity.t) :
  TimelineEvent.entities event = Some entities →
  let candidates := List.filter (is_location_entity config) entities in
  (candidates = [] → extractLocationFromEntities config event = None)
  ∧ (candidates ≠ [] →
     ∃ before best after,
       candidates = before ++ best :: after
       ∧ Forall (λ e, (Entity.confidence e < Entity.confidence best)%Q) before
       ∧ Forall (λ e, (Entity.confidence e <= Entity.confidence best)%Q) after
       ∧ extractLocationFromEntities config event
         = if entity_has_coordinates best
           then Some {| GeoLocation.lat :=
                          obj_get (default [] (Entity.metadata best)) "lat";
                        GeoLocation.lng :=
                          obj_get (default [] (Entity.metadata best)) "lng";
                        GeoLocation.name := Some (JStr (Entity.text best));
                        GeoLocation.address := None;
                        GeoLocation.countryCode := None |}
           else lookupLocationByName (Entity.text best)).
Proof.
  intros Hentities. cbv zeta. unfold extractLocationFromEntities.
  rewrite Hentities.
  destruct (List.filter (is_location_entity config) entities) as [|first rest].
  - by split.
  - split; [done|]. intros _.
    destruct (more_confident_best rest [] [] first) as (b & a & Heq & Hb & Ha);
      [constructor|constructor|].
    exists b, (fold_left more_confident rest first), a.
    cbn [app] in Heq. done.
Qed.






End PlaceSources.

Lemma extractLocationFromEntities_best_witness :
  GeoAnalyzer.extractLocationFromEntities GeoSamples.config NetSamples.first_event
  = None.
Proof.
  apply (proj1 (extractLocationFromEntities_best GeoSamples.config
                  NetSamples.first_event [NetSamples.acme; NetSamples.ada]
                  eq_refl)).
  reflexivity.
Defined.

Example extractLocationFromContent_lower_case_sample :
  GeoAnalyzer.extractLocationFromContent
    (Samples.raw_event "tw-9" twitter post 1704103210000 Samples.utc
       "landed in paris, finally!")
  = None.
Proof. vm_compute. reflexivity. Qed.

(** ** The zone designator in the dedupe key *)

(** Two pushes of one minute are one event when both are read in the
    fixed zone UTC, and two when one of them is read in an IANA zone at
    offset zero: [toISO] ends in Z for the first and in +00:00 for the
    second, so the keys differ. Behind [normalizeTimestamps] every event
    is in one zone and the difference cannot arise. *)
Example deduplicateEvents_zone_designator :
  let london :=
    {| zoneName := "Europe/London"; offsetMinutes := 0; isUniversal := false |} in
  let push2_london :=
    TimelineEvent.with_timestamp
      (setZone london (TimelineEvent.timestamp Samples.push2)) Samples.push2 in
  TimelineProcessor.deduplicateEvents [Samples.push1; Samples.push2]
  = [Samples.push1]
  ∧ TimelineProcessor.deduplicateEvents [Samples.push1; push2_london]
    = [Samples.push1; push2_london]
  ∧ TimelineProcessor.deduplicateEvents
      (TimelineProcessor.normalizeTimestamps london [Samples.push1; push2_london])
    = TimelineProcessor.normalizeTimestamps london [Samples.push1].
Proof. vm_compute. repeat split. Qed.
